(** * Loan accounting engine of app.py

    A shallow embedding of the core ledger functions of [app.py]
    ([calculate_interest], [get_next_due_date], [calculate_total_owed],
    [process_payment], [check_and_add_overdue_interest],
    [update_loan_statuses]) over an explicit model of the three
    tables they query, followed by the properties of the ledger.

    Conventions of the embedding:
    - amounts are exact rationals ([Q]); Python's [round(x, 2)] is
      [round2], rounding to the nearest hundredth with ties to even;
      [float(x)] is the identity. The source computes on binary
      floating point: a value it rounds to two places before storing is
      the amount in cents the exact computation gives, while a sum it
      stores as it is ([applied_to_interest]) agrees with the exact sum
      after rounding to two places only, and the general properties of
      that column are stated after [round2];
    - a calendar date is a record (year, month, day) as [datetime.date]
      has it; ISO strings stored in the tables are represented by the
      date they denote, [None] being the empty or null column;
    - a table is the list of its rows in storage order; a query is a
      filter of that list, an update rewrites the matching rows in place
      and an insert appends a row with a fresh id;
    - the functions take the user id they read from the session
      ([None] when [get_current_user_id] returns nothing) and today's
      date ([date.today()]) as arguments and thread the stored tables
      explicitly; [get_current_user_id] itself, which raises when the
      session key holds [None], and the [try] around the body of
      [process_payment] are [get_current_user_id] and
      [process_payment_call]; the queries
      are the ones the client issues, with the filters written in the
      source and no policy added on the side of the database;
    - [process_payment], [check_and_add_overdue_interest] and
      [update_loan_statuses] are modelled on a store that answers every
      call; [calculate_total_owed], whose result on a call that raises
      is a subject of the properties, takes the availability of the
      tables as an argument;
    - years are unbounded in [add_one_month]; [datetime.date] stops at
      [MAXYEAR], and [get_next_due_date_call] is [get_next_due_date]
      with the ValueError raised past it. *)

From Stdlib Require Import ZArith QArith Qround Lia Lqa List Bool String.
From Stdlib Require Import Permutation.
Import ListNotations.

Local Open Scope Z_scope.

(** ** Money *)

(** Nearest integer, ties to the even one. *)
Definition round_half_even (x : Q) : Z :=
  let f := Qfloor x in
  match Qcompare (x - inject_Z f) (1 # 2) with
  | Lt => f
  | Gt => f + 1
  | Eq => if Z.even f then f else f + 1
  end.

(** [round(x, 2)] *)
Definition round2 (x : Q) : Q := Qmake (round_half_even (x * 100)) 100.

(** [round_money] *)
Definition round_money (amount : Q) : Q := round2 amount.

(** [a < b] on amounts, as a boolean. *)
Definition Qlt_bool (a b : Q) : bool := negb (Qle_bool b a).

(** An amount that is a whole number of cents. *)
Definition is_cents (x : Q) : Prop := exists c : Z, (x == c # 100)%Q.

Definition INTEREST_RATE : Q := 40 # 100.

(** [calculate_interest]: 40% of the principal, rounded. *)
Definition calculate_interest (principal : Q) : Q :=
  round2 (principal * INTEREST_RATE).

(** ** Calendar dates *)

Inductive Month :=
| Jan | Feb | Mar | Apr | May | Jun | Jul | Aug | Sep | Oct | Nov | Dec.

Definition month_number (m : Month) : Z :=
  match m with
  | Jan => 1 | Feb => 2 | Mar => 3 | Apr => 4 | May => 5 | Jun => 6
  | Jul => 7 | Aug => 8 | Sep => 9 | Oct => 10 | Nov => 11 | Dec => 12
  end.

Definition month_of_number (n : Z) : Month :=
  match n with
  | 1 => Jan | 2 => Feb | 3 => Mar | 4 => Apr | 5 => May | 6 => Jun
  | 7 => Jul | 8 => Aug | 9 => Sep | 10 => Oct | 11 => Nov | _ => Dec
  end.

Record date := mkdate { year : Z; month : Month; day : Z }.

(** [calendar.isleap] *)
Definition isleap (y : Z) : bool :=
  (y mod 4 =? 0) && (negb (y mod 100 =? 0) || (y mod 400 =? 0)).

(** [calendar.monthrange(y, m)[1]] *)
Definition days_in_month (y : Z) (m : Month) : Z :=
  match m with
  | Feb => if isleap y then 29 else 28
  | Apr | Jun | Sep | Nov => 30
  | _ => 31
  end.

(** [d + relativedelta(months=1)]: the month is incremented, carrying
    into the year after December, and the day is cut down to the length
    of the month reached. *)
Definition add_one_month (d : date) : date :=
  let m := month_number (month d) + 1 in
  let y' := if m >? 12 then year d + 1 else year d in
  let m' := month_of_number (if m >? 12 then m - 12 else m) in
  mkdate y' m' (Z.min (days_in_month y' m') (day d)).

(** [get_next_due_date] *)
Definition get_next_due_date (current_due_date_str : option date) : option date :=
  match current_due_date_str with
  | None => None
  | Some current_due_date => Some (add_one_month current_due_date)
  end.

(** What a call comes to: an exception with its text, or a value. *)
Inductive outcome (A : Type) : Type :=
| Raises (error : string)
| Returns (value : A).
Arguments Raises {A} error.
Arguments Returns {A} value.

(** [datetime.MAXYEAR] *)
Definition MAXYEAR : Z := 9999.

(** [get_next_due_date] as the interpreter runs it: the addition of
    [relativedelta(months=1)] builds the date reached and raises
    ValueError when its year is past [MAXYEAR]; the function has no
    [try] and the exception leaves it. *)
Definition get_next_due_date_call (current_due_date_str : option date)
    : outcome (option date) :=
  match current_due_date_str with
  | None => Returns None
  | Some current_due_date =>
      if year (add_one_month current_due_date) >? MAXYEAR
      then Raises "year 10000 is out of range"
      else Returns (get_next_due_date current_due_date_str)
  end.

(** [a < b] on dates: lexicographic on (year, month, day). *)
Definition date_ltb (a b : date) : bool :=
  (year a <? year b)
  || ((year a =? year b)
      && ((month_number (month a) <? month_number (month b))
          || ((month_number (month a) =? month_number (month b))
              && (day a <? day b)))).

Definition date_eqb (a b : date) : bool :=
  (year a =? year b)
  && (month_number (month a) =? month_number (month b))
  && (day a =? day b).

(** Months elapsed since year 0: the measure of the accrual walk. *)
Definition month_index (d : date) : Z := 12 * year d + month_number (month d).

(** [n] successive one-month advances, each from the date the previous
    one produced, as the accrual loop performs them. *)
Fixpoint advance (n : nat) (d : date) : date :=
  match n with
  | O => d
  | S k => add_one_month (advance k d)
  end.

(** ** Tables *)

(** The values the source writes to the [status] column. *)
Inductive Status := Paid | Partial | Overdue | Active.

Definition status_eqb (a b : Status) : bool :=
  match a, b with
  | Paid, Paid | Partial, Partial | Overdue, Overdue | Active, Active => true
  | _, _ => false
  end.

(** The opaque owner key of the authentication session. *)
Definition UserId := string.

(** [.eq("user_id", user_id)] on a nullable column. *)
Definition owned_by (user_id : UserId) (owner : option UserId) : bool :=
  match owner with
  | Some o => String.eqb o user_id
  | None => false
  end.

(** Rows of [loans_new]. *)
Module Loan.
Record t := mk {
  id : Z;
  user_id : option UserId;
  client_id : Z;
  loan_date : date;
  original_due_date : option date;
  current_due_date : option date;
  original_principal : Q;
  current_principal : Q;
  status : Status
}.

Definition set_current_principal (p : Q) (l : t) : t :=
  mk (id l) (user_id l) (client_id l) (loan_date l) (original_due_date l)
     (current_due_date l) (original_principal l) p (status l).

Definition set_status (s : Status) (l : t) : t :=
  mk (id l) (user_id l) (client_id l) (loan_date l) (original_due_date l)
     (current_due_date l) (original_principal l) (current_principal l) s.

Definition set_due_date_and_status (d : date) (s : Status) (l : t) : t :=
  mk (id l) (user_id l) (client_id l) (loan_date l) (original_due_date l)
     (Some d) (original_principal l) (current_principal l) s.
End Loan.

(** Rows of [loan_interest_history]. *)
Module Interest.
Record t := mk {
  id : Z;
  user_id : option UserId;
  loan_id : Z;
  due_date : date;
  interest_amount : Q;
  principal_at_time : Q;
  added_date : date;
  is_paid : bool
}.

Definition set_is_paid (b : bool) (e : t) : t :=
  mk (id e) (user_id e) (loan_id e) (due_date e) (interest_amount e)
     (principal_at_time e) (added_date e) b.

Definition set_interest_amount (a : Q) (e : t) : t :=
  mk (id e) (user_id e) (loan_id e) (due_date e) a
     (principal_at_time e) (added_date e) (is_paid e).
End Interest.

(** Rows of [payments_new]. *)
Module Payment.
Record t := mk {
  id : Z;
  user_id : option UserId;
  loan_id : Z;
  amount : Q;
  payment_date : date;
  applied_to_interest : Q;
  applied_to_principal : Q;
  remaining_amount : Q
}.
End Payment.

Record Store := mkStore {
  loans_new : list Loan.t;
  loan_interest_history : list Interest.t;
  payments_new : list Payment.t
}.

(** [.update(data).eq(...)]: every matching row is rewritten in place. *)
Definition update_rows {A : Type} (matching : A -> bool) (change : A -> A)
    (rows : list A) : list A :=
  map (fun r => if matching r then change r else r) rows.

(** The id the database gives to an inserted row: one not in use. *)
Definition fresh_id (ids : list Z) : Z := 1 + fold_right Z.max 0 ids.

(** [.order("due_date")]: ascending, rows with equal keys in storage order. *)
Fixpoint insert_by_due_date (e : Interest.t) (sorted : list Interest.t) : list Interest.t :=
  match sorted with
  | [] => [e]
  | x :: rest =>
      if date_ltb (Interest.due_date e) (Interest.due_date x)
      then e :: x :: rest
      else x :: insert_by_due_date e rest
  end.

Definition order_by_due_date (rows : list Interest.t) : list Interest.t :=
  fold_left (fun sorted e => insert_by_due_date e sorted) rows [].

(** Whether the store answers a call on a table; a call on a table that
    does not answer raises. *)
Inductive Table := T_loans_new | T_loan_interest_history | T_payments_new.

Definition Availability := Table -> bool.

(** The store answers every call. *)
Definition online : Availability := fun _ => true.

(** ** Total owed *)

(** [get_table_data("loans_new", {"id": loan_id})]: scoped to the session's
    user; without a session, or when the call raises, the result is []. *)
Definition get_table_data_loans (up : Availability) (session : option UserId)
    (st : Store) (loan_id : Z) : list Loan.t :=
  match session with
  | None => []
  | Some user_id =>
      if up T_loans_new
      then filter (fun l => owned_by user_id (Loan.user_id l) && (Loan.id l =? loan_id))
                  (loans_new st)
      else []
  end.

(** Python's [sum] over a list of amounts. *)
Definition sum_amounts (xs : list Q) : Q := fold_left Qplus xs 0%Q.

(** The unpaid interest of a loan as [calculate_total_owed] adds it up:
    rows of the loan with [is_paid = 0], those with a positive amount. *)
Definition unpaid_interest_of (st : Store) (loan_id : Z) : Q :=
  sum_amounts
    (map Interest.interest_amount
       (filter (fun e => Qlt_bool 0 (Interest.interest_amount e))
          (filter (fun e => (Interest.loan_id e =? loan_id) && negb (Interest.is_paid e))
             (loan_interest_history st)))).

(** [calculate_total_owed] (the definition in force, the second one of the
    file): (total_owed, current_principal, unpaid_interest); the three
    zeros when no loan row is read or when a call raises. *)
Definition calculate_total_owed (up : Availability) (session : option UserId)
    (st : Store) (loan_id : Z) : Q * Q * Q :=
  match get_table_data_loans up session st loan_id with
  | [] => (0, 0, 0)%Q
  | loan :: _ =>
      let current_principal := Loan.current_principal loan in
      if up T_loan_interest_history then
        let unpaid_interest := unpaid_interest_of st loan_id in
        let total_owed := round2 (current_principal + unpaid_interest) in
        (total_owed, current_principal, unpaid_interest)
      else (0, 0, 0)%Q
  end.

Definition total_owed_of (r : Q * Q * Q) : Q := fst (fst r).

(** ** Payment allocation *)

(** The loop of [process_payment] over the fetched unpaid entries:
    (remaining_payment, applied_to_interest, interest table). *)
Fixpoint pay_interest (user_id : UserId) (interest_data : list Interest.t)
    (remaining_payment applied_to_interest : Q) (history : list Interest.t)
    : Q * Q * list Interest.t :=
  match interest_data with
  | [] => (remaining_payment, applied_to_interest, history)
  | entry :: rest =>
      if Qle_bool remaining_payment 0
      then (remaining_payment, applied_to_interest, history)
      else
        let entry_id := Interest.id entry in
        let interest_amount := Interest.interest_amount entry in
        let mine := fun e => (Interest.id e =? entry_id) && owned_by user_id (Interest.user_id e) in
        if Qle_bool interest_amount remaining_payment
        then
          pay_interest user_id rest
            (round2 (remaining_payment - interest_amount))
            (applied_to_interest + interest_amount)%Q
            (update_rows mine (Interest.set_is_paid true) history)
        else
          let new_interest_amount := round2 (interest_amount - remaining_payment) in
          pay_interest user_id rest
            0%Q
            (applied_to_interest + remaining_payment)%Q
            (update_rows mine (Interest.set_interest_amount new_interest_amount) history)
  end.

(** Python's [max(x, 0)]. *)
Definition max_zero (x : Q) : Q := if Qlt_bool x 0 then 0%Q else x.

(** [process_payment]: the returned pair (success, message) and the store
    after the call. *)
Definition process_payment (session : option UserId) (st : Store)
    (loan_id : Z) (payment_amount : Q) (payment_date : date)
    : (bool * string) * Store :=
  match session with
  | None => ((false, "User not authenticated"%string), st)
  | Some user_id =>
      let this_loan := fun l => (Loan.id l =? loan_id) && owned_by user_id (Loan.user_id l) in
      match filter this_loan (loans_new st) with
      | [] => ((false, "Loan not found or access denied"%string), st)
      | loan :: _ =>
          let current_principal := Loan.current_principal loan in
          let interest_data :=
            order_by_due_date
              (filter (fun e => (Interest.loan_id e =? loan_id)
                                && owned_by user_id (Interest.user_id e)
                                && negb (Interest.is_paid e)
                                && Qlt_bool 0 (Interest.interest_amount e))
                      (loan_interest_history st)) in
          let '(remaining_payment, applied_to_interest, history) :=
            pay_interest user_id interest_data (round2 payment_amount) 0%Q
                         (loan_interest_history st) in
          let applied_to_principal :=
            if Qlt_bool 0 remaining_payment then remaining_payment else 0%Q in
          let loans :=
            if Qlt_bool 0 remaining_payment
            then update_rows this_loan
                   (Loan.set_current_principal
                      (max_zero (round2 (current_principal - applied_to_principal))))
                   (loans_new st)
            else loans_new st in
          let payment :=
            Payment.mk (fresh_id (map Payment.id (payments_new st))) (Some user_id)
                       loan_id payment_amount payment_date
                       applied_to_interest applied_to_principal remaining_payment in
          let st1 := mkStore loans history (payments_new st ++ [payment]) in
          let total_owed := total_owed_of (calculate_total_owed online session st1 loan_id) in
          let new_status := if Qle_bool total_owed 0 then Paid else Active in
          ((true, "Payment processed successfully"%string),
           mkStore (update_rows this_loan (Loan.set_status new_status) loans)
                   history (payments_new st ++ [payment]))
      end
  end.

(** [st.session_state] as far as the key ["auth_session"] goes: absent
    (a first run of the script has not reached the lines that set it),
    holding [None] (as those lines and [logout] leave it), or holding
    the session of a user. *)
Inductive SessionState : Type :=
| KeyAbsent
| NoSession
| Session (user : UserId).

(** [get_current_user_id]: the id of the session's user, [None] when the
    key is absent; reading [.user] of [None] raises AttributeError. *)
Definition get_current_user_id (state : SessionState) : outcome (option UserId) :=
  match state with
  | KeyAbsent => Returns None
  | NoSession => Raises "'NoneType' object has no attribute 'user'"
  | Session user => Returns (Some user)
  end.

(** The test [if not user_id]: [None] and the empty string fail it. *)
Definition authenticated (user_id : option UserId) : option UserId :=
  match user_id with
  | Some EmptyString => None
  | _ => user_id
  end.

(** [process_payment] with its first statement and its [try]: the
    exception of [get_current_user_id] is caught by the [except] clause
    of [process_payment], which returns its text in the message. *)
Definition process_payment_call (state : SessionState) (st : Store)
    (loan_id : Z) (payment_amount : Q) (payment_date : date)
    : (bool * string) * Store :=
  match get_current_user_id state with
  | Raises e => ((false, ("Error processing payment: " ++ e)%string), st)
  | Returns user_id =>
      process_payment (authenticated user_id) st loan_id payment_amount payment_date
  end.

(** ** Accrual *)

(** The [while today > current_due_date] loop for one loan: the final
    working due date and the interest table. [fuel] bounds the number of
    iterations. *)
Fixpoint accrual_walk (fuel : nat) (today : date) (loan_id : Z)
    (current_principal : Q) (current_due_date : date)
    (history : list Interest.t) : date * list Interest.t :=
  match fuel with
  | O => (current_due_date, history)
  | S fuel' =>
      if date_ltb current_due_date today then
        let existing_interest :=
          filter (fun e => (Interest.loan_id e =? loan_id)
                           && date_eqb (Interest.due_date e) current_due_date)
                 history in
        let history' :=
          match existing_interest with
          | [] =>
              history ++
              [Interest.mk (fresh_id (map Interest.id history)) None loan_id
                           current_due_date (calculate_interest current_principal)
                           current_principal today false]
          | _ :: _ => history
          end in
        accrual_walk fuel' today loan_id current_principal
                     (add_one_month current_due_date) history'
      else (current_due_date, history)
  end.

(** Iterations that can be needed from [current_due_date]: one per month
    up to the month of [today]. *)
Definition walk_fuel (today current_due_date : date) : nat :=
  Z.to_nat (month_index today - month_index current_due_date + 1).

(** The body of the [for loan in loans_data.data] loop. *)
Definition accrue_loan (today : date) (st : Store) (loan : Loan.t) : Store :=
  match Loan.current_due_date loan with
  | None => st
  | Some start =>
      let '(current_due_date, history) :=
        accrual_walk (walk_fuel today start) today (Loan.id loan)
                     (Loan.current_principal loan) start (loan_interest_history st) in
      mkStore
        (update_rows (fun l => Loan.id l =? Loan.id loan)
                     (Loan.set_due_date_and_status current_due_date Overdue)
                     (loans_new st))
        history
        (payments_new st)
  end.

(** [check_and_add_overdue_interest]: the store after the pass (the call
    itself returns [True]). *)
Definition check_and_add_overdue_interest (today : date) (st : Store) : Store :=
  let loans_data := filter (fun l => negb (status_eqb (Loan.status l) Paid)) (loans_new st) in
  fold_left (accrue_loan today) loans_data st.

(** The due date the walk of a loan ends on; it depends on the two dates
    only (see [accrual_walk_date]). *)
Definition walked_due_date (today start : date) : date :=
  fst (accrual_walk (walk_fuel today start) today 0 0%Q start []).

(** What the pass over the fetched loan [k] does to a stored row [r]. *)
Definition touch (today : date) (k r : Loan.t) : Loan.t :=
  match Loan.current_due_date k with
  | None => r
  | Some start =>
      if Loan.id r =? Loan.id k
      then Loan.set_due_date_and_status (walked_due_date today start) Overdue r
      else r
  end.

(** A stored row after the passes over the fetched loans [ks]. *)
Definition touches (today : date) (ks : list Loan.t) (r : Loan.t) : Loan.t :=
  fold_left (fun r k => touch today k r) ks r.

(** ** Status *)

(** The status [update_loan_statuses] computes for a fetched loan row. *)
Definition resolve_status (today : date) (total_owed : Q) (loan : Loan.t) : Status :=
  if Qle_bool total_owed 0 then Paid
  else match Loan.current_due_date loan with
       | Some due_date => if date_ltb due_date today then Overdue else Partial
       | None => Partial
       end.

(** The body of the [for loan in loans_data.data] loop of
    [update_loan_statuses]. *)
Definition refresh_loan (today : date) (session : option UserId)
    (st : Store) (loan : Loan.t) : Store :=
  let loan_id := Loan.id loan in
  let total_owed := total_owed_of (calculate_total_owed online session st loan_id) in
  let status := resolve_status today total_owed loan in
  mkStore (update_rows (fun l => Loan.id l =? loan_id) (Loan.set_status status) (loans_new st))
          (loan_interest_history st) (payments_new st).

(** What the pass of [update_loan_statuses] over the fetched loan [k] does
    to a stored row [r], the total being taken in the store [st1]. *)
Definition retag (today : date) (session : option UserId) (st1 : Store)
    (r k : Loan.t) : Loan.t :=
  if Loan.id r =? Loan.id k
  then Loan.set_status
         (resolve_status today
            (total_owed_of (calculate_total_owed online session st1 (Loan.id k))) k) r
  else r.

(** [update_loan_statuses]: accrual, then the status of every loan. *)
Definition update_loan_statuses (today : date) (session : option UserId)
    (st : Store) : Store :=
  let st1 := check_and_add_overdue_interest today st in
  fold_left (refresh_loan today session) (loans_new st1) st1.

(** A stored row with the status the refresh computes for it in [st]. *)
Definition resolved (today : date) (session : option UserId) (st : Store)
    (r : Loan.t) : Loan.t :=
  Loan.set_status
    (resolve_status today
       (total_owed_of (calculate_total_owed online session st (Loan.id r))) r) r.

(** The status pass of [update_loan_statuses] alone. *)
Definition refresh_all (today : date) (session : option UserId) (st : Store) : Store :=
  fold_left (refresh_loan today session) (loans_new st) st.

(** ** Sample ledgers *)

Module Sample.
Definition alice : UserId := "alice"%string.
Definition bob : UserId := "bob"%string.


(** A loan of R500 of [alice], first due on 5 February 2024. *)
Definition loan1 : Loan.t :=
  Loan.mk 1 (Some alice) 7 (mkdate 2024 Jan 5) (Some (mkdate 2024 Feb 5))
          (Some (mkdate 2024 Feb 5)) 500 500 Partial.

(** Its interest entry of R200 created with the loan. *)
Definition entry1 : Interest.t :=
  Interest.mk 1 (Some alice) 1 (mkdate 2024 Feb 5) 200 500 (mkdate 2024 Jan 5) false.

(** A second entry of R200, for 5 March 2024. *)
Definition entry2 : Interest.t :=
  Interest.mk 2 (Some alice) 1 (mkdate 2024 Mar 5) 200 500 (mkdate 2024 Mar 6) false.

Definition ledger1 : Store := mkStore [loan1] [entry1] [].
Definition ledger2 : Store := mkStore [loan1] [entry2; entry1] [].

(** A loan of R800 of [bob], first due on 10 February 2024. *)
Definition loan2 : Loan.t :=
  Loan.mk 2 (Some bob) 9 (mkdate 2024 Jan 10) (Some (mkdate 2024 Feb 10))
          (Some (mkdate 2024 Feb 10)) 800 800 Partial.

Definition entry3 : Interest.t :=
  Interest.mk 2 (Some bob) 2 (mkdate 2024 Feb 10) 320 800 (mkdate 2024 Jan 10) false.

(** The ledgers of two owners in the same tables. *)
Definition shared_ledger : Store := mkStore [loan1; loan2] [entry1; entry3] [].

(** The first ledger with its loan stored as Paid while R700 is owed. *)
Definition stale_ledger : Store :=
  mkStore [Loan.set_status Paid loan1] [entry1] [].

(** The loans table raises, the others answer. *)
Definition loans_down : Availability :=
  fun t => match t with T_loans_new => false | _ => true end.

(** The interest table raises, the others answer. *)
Definition interest_down : Availability :=
  fun t => match t with T_loan_interest_history => false | _ => true end.
End Sample.

(** ** Editing, deleting and creating loans *)

(** The columns [update_loan] overwrites on a loan row. *)
Definition reset_loan (principal : Q) (due_date : date) (l : Loan.t) : Loan.t :=
  Loan.mk (Loan.id l) (Loan.user_id l) (Loan.client_id l) (Loan.loan_date l)
          (Some due_date) (Some due_date) principal principal (Loan.status l).

(** The columns [update_loan] overwrites on an interest row. *)
Definition reprice_entry (interest principal : Q) (e : Interest.t) : Interest.t :=
  Interest.mk (Interest.id e) (Interest.user_id e) (Interest.loan_id e)
              (Interest.due_date e) interest principal (Interest.added_date e)
              (Interest.is_paid e).

(** [update_loan]: the returned pair (success, message) and the store
    after the call. No call of it carries a [user_id] filter. *)
Definition update_loan (today : date) (session : option UserId) (st : Store)
    (loan_id : Z) (new_principal : Q) (new_due_date : date)
    : (bool * string) * Store :=
  match filter (fun l => Loan.id l =? loan_id) (loans_new st) with
  | [] => ((false, "Loan not found"%string), st)
  | _ :: _ =>
      let new_principal_rounded := round2 new_principal in
      let loans :=
        update_rows (fun l => Loan.id l =? loan_id)
                    (reset_loan new_principal_rounded new_due_date) (loans_new st) in
      let interest := calculate_interest new_principal_rounded in
      let existing_interest :=
        filter (fun e => (Interest.loan_id e =? loan_id)
                         && date_eqb (Interest.due_date e) new_due_date)
               (loan_interest_history st) in
      let history :=
        match existing_interest with
        | first :: _ =>
            update_rows (fun e => Interest.id e =? Interest.id first)
                        (reprice_entry interest new_principal_rounded)
                        (loan_interest_history st)
        | [] =>
            loan_interest_history st ++
            [Interest.mk (fresh_id (map Interest.id (loan_interest_history st))) None
                         loan_id new_due_date interest new_principal_rounded today false]
        end in
      ((true, "Loan updated successfully"%string),
       update_loan_statuses today session (mkStore loans history (payments_new st)))
  end.

(** [delete_loan_with_related_data]: payments, interest entries and the
    loan row of that id are deleted, in this order, with no [user_id]
    filter. *)
Definition delete_loan_with_related_data (st : Store) (loan_id : Z)
    : (bool * string) * Store :=
  ((true, "Loan and all related data deleted successfully"%string),
   mkStore (filter (fun l => negb (Loan.id l =? loan_id)) (loans_new st))
           (filter (fun e => negb (Interest.loan_id e =? loan_id))
                   (loan_interest_history st))
           (filter (fun p => negb (Payment.loan_id p =? loan_id)) (payments_new st))).

(** The handler of the form [add_loan] once a client is selected:
    [client_result] is the list of ids the lookup of the client by name
    returns. The store after the handler. *)
Definition add_loan (today : date) (session : option UserId) (st : Store)
    (client_result : list Z) (principal : Q) (loan_date due_date : date) : Store :=
  if Qle_bool principal 0 then st
  else
    match client_result with
    | [] => st
    | client_id :: _ =>
        let principal_rounded := round2 principal in
        let interest := calculate_interest principal_rounded in
        match session with
        | None => st
        | Some user_id =>
            let loan_id := fresh_id (map Loan.id (loans_new st)) in
            let loan :=
              Loan.mk loan_id (Some user_id) client_id loan_date (Some due_date)
                      (Some due_date) principal_rounded principal_rounded Partial in
            let entry :=
              Interest.mk (fresh_id (map Interest.id (loan_interest_history st)))
                          (Some user_id) loan_id due_date interest principal_rounded
                          today false in
            update_loan_statuses today session
              (mkStore (loans_new st ++ [loan]) (loan_interest_history st ++ [entry])
                       (payments_new st))
        end
    end.

(** ** Clients, groups and the loans view *)

(** Rows of [clients]. *)
Module Client.
Record t := mk {
  id : Z;
  user_id : option UserId;
  name : string;
  group_id : Z
}.
End Client.

(** Rows of [groups]. *)
Module Group.
Record t := mk {
  id : Z;
  user_id : option UserId;
  name : string;
  start_date : date;
  end_date : date
}.
End Group.

Record Directory := mkDirectory {
  groups : list Group.t;
  clients : list Client.t
}.

(** Rows returned by [get_loans_simple_view]. *)
Module LoanView.
Record t := mk {
  id : Z;
  client : string;
  group_name : string;
  loan_date : date;
  due_date : option date;
  principal : Q;
  interest : Q;
  paid : Q;
  total : Q;
  status : Status
}.
End LoanView.

(** The row the select embeds under ["clients"]: the client the loan
    refers to, if there is one. *)
Definition embedded_client (dir : Directory) (loan : Loan.t) : option Client.t :=
  hd_error (filter (fun c => Client.id c =? Loan.client_id loan) (clients dir)).

(** The row the select embeds under ["groups"]. *)
Definition embedded_group (dir : Directory) (c : Client.t) : option Group.t :=
  hd_error (filter (fun g => Group.id g =? Client.group_id c) (groups dir)).

(** [get_loans_simple_view]: one row per stored loan, with no [user_id]
    filter. *)
Definition get_loans_simple_view (dir : Directory) (st : Store) : list LoanView.t :=
  map (fun loan =>
         let loan_id := Loan.id loan in
         let client_name :=
           match embedded_client dir loan with
           | Some c => Client.name c
           | None => EmptyString
           end in
         let group_name :=
           match embedded_client dir loan with
           | Some c => match embedded_group dir c with
                       | Some g => Group.name g
                       | None => EmptyString
                       end
           | None => EmptyString
           end in
         let interest :=
           sum_amounts
             (map Interest.interest_amount
                  (filter (fun e => (Interest.loan_id e =? loan_id)
                                    && negb (Interest.is_paid e))
                          (loan_interest_history st))) in
         let paid :=
           sum_amounts
             (map Payment.amount
                  (filter (fun p => Payment.loan_id p =? loan_id) (payments_new st))) in
         let total := (Loan.current_principal loan + interest)%Q in
         LoanView.mk loan_id client_name group_name (Loan.loan_date loan)
                     (Loan.current_due_date loan) (Loan.current_principal loan)
                     interest paid total (Loan.status loan))
      (loans_new st).

(** [can_delete_client]: no loan refers to the client. *)
Definition can_delete_client (st : Store) (client_id : Z) : bool :=
  Nat.eqb (List.length (filter (fun l => Loan.client_id l =? client_id) (loans_new st))) 0.

(** [can_delete_group]: no client refers to the group. *)
Definition can_delete_group (dir : Directory) (group_id : Z) : bool :=
  Nat.eqb (List.length (filter (fun c => Client.group_id c =? group_id) (clients dir))) 0.

(** The loop of [delete_client_with_related_data] over the fetched loans:
    payments and interest entries of each are deleted. *)
Definition delete_related (loans_data : list Loan.t) (st : Store) : Store :=
  fold_left
    (fun s loan =>
       mkStore (loans_new s)
               (filter (fun e => negb (Interest.loan_id e =? Loan.id loan))
                       (loan_interest_history s))
               (filter (fun p => negb (Payment.loan_id p =? Loan.id loan))
                       (payments_new s)))
    loans_data st.

(** [delete_client_with_related_data] *)
Definition delete_client_with_related_data (dir : Directory) (st : Store)
    (client_id : Z) : (bool * string) * (Directory * Store) :=
  let loans_data := filter (fun l => Loan.client_id l =? client_id) (loans_new st) in
  let st1 := delete_related loans_data st in
  let st2 :=
    mkStore (filter (fun l => negb (Loan.client_id l =? client_id)) (loans_new st1))
            (loan_interest_history st1) (payments_new st1) in
  ((true, "Client and all related data deleted successfully"%string),
   (mkDirectory (groups dir)
                (filter (fun c => negb (Client.id c =? client_id)) (clients dir)),
    st2)).

(** The loop of [delete_group_with_related_data] over the fetched
    clients; it stops at the first deletion that fails. *)
Fixpoint delete_clients (clients_data : list Client.t) (dir : Directory) (st : Store)
    : (bool * string) * (Directory * Store) :=
  match clients_data with
  | [] => ((true, EmptyString), (dir, st))
  | client :: rest =>
      let '((success, message), (dir', st')) :=
        delete_client_with_related_data dir st (Client.id client) in
      if success then delete_clients rest dir' st'
      else ((false, message), (dir', st'))
  end.

(** [delete_group_with_related_data] *)
Definition delete_group_with_related_data (dir : Directory) (st : Store)
    (group_id : Z) : (bool * string) * (Directory * Store) :=
  let clients_data := filter (fun c => Client.group_id c =? group_id) (clients dir) in
  let '((success, message), (dir', st')) := delete_clients clients_data dir st in
  if success then
    ((true, "Group and all related data deleted successfully"%string),
     (mkDirectory (filter (fun g => negb (Group.id g =? group_id)) (groups dir'))
                  (clients dir'),
      st'))
  else ((false, message), (dir', st')).

(** ** Conditions on the stored data *)

(** A day of the month that exists. *)
Definition valid_date (d : date) : Prop :=
  1 <= day d <= days_in_month (year d) (month d).

(** The ids of every table are distinct (primary keys). *)
Definition distinct_ids (st : Store) : Prop :=
  NoDup (map Loan.id (loans_new st))
  /\ NoDup (map Interest.id (loan_interest_history st))
  /\ NoDup (map Payment.id (payments_new st)).

(** At most one interest entry per loan and due date. *)
Definition one_entry_per_due_date (history : list Interest.t) : Prop :=
  NoDup (map (fun e => (Interest.loan_id e, Interest.due_date e)) history).

(** [l'] is the loan row [l] up to its principal and status. *)
Definition loan_rebalanced (l l' : Loan.t) : Prop :=
  Loan.id l' = Loan.id l
  /\ Loan.user_id l' = Loan.user_id l
  /\ Loan.client_id l' = Loan.client_id l
  /\ Loan.loan_date l' = Loan.loan_date l
  /\ Loan.original_due_date l' = Loan.original_due_date l
  /\ Loan.current_due_date l' = Loan.current_due_date l
  /\ Loan.original_principal l' = Loan.original_principal l.

(** [e'] is the interest row [e] up to its amount and paid flag, and is
    paid if [e] is. *)
Definition entry_settled (e e' : Interest.t) : Prop :=
  Interest.id e' = Interest.id e
  /\ Interest.user_id e' = Interest.user_id e
  /\ Interest.loan_id e' = Interest.loan_id e
  /\ Interest.due_date e' = Interest.due_date e
  /\ Interest.principal_at_time e' = Interest.principal_at_time e
  /\ Interest.added_date e' = Interest.added_date e
  /\ (Interest.is_paid e = true -> Interest.is_paid e' = true).

(** [l'] is the loan row [l] up to its current due date and status. *)
Definition loan_rescheduled (l l' : Loan.t) : Prop :=
  Loan.id l' = Loan.id l
  /\ Loan.user_id l' = Loan.user_id l
  /\ Loan.client_id l' = Loan.client_id l
  /\ Loan.loan_date l' = Loan.loan_date l
  /\ Loan.original_due_date l' = Loan.original_due_date l
  /\ Loan.original_principal l' = Loan.original_principal l
  /\ Loan.current_principal l' = Loan.current_principal l.

(** ** Further sample ledgers *)

Module Demo.
(** The first sample ledger after the refresh of 6 April 2024: the loan is
    due on 5 May and has entries for February, March and April, the last
    two inserted by the accrual pass. *)
Definition walked_ledger : Store :=
  update_loan_statuses (mkdate 2024 Apr 6) (Some Sample.alice) Sample.ledger1.

(** The first sample ledger after the refresh of 6 March 2024: the walk
    of the loan has inserted the entry of 5 March. *)
Definition accrued_ledger : Store :=
  update_loan_statuses (mkdate 2024 Mar 6) (Some Sample.alice) Sample.ledger1.

(** The entry of 5 March, as the accrual pass inserts it. *)
Definition accrued_entry : Interest.t :=
  Interest.mk 2 None 1 (mkdate 2024 Mar 5) (20000 # 100) 500 (mkdate 2024 Mar 6) false.

(** The first sample ledger after its owner has paid the R700 owed. *)
Definition settled_ledger : Store :=
  snd (process_payment (Some Sample.alice) Sample.ledger1 1 700 (mkdate 2024 Feb 1)).

(** A group with the two clients of the sample loans. *)
Definition directory : Directory :=
  mkDirectory
    [Group.mk 3 (Some Sample.alice) "January 2024" (mkdate 2024 Jan 1) (mkdate 2024 Jan 31)]
    [Client.mk 7 (Some Sample.alice) "Thabo" 3; Client.mk 9 (Some Sample.bob) "Lerato" 3].
End Demo.

(** * Properties *)

(** ** Rounding *)

Lemma Qlt_bool_iff (a b : Q) : Qlt_bool a b = true <-> (a < b)%Q.
Proof.
  unfold Qlt_bool. rewrite negb_true_iff.
  split; intros H.
  - apply Qnot_le_lt. intros Hle. apply Qle_bool_iff in Hle. congruence.
  - destruct (Qle_bool b a) eqn:E; [|reflexivity].
    apply Qle_bool_iff in E. exfalso. exact (Qlt_not_le _ _ H E).
Qed.

Lemma Qle_bool_false_iff (a b : Q) : Qle_bool a b = false <-> (b < a)%Q.
Proof.
  rewrite <- Qlt_bool_iff. unfold Qlt_bool.
  destruct (Qle_bool a b); simpl; split; congruence.
Qed.

(** Rounding does not see which fraction represents the amount. *)
Lemma round_half_even_comp (x y : Q) : (x == y)%Q -> round_half_even x = round_half_even y.
Proof.
  intros E. unfold round_half_even.
  assert (F : Qfloor x = Qfloor y) by (now rewrite E).
  rewrite F.
  assert (C : ((x - inject_Z (Qfloor y)) ?= (1 # 2))%Q
              = ((y - inject_Z (Qfloor y)) ?= (1 # 2))%Q) by (now rewrite E).
  now rewrite C.
Qed.

Lemma round2_comp (x y : Q) : (x == y)%Q -> round2 x = round2 y.
Proof.
  intros E. unfold round2. f_equal. apply round_half_even_comp. now rewrite E.
Qed.

Lemma round_half_even_inject_Z (c : Z) : round_half_even (inject_Z c) = c.
Proof.
  unfold round_half_even. rewrite Qfloor_Z.
  assert (C : ((inject_Z c - inject_Z c) ?= (1 # 2))%Q = Lt).
  { rewrite <- Qlt_alt. lra. }
  now rewrite C.
Qed.

Lemma round2_cents (x : Q) (c : Z) : (x == c # 100)%Q -> round2 x = (c # 100)%Q.
Proof.
  intros E. unfold round2. f_equal.
  rewrite <- (round_half_even_inject_Z c). apply round_half_even_comp.
  rewrite E. unfold Qeq, inject_Z. simpl. lia.
Qed.

Lemma round2_is_cents (x : Q) : is_cents (round2 x).
Proof. exists (round_half_even (x * 100)). reflexivity. Qed.

Lemma max_zero_nonneg (x : Q) : (0 <= max_zero x)%Q.
Proof.
  unfold max_zero. destruct (Qlt_bool x 0) eqn:E.
  - apply Qle_refl.
  - unfold Qlt_bool in E. rewrite negb_false_iff in E. now apply Qle_bool_iff.
Qed.

(** ** Dates *)

Lemma month_number_range (m : Month) : 1 <= month_number m <= 12.
Proof. destruct m; simpl; lia. Qed.

Lemma month_of_number_number (m : Month) : month_of_number (month_number m) = m.
Proof. now destruct m. Qed.

Lemma days_in_month_range (y : Z) (m : Month) : 28 <= days_in_month y m <= 31.
Proof. unfold days_in_month. destruct m; try lia. destruct (isleap y); lia. Qed.


Lemma add_one_month_carry (d : date) :
  month d = Dec ->
  year (add_one_month d) = year d + 1 /\ month (add_one_month d) = Jan.
Proof. destruct d as [y m dd]. cbn [month]. intros ->. split; reflexivity. Qed.

Lemma add_one_month_no_carry (d : date) :
  month d <> Dec ->
  year (add_one_month d) = year d
  /\ month_number (month (add_one_month d)) = month_number (month d) + 1.
Proof.
  destruct d as [y m dd]. cbn [month]. intros H.
  destruct m; try (split; reflexivity). congruence.
Qed.

(** One advance moves exactly one month forward. *)
Lemma month_index_add_one_month (d : date) :
  month_index (add_one_month d) = month_index d + 1.
Proof.
  unfold month_index.
  assert (C : month d = Dec \/ month d <> Dec) by (destruct (month d); auto; right; discriminate).
  destruct C as [C|C].
  - destruct (add_one_month_carry d C) as [Hy Hm]. rewrite Hy, Hm, C. simpl month_number. lia.
  - destruct (add_one_month_no_carry d C) as [Hy Hm]. rewrite Hy, Hm. lia.
Qed.

Lemma day_add_one_month (d : date) :
  day (add_one_month d)
  = Z.min (days_in_month (year (add_one_month d)) (month (add_one_month d))) (day d).
Proof. reflexivity. Qed.

Lemma month_index_advance (n : nat) (d : date) :
  month_index (advance n d) = month_index d + Z.of_nat n.
Proof.
  induction n as [|n IH].
  - simpl. lia.
  - cbn [advance]. rewrite month_index_add_one_month, IH. lia.
Qed.

Lemma date_ltb_month_index (a b : date) :
  date_ltb a b = true -> month_index a <= month_index b.
Proof.
  unfold date_ltb, month_index. intros H.
  pose proof (month_number_range (month a)). pose proof (month_number_range (month b)).
  apply orb_true_iff in H. destruct H as [H|H].
  - apply Z.ltb_lt in H. lia.
  - apply andb_true_iff in H. destruct H as [Hy H]. apply Z.eqb_eq in Hy.
    apply orb_true_iff in H. destruct H as [H|H].
    + apply Z.ltb_lt in H. lia.
    + apply andb_true_iff in H. destruct H as [Hm _]. apply Z.eqb_eq in Hm. lia.
Qed.

Lemma date_ltb_irrefl (a : date) : date_ltb a a = false.
Proof.
  unfold date_ltb. rewrite !Z.ltb_irrefl, !Z.eqb_refl. reflexivity.
Qed.



(** ** The accrual walk *)

Section Walk.
Variable today : date.

(** A due date that is not in the past ends the walk at once. *)
Lemma accrual_walk_stop fuel loan_id principal d history :
  date_ltb d today = false ->
  accrual_walk fuel today loan_id principal d history = (d, history).
Proof. intros H. destruct fuel; simpl; [reflexivity|]. now rewrite H. Qed.

(** The dates walked through do not depend on the loan or the table. *)
Lemma accrual_walk_date fuel loan_id principal d history loan_id' principal' history' :
  fst (accrual_walk fuel today loan_id principal d history)
  = fst (accrual_walk fuel today loan_id' principal' d history').
Proof.
  revert d history history'.
  induction fuel as [|fuel IH]; intros d history history'; simpl; [reflexivity|].
  destruct (date_ltb d today); [|reflexivity].
  apply IH.
Qed.

(** With one iteration per month up to today's the loop runs to its
    end: the date returned is not before today. *)
Lemma accrual_walk_final fuel loan_id principal d history :
  month_index today - month_index d + 1 <= Z.of_nat fuel ->
  date_ltb (fst (accrual_walk fuel today loan_id principal d history)) today = false.
Proof.
  revert d history.
  induction fuel as [|fuel IH]; intros d history Hfuel.
  - simpl. destruct (date_ltb d today) eqn:E; [|reflexivity].
    apply date_ltb_month_index in E. simpl in Hfuel. lia.
  - cbn [accrual_walk]. destruct (date_ltb d today) eqn:E; [|exact E].
    apply IH. rewrite month_index_add_one_month. lia.
Qed.

(** The loop equation of the walk, with the fuel the pass gives it. *)
Lemma accrual_walk_unfold fuel loan_id principal d history :
  month_index today - month_index d + 1 <= Z.of_nat fuel ->
  accrual_walk fuel today loan_id principal d history
  = if date_ltb d today then
      accrual_walk (Nat.pred fuel) today loan_id principal (add_one_month d)
        (match filter (fun e => (Interest.loan_id e =? loan_id)
                                && date_eqb (Interest.due_date e) d) history with
         | [] => history ++
                 [Interest.mk (fresh_id (map Interest.id history)) None loan_id d
                              (calculate_interest principal) principal today false]
         | _ :: _ => history
         end)
    else (d, history).
Proof.
  intros Hfuel. destruct fuel as [|fuel].
  - simpl. destruct (date_ltb d today) eqn:E; [|reflexivity].
    apply date_ltb_month_index in E. simpl in Hfuel. lia.
  - reflexivity.
Qed.

Lemma walked_due_date_not_past start :
  date_ltb (walked_due_date today start) today = false.
Proof.
  unfold walked_due_date. apply accrual_walk_final. unfold walk_fuel. lia.
Qed.

Lemma walked_due_date_stop start :
  date_ltb start today = false -> walked_due_date today start = start.
Proof.
  intros H. unfold walked_due_date. now rewrite accrual_walk_stop.
Qed.

(** The loans table after the pass over one fetched loan. *)
Lemma loans_new_accrue_loan st k :
  loans_new (accrue_loan today st k) = map (touch today k) (loans_new st).
Proof.
  unfold accrue_loan, touch.
  destruct (Loan.current_due_date k) as [start|].
  - destruct (accrual_walk _ _ _ _ _ _) as [d h] eqn:E. cbn [loans_new].
    unfold update_rows. apply map_ext. intros r.
    replace (walked_due_date today start) with d; [reflexivity|].
    unfold walked_due_date.
    rewrite (accrual_walk_date _ 0 0%Q start [] (Loan.id k) (Loan.current_principal k)
                               (loan_interest_history st)).
    now rewrite E.
  - symmetry. apply map_id.
Qed.

(** The loans table after the pass over a list of fetched loans: every
    stored row goes through the passes one after the other. *)
Lemma loans_new_accrue_loans ks st :
  loans_new (fold_left (accrue_loan today) ks st)
  = map (fun r => fold_left (fun r k => touch today k r) ks r) (loans_new st).
Proof.
  revert st. induction ks as [|k ks IH]; intros st.
  - simpl. symmetry. apply map_id.
  - cbn [fold_left]. rewrite IH, loans_new_accrue_loan, map_map. reflexivity.
Qed.

Lemma touch_id k r : Loan.id (touch today k r) = Loan.id r.
Proof.
  unfold touch. destruct (Loan.current_due_date k); [|reflexivity].
  destruct (Loan.id r =? Loan.id k); reflexivity.
Qed.

Lemma touches_id ks r :
  Loan.id (fold_left (fun r k => touch today k r) ks r) = Loan.id r.
Proof.
  revert r. induction ks as [|k ks IH]; intros r; [reflexivity|].
  cbn [fold_left]. now rewrite IH, touch_id.
Qed.
End Walk.

(** ** Accrual twice on the same day *)

Section Idempotence.
Variable today : date.

(** A row none of the fetched loans shares its id with is left alone. *)
Lemma touches_untouched ks r :
  (forall k start, In k ks -> Loan.current_due_date k = Some start ->
                   Loan.id k <> Loan.id r) ->
  touches today ks r = r.
Proof.
  unfold touches. revert r. induction ks as [|k ks IH]; intros r H; [reflexivity|].
  cbn [fold_left].
  assert (E : touch today k r = r).
  { unfold touch. destruct (Loan.current_due_date k) as [start|] eqn:Ed; [|reflexivity].
    destruct (Z.eqb_spec (Loan.id r) (Loan.id k)) as [Eid|]; [|reflexivity].
    exfalso. apply (H k start); [now left|exact Ed|now symmetry]. }
  rewrite E. apply IH. intros k' start Hin. apply H. now right.
Qed.

(** A row some fetched loan shares its id with ends up Overdue with a
    due date that is not in the past, and so does every row of that id. *)
Lemma touches_settled ks r :
  (exists k start, In k ks /\ Loan.current_due_date k = Some start
                   /\ Loan.id k = Loan.id r) ->
  exists d, date_ltb d today = false
            /\ forall r2, Loan.id r2 = Loan.id r ->
                          Loan.current_due_date (touches today ks r2) = Some d
                          /\ Loan.status (touches today ks r2) = Overdue.
Proof.
  unfold touches. induction ks as [|k ks IH] using rev_ind.
  - intros (k & start & [] & _).
  - intros (k0 & start0 & Hin & Hd0 & Hid0).
    destruct (Loan.current_due_date k) as [start|] eqn:Ed.
    + destruct (Z.eq_dec (Loan.id k) (Loan.id r)) as [Eid|Nid].
      * exists (walked_due_date today start). split; [apply walked_due_date_not_past|].
        intros r2 H2. rewrite fold_left_app. cbn [fold_left]. unfold touch at 1 3.
        rewrite Ed. fold (touches today ks r2). unfold touches. rewrite touches_id.
        replace (Loan.id r2 =? Loan.id k) with true
          by (symmetry; apply Z.eqb_eq; congruence).
        split; reflexivity.
      * destruct IH as (d & Hd & Hall).
        { apply in_app_or in Hin. destruct Hin as [Hin|[<-|[]]].
          - now exists k0, start0.
          - contradiction. }
        exists d. split; [exact Hd|]. intros r2 H2.
        rewrite fold_left_app. cbn [fold_left]. unfold touch at 1 3. rewrite Ed.
        rewrite touches_id.
        replace (Loan.id r2 =? Loan.id k) with false
          by (symmetry; apply Z.eqb_neq; congruence).
        now apply Hall.
    + destruct IH as (d & Hd & Hall).
      { apply in_app_or in Hin. destruct Hin as [Hin|[<-|[]]].
        - now exists k0, start0.
        - congruence. }
      exists d. split; [exact Hd|]. intros r2 H2.
      rewrite fold_left_app. cbn [fold_left]. unfold touch at 1 3. rewrite Ed.
      now apply Hall.
Qed.

(** After a pass every loan that is not Paid and has a due date is
    Overdue with a due date not before today, as is every row of its id. *)
Lemma accrual_settles st l d :
  In l (loans_new (check_and_add_overdue_interest today st)) ->
  Loan.status l <> Paid ->
  Loan.current_due_date l = Some d ->
  date_ltb d today = false
  /\ forall l', In l' (loans_new (check_and_add_overdue_interest today st)) ->
                Loan.id l' = Loan.id l ->
                Loan.current_due_date l' = Some d /\ Loan.status l' = Overdue.
Proof.
  unfold check_and_add_overdue_interest. rewrite loans_new_accrue_loans.
  set (ks := filter _ (loans_new st)). fold (touches today ks).
  intros Hin Hst Hd. apply in_map_iff in Hin. destruct Hin as (r & <- & Hr).
  assert (T : exists k start, In k ks /\ Loan.current_due_date k = Some start
                              /\ Loan.id k = Loan.id r).
  { destruct (existsb (fun k => match Loan.current_due_date k with
                                | Some _ => Loan.id k =? Loan.id r
                                | None => false end) ks) eqn:E.
    - apply existsb_exists in E. destruct E as (k & Hk & E).
      destruct (Loan.current_due_date k) as [start|] eqn:Ek; [|discriminate].
      apply Z.eqb_eq in E. now exists k, start.
    - assert (U : touches today ks r = r).
      { apply touches_untouched. intros k start Hk Ek Hid.
        assert (F : existsb (fun k => match Loan.current_due_date k with
                                      | Some _ => Loan.id k =? Loan.id r
                                      | None => false end) ks = true).
        { apply existsb_exists. exists k. split; [exact Hk|].
          rewrite Ek. now apply Z.eqb_eq. }
        congruence. }
      rewrite U in Hst, Hd. exists r, d. split; [|split; [exact Hd|reflexivity]].
      apply filter_In. split; [exact Hr|].
      destruct (Loan.status r); try reflexivity. congruence. }
  destruct (touches_settled ks r T) as (d' & Hd' & Hall).
  destruct (Hall r eq_refl) as [Hdr _]. unfold touches in Hdr, Hd.
  rewrite Hd in Hdr. injection Hdr as ->.
  split; [exact Hd'|].
  intros l' Hin' Hid'. apply in_map_iff in Hin'. destruct Hin' as (r' & <- & Hr').
  apply Hall. unfold touches in Hid'. rewrite !touches_id in Hid'. exact Hid'.
Qed.

(** On a store in that state the pass over a loan changes nothing. *)
Lemma accrue_loan_settled st l :
  (forall d, Loan.current_due_date l = Some d ->
     date_ltb d today = false
     /\ forall l', In l' (loans_new st) -> Loan.id l' = Loan.id l ->
                   Loan.current_due_date l' = Some d /\ Loan.status l' = Overdue) ->
  accrue_loan today st l = st.
Proof.
  intros H. unfold accrue_loan.
  destruct (Loan.current_due_date l) as [d|]; [|reflexivity].
  destruct (H d eq_refl) as [Hd Hall].
  rewrite accrual_walk_stop by exact Hd.
  destruct st as [loans history payments]. cbn [loans_new loan_interest_history payments_new] in *.
  f_equal. unfold update_rows.
  rewrite <- (map_id loans) at 2. apply map_ext_in. intros r Hr.
  destruct (Z.eqb_spec (Loan.id r) (Loan.id l)) as [E|]; [|reflexivity].
  destruct (Hall r Hr E) as [Hrd Hrs].
  destruct r; cbn in *; subst; reflexivity.
Qed.

Lemma accrue_loans_settled ks st :
  (forall l, In l ks ->
     forall d, Loan.current_due_date l = Some d ->
       date_ltb d today = false
       /\ forall l', In l' (loans_new st) -> Loan.id l' = Loan.id l ->
                     Loan.current_due_date l' = Some d /\ Loan.status l' = Overdue) ->
  fold_left (accrue_loan today) ks st = st.
Proof.
  induction ks as [|k ks IH]; intros H; [reflexivity|].
  cbn [fold_left]. rewrite accrue_loan_settled by (apply H; now left).
  apply IH. intros l Hl. apply H. now right.
Qed.

(** A second accrual pass on the same day, run on the store the first
    one left, changes nothing: every loan it reads has a due date that
    is not before today. *)
Theorem accrual_idempotent (st : Store) :
  check_and_add_overdue_interest today (check_and_add_overdue_interest today st)
  = check_and_add_overdue_interest today st.
Proof.
  set (st1 := check_and_add_overdue_interest today st).
  unfold check_and_add_overdue_interest at 1.
  apply accrue_loans_settled. intros l Hl d Hd.
  apply filter_In in Hl. destruct Hl as [Hl Hs].
  apply (accrual_settles st l d Hl); [|exact Hd].
  intros E. rewrite E in Hs. discriminate.
Qed.
End Idempotence.

(** ** Evaluations on the sample ledgers *)

(** C6, at a loan whose due date is still ahead: on 1 February 2024 the
    loan due on 5 February is not walked (its due date stays, no entry
    is added), yet the pass writes the status Overdue on it. *)
Theorem accrual_marks_unmatured_loan_overdue :
  date_ltb (mkdate 2024 Feb 5) (mkdate 2024 Feb 1) = false
  /\ Loan.status Sample.loan1 = Partial
  /\ check_and_add_overdue_interest (mkdate 2024 Feb 1) Sample.ledger1
     = mkStore [Loan.set_due_date_and_status (mkdate 2024 Feb 5) Overdue Sample.loan1]
               [Sample.entry1] [].
Proof. repeat split. Qed.

(** C1, at a payment that reaches the principal: R300 on a loan with one
    unpaid entry of R200 is recorded with 200 applied to interest, 100
    applied to principal and again 100 as the remaining amount, so the
    three parts add up to 400 and not to the amount paid. *)
Theorem process_payment_records_leftover_twice :
  match payments_new (snd (process_payment (Some Sample.alice) Sample.ledger1 1 300
                                           (mkdate 2024 Feb 1))) with
  | [p] =>
      (Payment.amount p == 300
       /\ Payment.applied_to_interest p == 200
       /\ Payment.applied_to_principal p == 100
       /\ Payment.remaining_amount p == 100
       /\ ~ (Payment.applied_to_interest p + Payment.applied_to_principal p
             + Payment.remaining_amount p == Payment.amount p))%Q
  | _ => False
  end.
Proof. vm_compute. repeat split; discriminate. Qed.


(** C9, at a store holding the loans of two owners: a status refresh in
    the session of [alice] on 6 April 2024 walks the loan of [bob],
    moves its due date from 10 February to 10 April, inserts an interest
    entry for it that carries no owner, and marks it Paid although R800
    of principal is outstanding. *)
Theorem refresh_rewrites_other_owner :
  filter (fun l => owned_by Sample.bob (Loan.user_id l)) (loans_new Sample.shared_ledger)
  = [Sample.loan2]
  /\ filter (fun l => owned_by Sample.bob (Loan.user_id l))
            (loans_new (check_and_add_overdue_interest (mkdate 2024 Apr 6)
                                                       Sample.shared_ledger))
     = [Loan.set_due_date_and_status (mkdate 2024 Apr 10) Overdue Sample.loan2]
  /\ filter (fun l => owned_by Sample.bob (Loan.user_id l))
            (loans_new (update_loan_statuses (mkdate 2024 Apr 6) (Some Sample.alice)
                                             Sample.shared_ledger))
     = [Loan.set_due_date_and_status (mkdate 2024 Apr 10) Paid Sample.loan2]
  /\ map (fun e => (Interest.user_id e, Interest.due_date e))
         (filter (fun e => Interest.loan_id e =? 2)
                 (loan_interest_history
                    (check_and_add_overdue_interest (mkdate 2024 Apr 6)
                                                    Sample.shared_ledger)))
     = [(Some Sample.bob, mkdate 2024 Feb 10); (None, mkdate 2024 Mar 10)].
Proof. repeat split. Qed.

(** C10, as the claim states it, fails: a loan of R500 whose row is not
    read (the loans table raises, the interest table raises, or there is
    no session) gets the total owed 0, and a status refresh without a
    session marks it Paid. *)
Lemma unread_loan_owes_zero :
  calculate_total_owed Sample.loans_down (Some Sample.alice) Sample.ledger1 1 = (0, 0, 0)%Q
  /\ calculate_total_owed Sample.interest_down (Some Sample.alice) Sample.ledger1 1
     = (0, 0, 0)%Q
  /\ calculate_total_owed online None Sample.ledger1 1 = (0, 0, 0)%Q
  /\ Loan.current_principal Sample.loan1 = 500%Q
  /\ map Loan.status
         (loans_new (update_loan_statuses (mkdate 2024 Feb 1) None Sample.ledger1))
     = [Paid].
Proof. repeat split. Qed.

(** ** Total owed *)

(** C10 (amended): when no loan row is read (there is no session, the
    loans table raises, or no row of that id belongs to the session's
    user) or the interest table raises, [calculate_total_owed] does not
    raise: it returns the three zeros. *)
Theorem calculate_total_owed_default up session st loan_id :
  session = None
  \/ up T_loans_new = false
  \/ up T_loan_interest_history = false
  \/ (forall l, In l (loans_new st) -> Loan.id l = loan_id -> Loan.user_id l <> session) ->
  calculate_total_owed up session st loan_id = (0, 0, 0)%Q.
Proof.
  intros H. unfold calculate_total_owed, get_table_data_loans.
  destruct session as [user_id|]; [|reflexivity].
  destruct (up T_loans_new) eqn:Eloans; [|reflexivity].
  destruct (filter _ (loans_new st)) as [|loan rest] eqn:F; [reflexivity|].
  destruct (up T_loan_interest_history) eqn:Ehist; [|reflexivity].
  destruct H as [H|[H|[H|H]]]; try discriminate.
  exfalso.
  assert (Hin : In loan (filter
                 (fun l => owned_by user_id (Loan.user_id l) && (Loan.id l =? loan_id))
                 (loans_new st))) by (rewrite F; now left).
  apply filter_In in Hin. destruct Hin as [Hin Hm].
  apply andb_true_iff in Hm. destruct Hm as [Ho Hi]. apply Z.eqb_eq in Hi.
  apply (H loan Hin Hi).
  unfold owned_by in Ho. destruct (Loan.user_id loan) as [o|]; [|discriminate].
  apply String.eqb_eq in Ho. now subst.
Qed.

Lemma calculate_total_owed_default_witness :
  calculate_total_owed Sample.loans_down (Some Sample.alice) Sample.ledger1 1 = (0, 0, 0)%Q.
Proof.
  apply (calculate_total_owed_default Sample.loans_down (Some Sample.alice) Sample.ledger1 1).
  right. left. reflexivity.
Defined.

(** With the store answering, the first row of that id owned by the
    session's user gives the total. *)
Lemma calculate_total_owed_read user_id st loan_id loan rest :
  filter (fun l => owned_by user_id (Loan.user_id l) && (Loan.id l =? loan_id))
         (loans_new st) = loan :: rest ->
  calculate_total_owed online (Some user_id) st loan_id
  = (round2 (Loan.current_principal loan + unpaid_interest_of st loan_id),
     Loan.current_principal loan,
     unpaid_interest_of st loan_id).
Proof.
  intros F. unfold calculate_total_owed, get_table_data_loans. cbn [online].
  now rewrite F.
Qed.

(** The status column plays no part in the total. *)
Lemma filter_status_blind (P : Loan.t -> bool) (xs ys : list Loan.t) :
  (forall l s, P (Loan.set_status s l) = P l) ->
  map (Loan.set_status Paid) xs = map (Loan.set_status Paid) ys ->
  map (Loan.set_status Paid) (filter P xs) = map (Loan.set_status Paid) (filter P ys).
Proof.
  intros HP. revert ys. induction xs as [|x xs IH]; intros [|y ys] E; try discriminate.
  - reflexivity.
  - cbn [map] in E.
    assert (Exy : Loan.set_status Paid x = Loan.set_status Paid y) by congruence.
    assert (E' : map (Loan.set_status Paid) xs = map (Loan.set_status Paid) ys)
      by congruence.
    clear E. cbn [filter]. rewrite <- (HP x Paid), <- (HP y Paid), Exy.
    destruct (P (Loan.set_status Paid y)).
    + cbn [map]. rewrite Exy. f_equal. now apply IH.
    + now apply IH.
Qed.

Lemma calculate_total_owed_status_blind up session st st' loan_id :
  map (Loan.set_status Paid) (loans_new st) = map (Loan.set_status Paid) (loans_new st') ->
  loan_interest_history st = loan_interest_history st' ->
  calculate_total_owed up session st loan_id = calculate_total_owed up session st' loan_id.
Proof.
  intros EL EH. unfold calculate_total_owed, get_table_data_loans, unpaid_interest_of.
  rewrite EH.
  destruct session as [user_id|]; [|reflexivity].
  destruct (up T_loans_new); [|reflexivity].
  pose proof (filter_status_blind
                (fun l => owned_by user_id (Loan.user_id l) && (Loan.id l =? loan_id))
                _ _ (fun l s => eq_refl) EL) as F.
  destruct (filter _ (loans_new st)) as [|a ra];
    destruct (filter _ (loans_new st')) as [|b rb]; try discriminate; [reflexivity|].
  cbn [map] in F.
  assert (Eab : Loan.set_status Paid a = Loan.set_status Paid b) by congruence.
  assert (Ep : Loan.current_principal a = Loan.current_principal b).
  { change (Loan.current_principal (Loan.set_status Paid a)
            = Loan.current_principal (Loan.set_status Paid b)). now rewrite Eab. }
  now rewrite Ep.
Qed.

Lemma update_status_blind (P : Loan.t -> bool) (s : Status) (ls : list Loan.t) :
  map (Loan.set_status Paid) (update_rows P (Loan.set_status s) ls)
  = map (Loan.set_status Paid) ls.
Proof.
  unfold update_rows. rewrite map_map. apply map_ext. intros l.
  destruct (P l); reflexivity.
Qed.

(** ** The status refresh *)

Lemma filter_unique_id (P : Loan.t -> bool) (ls : list Loan.t) (l : Loan.t) :
  NoDup (map Loan.id ls) -> In l ls -> P l = true ->
  (forall x, P x = true -> Loan.id x = Loan.id l) ->
  filter P ls = [l].
Proof.
  intros ND Hin Hl HP. induction ls as [|a ls IH]; [contradiction|].
  cbn [map] in ND. apply NoDup_cons_iff in ND. destruct ND as [Ha ND].
  assert (Hrest : forall x, In x ls -> Loan.id x <> Loan.id a).
  { intros x Hx E. apply Ha. rewrite <- E. now apply in_map. }
  cbn [filter]. destruct Hin as [->|Hin].
  - rewrite Hl. f_equal.
    rewrite <- (filter_ext_in (fun _ => false)); [now rewrite filter_false|].
    intros x Hx. destruct (P x) eqn:E; [|reflexivity].
    exfalso. apply (Hrest x Hx). now apply HP.
  - destruct (P a) eqn:E.
    + exfalso. apply (Hrest l Hin). symmetry. now apply HP.
    + now apply IH.
Qed.

Lemma accrual_keeps_ids today st :
  map Loan.id (loans_new (check_and_add_overdue_interest today st))
  = map Loan.id (loans_new st).
Proof.
  unfold check_and_add_overdue_interest. rewrite loans_new_accrue_loans, map_map.
  apply map_ext. intros r. apply touches_id.
Qed.

Section Resolver.
Variables (today : date) (session : option UserId) (st1 : Store).

Lemma retag_id r k : Loan.id (retag today session st1 r k) = Loan.id r.
Proof. unfold retag. destruct (Loan.id r =? Loan.id k); reflexivity. Qed.

Lemma refresh_loans ks st :
  map (Loan.set_status Paid) (loans_new st) = map (Loan.set_status Paid) (loans_new st1) ->
  loan_interest_history st = loan_interest_history st1 ->
  loans_new (fold_left (refresh_loan today session) ks st)
  = map (fun r => fold_left (retag today session st1) ks r) (loans_new st).
Proof.
  revert st. induction ks as [|k ks IH]; intros st EL EH.
  - cbn [fold_left]. symmetry. apply map_id.
  - cbn [fold_left]. rewrite IH.
    + unfold refresh_loan at 1. cbn [loans_new]. unfold update_rows. rewrite map_map.
      apply map_ext. intros r. f_equal. unfold retag.
      now rewrite (calculate_total_owed_status_blind online session st st1).
    + unfold refresh_loan. cbn [loans_new]. now rewrite update_status_blind.
    + exact EH.
Qed.

Lemma retags_untouched ks r :
  (forall k, In k ks -> Loan.id k <> Loan.id r) -> fold_left (retag today session st1) ks r = r.
Proof.
  revert r. induction ks as [|k ks IH]; intros r H; [reflexivity|].
  cbn [fold_left]. unfold retag at 2.
  replace (Loan.id r =? Loan.id k) with false.
  - apply IH. intros k' Hk'. apply H. now right.
  - symmetry. apply Z.eqb_neq. intros E. apply (H k); [now left|now symmetry].
Qed.

(** With distinct ids a row gets the status computed for the fetched
    loan of its id. *)
Lemma retags_unique ks k r :
  NoDup (map Loan.id ks) -> In k ks -> Loan.id r = Loan.id k ->
  fold_left (retag today session st1) ks r
  = Loan.set_status (resolve_status today (total_owed_of (calculate_total_owed online session st1 (Loan.id k))) k) r.
Proof.
  revert r. induction ks as [|a ks IH]; intros r ND Hin Hid; [contradiction|].
  cbn [map] in ND. apply NoDup_cons_iff in ND. destruct ND as [Ha ND].
  cbn [fold_left]. destruct Hin as [->|Hin].
  - unfold retag at 2. replace (Loan.id r =? Loan.id k) with true
      by (symmetry; now apply Z.eqb_eq).
    apply retags_untouched. intros k' Hk' E. apply Ha.
    cbn in E. rewrite <- Hid, <- E. now apply in_map.
  - unfold retag at 2. replace (Loan.id r =? Loan.id a) with false.
    + now apply IH.
    + symmetry. apply Z.eqb_neq. intros E. apply Ha.
      rewrite <- E, Hid. now apply in_map.
Qed.
End Resolver.

(** C3, at a store holding the loans of two owners. On 1 February 2024,
    before any due date, the refresh run in the session of [alice]
    leaves the interest entries as they are and marks the loan of [bob]
    Paid. That loan has a current principal of R800 and one unpaid
    interest entry of R320, a total owed of R1120, and is due on
    10 February: by the rule of the claim it is Partial. The loop reads
    every loan, while [calculate_total_owed] reads the rows of the
    session's user only and answers 0 for the others. *)
Theorem refresh_marks_owing_loan_paid :
  let st' := update_loan_statuses (mkdate 2024 Feb 1) (Some Sample.alice)
                                  Sample.shared_ledger in
  loans_new st' = [Sample.loan1; Loan.set_status Paid Sample.loan2]
  /\ loan_interest_history st' = [Sample.entry1; Sample.entry3]
  /\ filter (fun e => (Interest.loan_id e =? Loan.id Sample.loan2)
                      && negb (Interest.is_paid e))
            (loan_interest_history st') = [Sample.entry3]
  /\ (Loan.current_principal Sample.loan2 + Interest.interest_amount Sample.entry3
      == 1120)%Q
  /\ Loan.current_due_date Sample.loan2 = Some (mkdate 2024 Feb 10)
  /\ date_ltb (mkdate 2024 Feb 10) (mkdate 2024 Feb 1) = false
  /\ calculate_total_owed online (Some Sample.alice) st' 2 = (0, 0, 0)%Q
  /\ total_owed_of (calculate_total_owed online (Some Sample.bob) st' 2)
     = (112000 # 100)%Q.
Proof. repeat split. Qed.

(** ** Payments *)

Lemma in_update_rows {A : Type} (P : A -> bool) (f : A -> A) (rows : list A) (x : A) :
  In x (update_rows P f rows) ->
  exists r, In r rows /\ x = if P r then f r else r.
Proof.
  unfold update_rows. intros H. apply in_map_iff in H.
  destruct H as (r & E & Hr). now exists r.
Qed.



(** No payment leaves a principal below zero where there was none. *)
Lemma process_payment_principal_floor session st loan_id payment_amount payment_date l :
  In l (loans_new (snd (process_payment session st loan_id payment_amount payment_date))) ->
  (0 <= Loan.current_principal l)%Q
  \/ exists r, In r (loans_new st) /\ Loan.id r = Loan.id l
               /\ Loan.current_principal l = Loan.current_principal r.
Proof.
  unfold process_payment.
  destruct session as [user_id|]; [|cbn [snd]; intros H; right; now exists l].
  set (this_loan := fun l => (Loan.id l =? loan_id) && owned_by user_id (Loan.user_id l)).
  destruct (filter this_loan (loans_new st)) as [|loan rest] eqn:F;
    [cbn [snd]; intros H; right; now exists l|].
  destruct (pay_interest _ _ _ _ _) as [[remaining applied] history] eqn:P.
  cbn [snd loans_new]. intros H.
  apply in_update_rows in H. destruct H as (r1 & H1 & ->).
  assert (Hs : forall s x, Loan.current_principal (if this_loan x then Loan.set_status s x else x)
                           = Loan.current_principal x
                           /\ Loan.id (if this_loan x then Loan.set_status s x else x)
                              = Loan.id x).
  { intros s x. destruct (this_loan x); split; reflexivity. }
  match goal with
  | H : In _ _ |- context [Loan.set_status ?s r1] => destruct (Hs s r1) as [Ep Ei]
  end.
  rewrite Ep, Ei. clear Ep Ei.
  destruct (Qlt_bool 0 remaining).
  - apply in_update_rows in H1. destruct H1 as (r & Hr & ->).
    destruct (this_loan r).
    + left. cbn. apply max_zero_nonneg.
    + right. now exists r.
  - right. now exists r1.
Qed.

(** C7: [current_principal >= 0] is kept by [process_payment]: if no
    stored principal is negative before a payment, of any amount, none
    is after it; the principal the payment writes is
    max(round(current_principal - remaining, 2), 0). *)
Theorem process_payment_principal_nonnegative
    session st loan_id payment_amount payment_date :
  (forall l, In l (loans_new st) -> (0 <= Loan.current_principal l)%Q) ->
  forall l,
    In l (loans_new (snd (process_payment session st loan_id payment_amount payment_date))) ->
    (0 <= Loan.current_principal l)%Q.
Proof.
  intros Inv l Hl.
  destruct (process_payment_principal_floor _ _ _ _ _ _ Hl) as [H|(r & Hr & _ & E)].
  - exact H.
  - rewrite E. now apply Inv.
Qed.

Lemma process_payment_principal_nonnegative_witness :
  Forall (fun l => (0 <= Loan.current_principal l)%Q)
         (loans_new (snd (process_payment (Some Sample.alice) Sample.ledger1 1 10000
                                          (mkdate 2024 Feb 1)))).
Proof.
  apply Forall_forall.
  apply (process_payment_principal_nonnegative (Some Sample.alice) Sample.ledger1 1 10000
                                               (mkdate 2024 Feb 1)).
  intros l [<-|[]]. vm_compute. discriminate.
Defined.

(** ** The waterfall *)

Lemma date_ltb_asym (a b : date) : date_ltb a b = true -> date_ltb b a = false.
Proof.
  unfold date_ltb. intros H.
  repeat (rewrite ?orb_true_iff, ?andb_true_iff, ?Z.ltb_lt, ?Z.eqb_eq in H).
  rewrite orb_false_iff, !andb_false_iff, orb_false_iff, andb_false_iff,
    !Z.ltb_ge, !Z.eqb_neq.
  lia.
Qed.

(** Two entries with distinct due dates come out of the query oldest
    first, whatever their order in the table. *)
Lemma order_by_due_date_two (e1 e2 : Interest.t) (rows : list Interest.t) :
  date_ltb (Interest.due_date e1) (Interest.due_date e2) = true ->
  Permutation [e1; e2] rows ->
  order_by_due_date rows = [e1; e2].
Proof.
  intros Hlt HP. apply Permutation_length_2_inv in HP.
  unfold order_by_due_date.
  destruct HP as [->| ->]; cbn [fold_left insert_by_due_date].
  - now rewrite (date_ltb_asym _ _ Hlt).
  - now rewrite Hlt.
Qed.

(** Arithmetic on whole numbers of cents. *)
Lemma cents_minus (x y : Z) : ((x # 100) - (y # 100) == (x - y) # 100)%Q.
Proof. unfold Qeq. simpl. lia. Qed.

Lemma cents_le (x y : Z) : ((x # 100) <= (y # 100))%Q <-> x <= y.
Proof. unfold Qle. simpl. lia. Qed.

Lemma cents_lt (x y : Z) : ((x # 100) < (y # 100))%Q <-> x < y.
Proof. unfold Qlt. simpl. lia. Qed.

Lemma cents_pos (x : Z) : (0 < (x # 100))%Q <-> 0 < x.
Proof. unfold Qlt. simpl. lia. Qed.

Lemma cents_double_minus (x y : Z) :
  ((2 * (x - y)) # 100 == 2 * ((x # 100) - (y # 100)))%Q.
Proof. unfold Qeq, Qmult, Qminus, Qplus, Qopp. cbn [Qnum Qden]. lia. Qed.

Lemma cents_half_double (x : Z) : (x # 100 == (1 # 2) * ((2 * x) # 100))%Q.
Proof. unfold Qeq, Qmult. cbn [Qnum Qden]. lia. Qed.

Lemma cents_plus (x y : Z) : ((x # 100) + (y # 100) == (x + y) # 100)%Q.
Proof. unfold Qeq. simpl. lia. Qed.

Section Waterfall.
Variables (user_id : UserId) (e1 e2 : Interest.t) (a c : Z).
Hypothesis a_pos : 0 < a.
Hypothesis c_pos : 0 < c.
Hypothesis amount1 : (Interest.interest_amount e1 == a # 100)%Q.
Hypothesis amount2 : (Interest.interest_amount e2 == (2 * c) # 100)%Q.

(** The loop on the two entries with a payment of A1 + A2/2: the first
    is settled, the second is reduced by what is left. *)
Lemma pay_interest_two payment_amount history :
  (payment_amount == (a + c) # 100)%Q ->
  pay_interest user_id [e1; e2] (round2 payment_amount) 0%Q history
  = (0%Q,
     (0 + Interest.interest_amount e1 + (c # 100))%Q,
     update_rows
       (fun e => (Interest.id e =? Interest.id e2) && owned_by user_id (Interest.user_id e))
       (Interest.set_interest_amount (c # 100)%Q)
       (update_rows
          (fun e => (Interest.id e =? Interest.id e1) && owned_by user_id (Interest.user_id e))
          (Interest.set_is_paid true) history)).
Proof.
  intros Hpay. rewrite (round2_cents _ _ Hpay).
  cbn [pay_interest].
  assert (T1 : Qle_bool ((a + c) # 100) 0 = false).
  { apply Qle_bool_false_iff. apply cents_pos. lia. }
  rewrite T1.
  assert (T2 : Qle_bool (Interest.interest_amount e1) ((a + c) # 100) = true).
  { apply Qle_bool_iff. rewrite amount1. apply cents_le. lia. }
  rewrite T2.
  assert (R1 : round2 (((a + c) # 100) - Interest.interest_amount e1) = (c # 100)%Q).
  { apply round2_cents. rewrite amount1, cents_minus.
    now replace (a + c - a) with c by lia. }
  rewrite R1.
  assert (T3 : Qle_bool (c # 100) 0 = false).
  { apply Qle_bool_false_iff. apply cents_pos. lia. }
  rewrite T3.
  assert (T4 : Qle_bool (Interest.interest_amount e2) (c # 100) = false).
  { apply Qle_bool_false_iff. rewrite amount2. apply cents_lt. lia. }
  rewrite T4.
  assert (R2 : round2 (Interest.interest_amount e2 - (c # 100)) = (c # 100)%Q).
  { apply round2_cents. rewrite amount2, cents_minus.
    now replace (2 * c - c) with c by lia. }
  rewrite R2. reflexivity.
Qed.
End Waterfall.

Lemma NoDup_id_inj (rows : list Interest.t) (x y : Interest.t) :
  NoDup (map Interest.id rows) -> In x rows -> In y rows ->
  Interest.id x = Interest.id y -> x = y.
Proof.
  induction rows as [|r rows IH]; intros ND Hx Hy E; [contradiction|].
  cbn [map] in ND. apply NoDup_cons_iff in ND. destruct ND as [Hr ND].
  destruct Hx as [->|Hx], Hy as [->|Hy]; auto.
  - exfalso. apply Hr. rewrite E. now apply in_map.
  - exfalso. apply Hr. rewrite <- E. now apply in_map.
Qed.

(** X27: the waterfall among the entries that carry the caller's id. On
    a loan of the caller whose unpaid interest entries with the caller's
    user id are [e1] and [e2], due on D1 < D2 and holding A1 and A2, a
    payment of A1 + A2/2 (amounts being whole cents, entry ids distinct)
    marks the D1 entry paid and changes nothing else of it, leaves the
    D2 entry unpaid with an interest amount of exactly A2/2, and is
    recorded with applied_to_interest equal, to two places, to the
    amount and with 0 applied to principal: the older entry is served
    first, interest before principal. *)
Theorem waterfall_oldest_first user st loan_id payment_amount payment_date e1 e2 :
  (exists loan, In loan (loans_new st) /\ Loan.id loan = loan_id
                /\ Loan.user_id loan = Some user) ->
  NoDup (map Interest.id (loan_interest_history st)) ->
  Permutation [e1; e2]
    (filter (fun e => (Interest.loan_id e =? loan_id)
                      && owned_by user (Interest.user_id e)
                      && negb (Interest.is_paid e)
                      && Qlt_bool 0 (Interest.interest_amount e))
            (loan_interest_history st)) ->
  date_ltb (Interest.due_date e1) (Interest.due_date e2) = true ->
  is_cents (Interest.interest_amount e1) ->
  is_cents payment_amount ->
  (payment_amount == Interest.interest_amount e1 + (1 # 2) * Interest.interest_amount e2)%Q ->
  let st' := snd (process_payment (Some user) st loan_id payment_amount payment_date) in
  exists e1' e2' p,
    In e1' (loan_interest_history st')
    /\ In e2' (loan_interest_history st')
    /\ e1' = Interest.set_is_paid true e1
    /\ Interest.is_paid e1' = true
    /\ Interest.interest_amount e1' = Interest.interest_amount e1
    /\ Interest.due_date e1' = Interest.due_date e1
    /\ e2' = Interest.set_interest_amount (Interest.interest_amount e2') e2
    /\ Interest.is_paid e2' = false
    /\ Interest.due_date e2' = Interest.due_date e2
    /\ (Interest.interest_amount e2' == (1 # 2) * Interest.interest_amount e2)%Q
    /\ (forall e, In e (loan_interest_history st') ->
                  Interest.id e = Interest.id e1 -> e = e1')
    /\ (forall e, In e (loan_interest_history st') ->
                  Interest.id e = Interest.id e2 -> e = e2')
    /\ payments_new st' = payments_new st ++ [p]
    /\ (round2 (Payment.applied_to_interest p) == payment_amount)%Q
    /\ (Payment.applied_to_principal p == 0)%Q.
Proof.
  intros (loan & Hloan & Hid & Hown) ND HP Hlt (a & Ha) (pz & Hp) Hpay st'.
  pose proof Hp as Hcents.
  set (unpaid := fun e => (Interest.loan_id e =? loan_id)
                          && owned_by user (Interest.user_id e)
                          && negb (Interest.is_paid e)
                          && Qlt_bool 0 (Interest.interest_amount e)) in *.
  (* the two entries are stored, unpaid and owned by the caller *)
  assert (H1 : In e1 (loan_interest_history st) /\ unpaid e1 = true).
  { apply filter_In. apply (Permutation_in _ HP). now left. }
  assert (H2 : In e2 (loan_interest_history st) /\ unpaid e2 = true).
  { apply filter_In. apply (Permutation_in _ HP). right. now left. }
  destruct H1 as [In1 U1], H2 as [In2 U2].
  unfold unpaid in U1, U2.
  repeat (rewrite andb_true_iff in U1). repeat (rewrite andb_true_iff in U2).
  destruct U1 as [[[_ Own1] _] Pos1], U2 as [[[_ Own2] Paid2] Pos2].
  apply Qlt_bool_iff in Pos1, Pos2. apply negb_true_iff in Paid2.
  (* the amounts in cents *)
  set (c := pz - a).
  assert (Hc : (Interest.interest_amount e2 == (2 * c) # 100)%Q).
  { unfold c. rewrite cents_double_minus, <- Hp, <- Ha, Hpay. ring. }
  assert (a_pos : 0 < a) by (apply cents_pos; now rewrite <- Ha).
  assert (c_pos : 0 < c).
  { assert (0 < 2 * c); [|lia]. apply cents_pos. now rewrite <- Hc. }
  assert (Hpay' : (payment_amount == (a + c) # 100)%Q).
  { rewrite Hp. unfold c. now replace (a + (pz - a)) with pz by lia. }
  assert (Nid : Interest.id e1 <> Interest.id e2).
  { intros E. apply (NoDup_id_inj _ _ _ ND In1 In2) in E. subst e2.
    now rewrite date_ltb_irrefl in Hlt. }
  (* the run of the payment *)
  unfold st', process_payment.
  destruct (filter _ (loans_new st)) as [|loan0 rest] eqn:F.
  { exfalso.
    assert (Hin : In loan (filter (fun l => (Loan.id l =? loan_id)
                                            && owned_by user (Loan.user_id l))
                                  (loans_new st))).
    { apply filter_In. split; [exact Hloan|].
      rewrite Hown. cbn [owned_by]. rewrite String.eqb_refl.
      now replace (Loan.id loan =? loan_id) with true by (symmetry; now apply Z.eqb_eq). }
    rewrite F in Hin. contradiction. }
  fold unpaid. rewrite (order_by_due_date_two e1 e2 _ Hlt HP).
  rewrite (pay_interest_two user e1 e2 a c a_pos c_pos Ha Hc payment_amount _ Hpay').
  replace (Qlt_bool 0 0) with false by reflexivity.
  cbn [snd loan_interest_history payments_new].
  set (history' := update_rows _ _ (update_rows _ _ _)).
  (* what the two updates do to a stored row *)
  assert (G : forall r, In r (loan_interest_history st) ->
                (Interest.id r = Interest.id e1 -> r = e1)
                /\ (Interest.id r = Interest.id e2 -> r = e2)).
  { intros r Hr. split; intros E; now apply (NoDup_id_inj _ _ _ ND). }
  assert (M1 : In (Interest.set_is_paid true e1) history').
  { unfold history', update_rows. rewrite map_map. apply in_map_iff. exists e1.
    split; [|exact In1]. rewrite Z.eqb_refl, Own1. cbn [andb Interest.id Interest.set_is_paid
                                                          Interest.user_id].
    replace (Interest.id e1 =? Interest.id e2) with false
      by (symmetry; now apply Z.eqb_neq).
    reflexivity. }
  assert (M2 : In (Interest.set_interest_amount (c # 100)%Q e2) history').
  { unfold history', update_rows. rewrite map_map. apply in_map_iff. exists e2.
    split; [|exact In2].
    replace (Interest.id e2 =? Interest.id e1) with false
      by (symmetry; apply Z.eqb_neq; congruence).
    cbn [andb]. now rewrite Z.eqb_refl, Own2. }
  assert (U : forall e, In e history' ->
                (Interest.id e = Interest.id e1 -> e = Interest.set_is_paid true e1)
                /\ (Interest.id e = Interest.id e2 ->
                    e = Interest.set_interest_amount (c # 100)%Q e2)).
  { intros e He. unfold history', update_rows in He. rewrite map_map in He.
    apply in_map_iff in He. destruct He as (r & <- & Hr).
    destruct (G r Hr) as [G1 G2].
    destruct (Z.eqb_spec (Interest.id r) (Interest.id e1)) as [E1|N1].
    - rewrite (G1 E1). rewrite Own1. cbn [andb Interest.id Interest.set_is_paid
                                            Interest.user_id].
      replace (Interest.id e1 =? Interest.id e2) with false
        by (symmetry; now apply Z.eqb_neq).
      cbn [andb]. split; [reflexivity|]. intros E. cbn in E. congruence.
    - cbn [andb]. destruct (Z.eqb_spec (Interest.id r) (Interest.id e2)) as [E2|N2].
      + rewrite (G2 E2), Own2. cbn [andb]. split; [|reflexivity].
        intros E. cbn in E. congruence.
      + cbn [andb]. split; intros E; congruence. }
  exists (Interest.set_is_paid true e1), (Interest.set_interest_amount (c # 100)%Q e2).
  eexists.
  split; [exact M1|]. split; [exact M2|]. split; [reflexivity|].
  split; [reflexivity|]. split; [reflexivity|]. split; [reflexivity|].
  split; [reflexivity|].
  split; [exact Paid2|]. split; [reflexivity|].
  split; [cbn; rewrite Hc; apply cents_half_double|].
  split; [intros e He; apply (U e He)|]. split; [intros e He; apply (U e He)|].
  split; [reflexivity|].
  cbn [Payment.applied_to_interest Payment.applied_to_principal].
  split; [|reflexivity].
  match goal with
  | |- (round2 ?x == _)%Q =>
      assert (Eapp : (x == payment_amount)%Q)
        by (rewrite Hpay', Ha, Qplus_0_l; apply cents_plus);
      rewrite (round2_cents x pz)
  end.
  - symmetry. exact Hcents.
  - rewrite Eapp. exact Hcents.
Qed.

Lemma waterfall_oldest_first_witness :
  exists e1' e2' p,
    In e1' (loan_interest_history
              (snd (process_payment (Some Sample.alice) Sample.ledger2 1 300
                                    (mkdate 2024 Mar 20))))
    /\ In e2' (loan_interest_history
                 (snd (process_payment (Some Sample.alice) Sample.ledger2 1 300
                                       (mkdate 2024 Mar 20))))
    /\ e1' = Interest.set_is_paid true Sample.entry1
    /\ Interest.is_paid e2' = false
    /\ (Interest.interest_amount e2' == 100)%Q
    /\ payments_new (snd (process_payment (Some Sample.alice) Sample.ledger2 1 300
                                          (mkdate 2024 Mar 20))) = [p]
    /\ (Payment.applied_to_principal p == 0)%Q.
Proof.
  destruct (waterfall_oldest_first Sample.alice Sample.ledger2 1 300 (mkdate 2024 Mar 20)
              Sample.entry1 Sample.entry2)
    as (e1' & e2' & p & H1 & H2 & E1 & _ & _ & _ & _ & Hpaid & _ & Hhalf & _ & _ & Hp
        & _ & Hprin).
  - exists Sample.loan1. repeat split. now left.
  - repeat constructor; simpl; intuition discriminate.
  - apply perm_swap.
  - reflexivity.
  - exists 20000. reflexivity.
  - exists 30000. reflexivity.
  - reflexivity.
  - exists e1', e2', p. repeat split; try assumption.
    rewrite Hhalf. reflexivity.
Defined.

(** C2, on a ledger the refresh has walked. On 6 March 2024 the loan of
    R500 has two unpaid interest entries of R200: the one of 5 February,
    stored with the loan under its owner's id, and the one of 5 March,
    inserted by the accrual pass, which gives it no user id. The owner
    pays A1 + A2/2 = R300: the entry of 5 February is marked paid, the
    entry of 5 March is not read and stays unpaid at R200, and the other
    R100 is applied to the principal, which falls to R400. *)
Theorem waterfall_skips_accrued_entry :
  loan_interest_history Demo.accrued_ledger = [Sample.entry1; Demo.accrued_entry]
  /\ date_ltb (Interest.due_date Sample.entry1) (Interest.due_date Demo.accrued_entry) = true
  /\ Interest.is_paid Sample.entry1 = false
  /\ Interest.is_paid Demo.accrued_entry = false
  /\ Interest.user_id Demo.accrued_entry = None
  /\ (300 == Interest.interest_amount Sample.entry1
             + (1 # 2) * Interest.interest_amount Demo.accrued_entry)%Q
  /\ fst (process_payment (Some Sample.alice) Demo.accrued_ledger 1 300 (mkdate 2024 Mar 10))
     = (true, "Payment processed successfully"%string)
  /\ loan_interest_history
       (snd (process_payment (Some Sample.alice) Demo.accrued_ledger 1 300
                             (mkdate 2024 Mar 10)))
     = [Interest.set_is_paid true Sample.entry1; Demo.accrued_entry]
  /\ (Interest.interest_amount Demo.accrued_entry == 200)%Q
  /\ map (fun p => (Payment.applied_to_interest p, Payment.applied_to_principal p))
         (payments_new
            (snd (process_payment (Some Sample.alice) Demo.accrued_ledger 1 300
                                  (mkdate 2024 Mar 10))))
     = [(200, 10000 # 100)%Q]
  /\ map Loan.current_principal
         (loans_new
            (snd (process_payment (Some Sample.alice) Demo.accrued_ledger 1 300
                                  (mkdate 2024 Mar 10))))
     = [(40000 # 100)%Q].
Proof. repeat split. Qed.

(** ** What the accrual pass persists *)

Lemma advance_add_one_month (n : nat) (d : date) :
  advance n (add_one_month d) = add_one_month (advance n d).
Proof. induction n as [|n IH]; [reflexivity|]. cbn [advance]. now rewrite IH. Qed.

(** The walk ends on the first of the dates d, d + 1 month, ... that is
    not before today. *)
Lemma accrual_walk_advance fuel today loan_id principal d history :
  month_index today - month_index d + 1 <= Z.of_nat fuel ->
  exists n,
    fst (accrual_walk fuel today loan_id principal d history) = advance n d
    /\ date_ltb (advance n d) today = false
    /\ forall m, (m < n)%nat -> date_ltb (advance m d) today = true.
Proof.
  revert d history. induction fuel as [|fuel IH]; intros d history Hfuel.
  - exists O. cbn [accrual_walk fst advance].
    assert (E : date_ltb d today = false).
    { destruct (date_ltb d today) eqn:E; [|reflexivity].
      apply date_ltb_month_index in E. simpl in Hfuel. lia. }
    split; [reflexivity|]. split; [exact E|]. intros m Hm. lia.
  - cbn [accrual_walk]. destruct (date_ltb d today) eqn:E.
    + destruct (IH (add_one_month d)
                   (match filter (fun e => (Interest.loan_id e =? loan_id)
                                           && date_eqb (Interest.due_date e) d) history with
                    | [] => history ++
                            [Interest.mk (fresh_id (map Interest.id history)) None loan_id d
                                         (calculate_interest principal) principal today false]
                    | _ :: _ => history
                    end)) as (n & Hn & Hstop & Hbefore).
      { rewrite month_index_add_one_month. lia. }
      exists (S n). rewrite Hn. cbn [advance]. rewrite <- !advance_add_one_month.
      split; [reflexivity|]. split; [exact Hstop|].
      intros [|m] Hm; [exact E|].
      cbn [advance]. rewrite <- advance_add_one_month. apply Hbefore. lia.
    + exists O. cbn [fst advance]. split; [reflexivity|]. split; [exact E|].
      intros m Hm. lia.
Qed.

Lemma walked_due_date_advance today start :
  exists n,
    walked_due_date today start = advance n start
    /\ date_ltb (advance n start) today = false
    /\ forall m, (m < n)%nat -> date_ltb (advance m start) today = true.
Proof.
  unfold walked_due_date. apply accrual_walk_advance. unfold walk_fuel. lia.
Qed.

Lemma NoDup_loan_id_inj (rows : list Loan.t) (x y : Loan.t) :
  NoDup (map Loan.id rows) -> In x rows -> In y rows ->
  Loan.id x = Loan.id y -> x = y.
Proof.
  induction rows as [|r rows IH]; intros ND Hx Hy E; [contradiction|].
  cbn [map] in ND. apply NoDup_cons_iff in ND. destruct ND as [Hr ND].
  destruct Hx as [->|Hx], Hy as [->|Hy]; auto.
  - exfalso. apply Hr. rewrite E. now apply in_map.
  - exfalso. apply Hr. rewrite <- E. now apply in_map.
Qed.

Lemma NoDup_loan_id_filter (P : Loan.t -> bool) (rows : list Loan.t) :
  NoDup (map Loan.id rows) -> NoDup (map Loan.id (filter P rows)).
Proof.
  induction rows as [|r rows IH]; intros ND; [exact ND|].
  cbn [map] in ND. apply NoDup_cons_iff in ND. destruct ND as [Hr ND].
  cbn [filter]. destruct (P r); [|now apply IH].
  cbn [map]. apply NoDup_cons; [|now apply IH].
  intros Hin. apply Hr. apply in_map_iff in Hin. destruct Hin as (x & E & Hx).
  rewrite <- E. apply in_map. apply filter_In in Hx. tauto.
Qed.

(** With distinct ids a row is rewritten by the pass over the fetched
    loan of its id only. *)
Lemma touches_unique today ks k r start :
  NoDup (map Loan.id ks) -> In k ks -> Loan.id r = Loan.id k ->
  Loan.current_due_date k = Some start ->
  touches today ks r
  = Loan.set_due_date_and_status (walked_due_date today start) Overdue r.
Proof.
  unfold touches. revert r. induction ks as [|a ks IH]; intros r ND Hin Hid Hd; [contradiction|].
  cbn [map] in ND. apply NoDup_cons_iff in ND. destruct ND as [Ha ND].
  cbn [fold_left]. destruct Hin as [->|Hin].
  - unfold touch at 2. rewrite Hd.
    replace (Loan.id r =? Loan.id k) with true by (symmetry; now apply Z.eqb_eq).
    apply (touches_untouched today). intros k' start' Hk' _ E. apply Ha.
    cbn in E. rewrite <- Hid, <- E. now apply in_map.
  - assert (E : touch today a r = r).
    { unfold touch. destruct (Loan.current_due_date a); [|reflexivity].
      replace (Loan.id r =? Loan.id a) with false; [reflexivity|].
      symmetry. apply Z.eqb_neq. intros E. apply Ha. rewrite <- E, Hid. now apply in_map. }
    rewrite E. now apply IH.
Qed.

(** For a loan that is not Paid and has a due date, ids being distinct,
    the pass stores the date the walk ended on, which is the first of
    start, start + 1 month, ... not before today, and the status
    Overdue, whether the walk advanced or not. *)
Lemma accrual_persists_walked_due_date today st l start :
  NoDup (map Loan.id (loans_new st)) ->
  In l (loans_new st) -> Loan.status l <> Paid ->
  Loan.current_due_date l = Some start ->
  In (Loan.set_due_date_and_status (walked_due_date today start) Overdue l)
     (loans_new (check_and_add_overdue_interest today st)).
Proof.
  intros ND Hl Hs Hd. unfold check_and_add_overdue_interest.
  rewrite loans_new_accrue_loans.
  set (ks := filter _ (loans_new st)).
  apply in_map_iff. exists l. split; [|exact Hl].
  apply (touches_unique today ks l l start); try easy.
  - now apply NoDup_loan_id_filter.
  - apply filter_In. split; [exact Hl|]. destruct (Loan.status l); try reflexivity.
    congruence.
Qed.

(** ** The whole refresh twice on the same day *)

Section Refresh.
Variables (today : date) (session : option UserId).

Lemma refresh_loans_tables ks st :
  loan_interest_history (fold_left (refresh_loan today session) ks st)
  = loan_interest_history st
  /\ payments_new (fold_left (refresh_loan today session) ks st) = payments_new st.
Proof.
  revert st. induction ks as [|k ks IH]; intros st; [split; reflexivity|].
  cbn [fold_left]. destruct (IH (refresh_loan today session st k)) as [H1 H2].
  rewrite H1, H2. split; reflexivity.
Qed.

(** With distinct ids the status pass gives every row the status computed
    for it in the store the pass started from, and nothing else changes. *)
Lemma refresh_all_resolved st :
  NoDup (map Loan.id (loans_new st)) ->
  refresh_all today session st
  = mkStore (map (resolved today session st) (loans_new st))
            (loan_interest_history st) (payments_new st).
Proof.
  intros ND. unfold refresh_all.
  destruct (refresh_loans_tables (loans_new st) st) as [H1 H2].
  pose proof (refresh_loans today session st (loans_new st) st eq_refl eq_refl) as H0.
  destruct (fold_left _ _ _) as [loans history payments].
  cbn [loans_new loan_interest_history payments_new] in *. subst. f_equal.
  apply map_ext_in. intros r Hr.
  now rewrite (retags_unique today session st (loans_new st) r r ND Hr).
Qed.

Lemma resolved_status_blind st st' r :
  map (Loan.set_status Paid) (loans_new st) = map (Loan.set_status Paid) (loans_new st') ->
  loan_interest_history st = loan_interest_history st' ->
  resolved today session st r = resolved today session st' (Loan.set_status Paid r).
Proof.
  intros EL EH. unfold resolved.
  now rewrite (calculate_total_owed_status_blind online session st st' _ EL EH).
Qed.

(** Two stores that differ in the status column only are refreshed to the
    same store. *)
Lemma refresh_all_status_blind st st' :
  NoDup (map Loan.id (loans_new st)) -> NoDup (map Loan.id (loans_new st')) ->
  map (Loan.set_status Paid) (loans_new st) = map (Loan.set_status Paid) (loans_new st') ->
  loan_interest_history st = loan_interest_history st' ->
  payments_new st = payments_new st' ->
  refresh_all today session st = refresh_all today session st'.
Proof.
  intros ND ND' EL EH EP. rewrite !refresh_all_resolved by assumption.
  rewrite EH, EP. f_equal.
  transitivity (map (resolved today session st') (map (Loan.set_status Paid) (loans_new st))).
  - rewrite map_map. apply map_ext. intros r. now apply resolved_status_blind.
  - rewrite EL, map_map. apply map_ext. intros r. symmetry.
    now apply resolved_status_blind.
Qed.

(** A walk-free accrual pass changes statuses only. *)
Lemma touches_status_only ks r :
  (forall k start, In k ks -> Loan.current_due_date k = Some start ->
                   Loan.id k = Loan.id r ->
                   Loan.current_due_date r = Some start /\ date_ltb start today = false) ->
  Loan.set_status Paid (touches today ks r) = Loan.set_status Paid r.
Proof.
  unfold touches. revert r. induction ks as [|k ks IH]; intros r H; [reflexivity|].
  cbn [fold_left].
  assert (E : Loan.set_status Paid (touch today k r) = Loan.set_status Paid r
              /\ Loan.id (touch today k r) = Loan.id r
              /\ Loan.current_due_date (touch today k r) = Loan.current_due_date r).
  { unfold touch. destruct (Loan.current_due_date k) as [start|] eqn:Ed; [|now repeat split].
    destruct (Z.eqb_spec (Loan.id r) (Loan.id k)) as [Eid|]; [|now repeat split].
    destruct (H k start (or_introl eq_refl) Ed (eq_sym Eid)) as [Hr Hnot].
    rewrite (walked_due_date_stop today start Hnot).
    unfold Loan.set_status, Loan.set_due_date_and_status. cbn. rewrite Hr.
    now repeat split. }
  destruct E as (E1 & E2 & E3). rewrite <- E1. apply IH.
  intros k' start Hk' Hd Hid. rewrite E2 in Hid. rewrite E3.
  apply (H k' start); [now right|exact Hd|exact Hid].
Qed.

Lemma accrue_loans_tables ks st :
  (forall k start, In k ks -> Loan.current_due_date k = Some start ->
                   date_ltb start today = false) ->
  loan_interest_history (fold_left (accrue_loan today) ks st) = loan_interest_history st
  /\ payments_new (fold_left (accrue_loan today) ks st) = payments_new st.
Proof.
  revert st. induction ks as [|k ks IH]; intros st H; [split; reflexivity|].
  cbn [fold_left].
  destruct (IH (accrue_loan today st k)) as [H1 H2].
  { intros k' start Hk'. apply H. now right. }
  rewrite H1, H2. unfold accrue_loan.
  destruct (Loan.current_due_date k) as [start|] eqn:Ed; [|split; reflexivity].
  rewrite accrual_walk_stop by (apply (H k start); [now left|exact Ed]).
  split; reflexivity.
Qed.

(** When the first refresh leaves no loan Overdue, ids being distinct, a
    second refresh on the same day returns the same store. *)
Lemma update_loan_statuses_idempotent st :
  NoDup (map Loan.id (loans_new st)) ->
  (forall l, In l (loans_new (update_loan_statuses today session st)) ->
             Loan.status l <> Overdue) ->
  update_loan_statuses today session (update_loan_statuses today session st)
  = update_loan_statuses today session st.
Proof.
  intros ND Hno.
  change (update_loan_statuses today session st)
    with (refresh_all today session (check_and_add_overdue_interest today st)) in *.
  set (s1 := check_and_add_overdue_interest today st) in *.
  assert (ND1 : NoDup (map Loan.id (loans_new s1)))
    by (unfold s1; now rewrite accrual_keeps_ids).
  set (s2 := refresh_all today session s1) in *.
  assert (E2 : s2 = mkStore (map (resolved today session s1) (loans_new s1))
                            (loan_interest_history s1) (payments_new s1))
    by (now apply refresh_all_resolved).
  assert (EL2 : map (Loan.set_status Paid) (loans_new s2)
                = map (Loan.set_status Paid) (loans_new s1)).
  { rewrite E2. cbn [loans_new]. rewrite map_map. now apply map_ext. }
  assert (ND2 : NoDup (map Loan.id (loans_new s2))).
  { replace (map Loan.id (loans_new s2)) with (map Loan.id (loans_new s1)); [exact ND1|].
    rewrite E2. cbn [loans_new]. rewrite map_map. now apply map_ext. }
  (* after the first refresh no loan that is not Paid has a due date in the past *)
  assert (Hset : forall l start, In l (loans_new s2) -> Loan.status l <> Paid ->
                   Loan.current_due_date l = Some start -> date_ltb start today = false).
  { intros l start Hl Hs Hd. pose proof (Hno l Hl) as Hov.
    rewrite E2 in Hl. cbn [loans_new] in Hl. apply in_map_iff in Hl.
    destruct Hl as (r & <- & Hr). unfold resolved in Hs, Hov, Hd.
    cbn [Loan.status Loan.set_status Loan.current_due_date] in Hs, Hov, Hd.
    unfold resolve_status in Hs, Hov. rewrite Hd in Hs, Hov.
    destruct (Qle_bool _ 0); [congruence|].
    destruct (date_ltb start today); [congruence|reflexivity]. }
  change (update_loan_statuses today session s2)
    with (refresh_all today session (check_and_add_overdue_interest today s2)).
  transitivity (refresh_all today session s2).
  - set (ks := filter (fun l => negb (status_eqb (Loan.status l) Paid)) (loans_new s2)).
    assert (Hks : forall k, In k ks -> In k (loans_new s2) /\ Loan.status k <> Paid).
    { intros k Hk. apply filter_In in Hk. destruct Hk as [Hk Hp]. split; [exact Hk|].
      intros E. rewrite E in Hp. discriminate. }
    destruct (accrue_loans_tables ks s2) as [EH EP].
    { intros k start Hk Hd. destruct (Hks k Hk) as [Hin Hs]. now apply (Hset k start). }
    apply refresh_all_status_blind.
    + now rewrite accrual_keeps_ids.
    + exact ND2.
    + unfold check_and_add_overdue_interest. rewrite loans_new_accrue_loans.
      fold ks. rewrite map_map. apply map_ext_in. intros r Hr.
      apply touches_status_only. intros k start Hk Hd Hid.
      destruct (Hks k Hk) as [Hin Hs].
      assert (k = r) as -> by (now apply (NoDup_loan_id_inj (loans_new s2))).
      split; [exact Hd|]. now apply (Hset r start).
    + exact EH.
    + exact EP.
  - unfold s2 at 2. apply refresh_all_status_blind; try assumption.
    + rewrite E2. reflexivity.
    + rewrite E2. reflexivity.
Qed.
End Refresh.


(** ** The recorded payment *)

(** Whatever [process_payment] applies to the principal it also records
    as the remaining amount: the two columns of the inserted row are
    equal whenever the payment reaches the principal. *)
Lemma process_payment_remaining_is_principal
    session st loan_id payment_amount payment_date :
  fst (fst (process_payment session st loan_id payment_amount payment_date)) = true ->
  exists p,
    payments_new (snd (process_payment session st loan_id payment_amount payment_date))
    = payments_new st ++ [p]
    /\ Payment.amount p = payment_amount
    /\ ((0 < Payment.remaining_amount p)%Q ->
        Payment.applied_to_principal p = Payment.remaining_amount p)
    /\ ((Payment.remaining_amount p <= 0)%Q -> Payment.applied_to_principal p = 0%Q).
Proof.
  unfold process_payment.
  destruct session as [user_id|]; [|discriminate].
  destruct (filter _ (loans_new st)) as [|loan rest]; [discriminate|].
  destruct (pay_interest _ _ _ _ _) as [[remaining applied] history].
  intros _. cbn [snd payments_new]. eexists. split; [reflexivity|].
  cbn [Payment.amount Payment.remaining_amount Payment.applied_to_principal].
  split; [reflexivity|]. split; intros H.
  - apply Qlt_bool_iff in H. now rewrite H.
  - destruct (Qlt_bool 0 remaining) eqn:E; [|reflexivity].
    apply Qlt_bool_iff in E. exfalso. exact (Qlt_not_le _ _ E H).
Qed.

(** * Further properties of the ledger functions *)

(** ** Due dates *)

Lemma month_index_lt_date_ltb (a b : date) :
  month_index a < month_index b -> date_ltb a b = true.
Proof.
  unfold month_index, date_ltb. intros H.
  pose proof (month_number_range (month a)). pose proof (month_number_range (month b)).
  destruct (Z.ltb_spec (year a) (year b)) as [Hy|Hy]; [reflexivity|].
  assert (Ey : year a = year b) by lia.
  cbn [orb]. rewrite Ey, Z.eqb_refl. cbn [andb].
  replace (month_number (month a) <? month_number (month b)) with true; [reflexivity|].
  symmetry. apply Z.ltb_lt. lia.
Qed.

Lemma date_ltb_trans (a b c : date) :
  date_ltb a b = true -> date_ltb b c = true -> date_ltb a c = true.
Proof.
  unfold date_ltb. intros H1 H2.
  repeat (rewrite ?orb_true_iff, ?andb_true_iff, ?Z.ltb_lt, ?Z.eqb_eq in H1).
  repeat (rewrite ?orb_true_iff, ?andb_true_iff, ?Z.ltb_lt, ?Z.eqb_eq in H2).
  repeat (rewrite ?orb_true_iff, ?andb_true_iff, ?Z.ltb_lt, ?Z.eqb_eq).
  lia.
Qed.

Lemma date_eqb_eq (a b : date) : date_eqb a b = true <-> a = b.
Proof.
  unfold date_eqb. rewrite !andb_true_iff, !Z.eqb_eq. split.
  - intros [[Hy Hm] Hd]. destruct a as [ya ma da], b as [yb mb db]. cbn in *.
    subst. f_equal.
    rewrite <- (month_of_number_number ma), <- (month_of_number_number mb).
    now rewrite Hm.
  - intros ->. repeat split.
Qed.

Lemma date_eqb_refl (a : date) : date_eqb a a = true.
Proof. now apply date_eqb_eq. Qed.

(** X1: advancing by a month keeps a date valid: from any date whose day
    is at least 1 the date reached has a day between 1 and the length of
    its month, and so has every date of a repeated advancement. *)
Theorem advance_valid (d : date) (n : nat) :
  valid_date d -> valid_date (advance n d) /\ valid_date (add_one_month d).
Proof.
  intros [Hlo Hhi].
  assert (Step : forall x, 1 <= day x -> valid_date (add_one_month x)).
  { intros x Hx. unfold valid_date. rewrite day_add_one_month.
    pose proof (days_in_month_range (year (add_one_month x)) (month (add_one_month x))).
    lia. }
  split; [|now apply Step].
  destruct n as [|n]; [now split|].
  cbn [advance]. apply Step.
  clear Hhi. induction n as [|n IH]; [exact Hlo|].
  cbn [advance]. rewrite day_add_one_month.
  pose proof (days_in_month_range (year (add_one_month (advance n d)))
                                  (month (add_one_month (advance n d)))).
  lia.
Qed.

Lemma advance_valid_witness :
  valid_date (advance 13 (mkdate 2023 Jan 31))
  /\ valid_date (add_one_month (mkdate 2023 Jan 31)).
Proof.
  apply (advance_valid (mkdate 2023 Jan 31) 13). unfold valid_date. simpl. lia.
Defined.

(** X2: [get_next_due_date] returns nothing for a missing due date. For
    a date of a year up to [MAXYEAR] it raises exactly when the date lies
    in December of [MAXYEAR]; otherwise it returns a date strictly
    after the given one, in the month that follows it and again within
    [MAXYEAR]. *)
Theorem get_next_due_date_later :
  get_next_due_date_call None = Returns None
  /\ forall d, year d <= MAXYEAR ->
       (year d = MAXYEAR /\ month d = Dec ->
        exists error, get_next_due_date_call (Some d) = Raises error)
       /\ (~ (year d = MAXYEAR /\ month d = Dec) ->
           exists d',
             get_next_due_date_call (Some d) = Returns (Some d')
             /\ get_next_due_date (Some d) = Some d'
             /\ date_ltb d d' = true
             /\ date_ltb d' d = false
             /\ month_index d' = month_index d + 1
             /\ year d' <= MAXYEAR).
Proof.
  split; [reflexivity|]. intros d Hy.
  assert (Ey : year (add_one_month d)
               = if month_number (month d) + 1 >? 12 then year d + 1 else year d)
    by reflexivity.
  pose proof (month_number_range (month d)) as Hm.
  split.
  - intros [Hmax Hdec]. eexists. unfold get_next_due_date_call.
    replace (year (add_one_month d) >? MAXYEAR) with true; [reflexivity|].
    symmetry. apply Z.gtb_lt. rewrite Ey, Hdec, Hmax. reflexivity.
  - intros Hnot. exists (add_one_month d).
    assert (Hin : year (add_one_month d) <= MAXYEAR).
    { rewrite Ey. destruct (month_number (month d) + 1 >? 12) eqn:C; [|exact Hy].
      apply Z.gtb_lt in C.
      assert (Hd : month d = Dec) by (destruct (month d); cbn in C; try lia; reflexivity).
      assert (year d <> MAXYEAR) by tauto. lia. }
    pose proof (month_index_add_one_month d) as H.
    assert (L : date_ltb d (add_one_month d) = true)
      by (apply month_index_lt_date_ltb; lia).
    unfold get_next_due_date_call.
    replace (year (add_one_month d) >? MAXYEAR) with false
      by (symmetry; rewrite Z.gtb_ltb; apply Z.ltb_ge; exact Hin).
    repeat split; try assumption. now apply date_ltb_asym.
Qed.

Lemma get_next_due_date_later_witness :
  (exists error, get_next_due_date_call (Some (mkdate 9999 Dec 31)) = Raises error)
  /\ (exists d',
         get_next_due_date_call (Some (mkdate 2023 Jan 31)) = Returns (Some d')
         /\ date_ltb (mkdate 2023 Jan 31) d' = true).
Proof.
  split.
  - apply (proj2 get_next_due_date_later (mkdate 9999 Dec 31)).
    + unfold MAXYEAR. simpl. lia.
    + split; reflexivity.
  - destruct (proj2 get_next_due_date_later (mkdate 2023 Jan 31)) as [_ H].
    + unfold MAXYEAR. simpl. lia.
    + destruct H as (d' & E & _ & L & _).
      * intros [Hy _]. discriminate Hy.
      * exists d'. split; [exact E|exact L].
Defined.

(** ** Interest *)

Lemma round_half_even_near (y : Q) :
  (inject_Z (round_half_even y) - y <= 1 # 2)%Q
  /\ (y - inject_Z (round_half_even y) <= 1 # 2)%Q.
Proof.
  unfold round_half_even.
  pose proof (Qfloor_le y) as Hlo. pose proof (Qlt_floor y) as Hhi.
  rewrite inject_Z_plus in Hhi. change (inject_Z 1) with 1%Q in Hhi.
  destruct (Qcompare (y - inject_Z (Qfloor y)) (1 # 2)) eqn:C.
  - apply Qeq_alt in C. destruct (Z.even (Qfloor y)).
    + split; lra.
    + rewrite inject_Z_plus. change (inject_Z 1) with 1%Q. split; lra.
  - apply Qlt_alt in C. split; lra.
  - apply Qgt_alt in C. rewrite inject_Z_plus. change (inject_Z 1) with 1%Q. split; lra.
Qed.

Lemma round_half_even_nonneg (y : Q) : (0 <= y)%Q -> 0 <= round_half_even y.
Proof.
  intros H. unfold round_half_even.
  assert (F : 0 <= Qfloor y).
  { change 0 with (Qfloor 0). now apply Qfloor_resp_le. }
  destruct (Qcompare _ _); [destruct (Z.even _)| |]; lia.
Qed.

Lemma Qmake_100 (c : Z) : (c # 100 == inject_Z c * (1 # 100))%Q.
Proof. unfold Qeq, Qmult, inject_Z. cbn [Qnum Qden]. lia. Qed.

(** Rounding to two places moves an amount by half a cent at most. *)
Lemma round2_near (x : Q) :
  (round2 x - x <= 1 # 200)%Q /\ (x - round2 x <= 1 # 200)%Q.
Proof.
  unfold round2. destruct (round_half_even_near (x * 100)) as [H1 H2].
  rewrite Qmake_100. split; lra.
Qed.

Lemma round2_nonneg (x : Q) : (0 <= x)%Q -> (0 <= round2 x)%Q.
Proof.
  intros H. unfold round2.
  assert (R : 0 <= round_half_even (x * 100)) by (apply round_half_even_nonneg; lra).
  unfold Qle. cbn [Qnum Qden]. lia.
Qed.

(** X3: the interest charged on a principal that is not negative is not
    negative, is a whole number of cents and lies within half a cent of
    40% of the principal. *)
Theorem calculate_interest_bounds (principal : Q) :
  (0 <= principal)%Q ->
  (0 <= calculate_interest principal)%Q
  /\ is_cents (calculate_interest principal)
  /\ (calculate_interest principal - (2 # 5) * principal <= 1 # 200)%Q
  /\ ((2 # 5) * principal - calculate_interest principal <= 1 # 200)%Q.
Proof.
  intros H. unfold calculate_interest, INTEREST_RATE.
  split; [apply round2_nonneg; lra|].
  split; [apply round2_is_cents|].
  destruct (round2_near (principal * (40 # 100))) as [H1 H2].
  split; lra.
Qed.

Lemma calculate_interest_bounds_witness :
  (0 <= calculate_interest (33333 # 100))%Q
  /\ is_cents (calculate_interest (33333 # 100))
  /\ (calculate_interest (33333 # 100) - (2 # 5) * (33333 # 100) <= 1 # 200)%Q
  /\ ((2 # 5) * (33333 # 100) - calculate_interest (33333 # 100) <= 1 # 200)%Q.
Proof.
  apply (calculate_interest_bounds (33333 # 100)). unfold Qle. simpl. lia.
Defined.

(** ** What the accrual pass adds *)

(** The rows a walk for the loan [loan_id] with principal [principal] may
    append. *)
Lemma accrual_walk_appends fuel today loan_id principal d history :
  exists added,
    snd (accrual_walk fuel today loan_id principal d history) = history ++ added
    /\ Forall (fun e => Interest.loan_id e = loan_id
                        /\ Interest.user_id e = None
                        /\ Interest.is_paid e = false
                        /\ Interest.added_date e = today
                        /\ Interest.interest_amount e = calculate_interest principal
                        /\ Interest.principal_at_time e = principal
                        /\ date_ltb (Interest.due_date e) today = true) added.
Proof.
  revert d history. induction fuel as [|fuel IH]; intros d history.
  - exists []. cbn. now rewrite app_nil_r.
  - cbn [accrual_walk]. destruct (date_ltb d today) eqn:E.
    + destruct (filter _ history) as [|x xs].
      * destruct (IH (add_one_month d)
                     (history ++
                      [Interest.mk (fresh_id (map Interest.id history)) None loan_id d
                                   (calculate_interest principal) principal today false]))
          as (added & -> & Hall).
        eexists. rewrite <- app_assoc. split; [reflexivity|].
        cbn [app]. constructor; [|exact Hall]. cbn. now repeat split.
      * apply IH.
    + exists []. cbn. now rewrite app_nil_r.
Qed.

Lemma accrue_loan_appends today st k :
  exists added,
    loan_interest_history (accrue_loan today st k) = loan_interest_history st ++ added
    /\ payments_new (accrue_loan today st k) = payments_new st
    /\ Forall (fun e => Interest.loan_id e = Loan.id k
                        /\ Interest.user_id e = None
                        /\ Interest.is_paid e = false
                        /\ Interest.added_date e = today
                        /\ Interest.interest_amount e
                           = calculate_interest (Loan.current_principal k)
                        /\ Interest.principal_at_time e = Loan.current_principal k
                        /\ date_ltb (Interest.due_date e) today = true) added.
Proof.
  unfold accrue_loan. destruct (Loan.current_due_date k) as [start|].
  - destruct (accrual_walk_appends (walk_fuel today start) today (Loan.id k)
                (Loan.current_principal k) start (loan_interest_history st))
      as (added & E & Hall).
    destruct (accrual_walk _ _ _ _ _ _) as [d h]. cbn [snd] in E. subst h.
    exists added. now repeat split.
  - exists []. rewrite app_nil_r. now repeat split.
Qed.

Lemma accrue_loans_appends today ks st :
  exists added,
    loan_interest_history (fold_left (accrue_loan today) ks st)
    = loan_interest_history st ++ added
    /\ payments_new (fold_left (accrue_loan today) ks st) = payments_new st
    /\ Forall (fun e => exists k, In k ks
                        /\ Interest.loan_id e = Loan.id k
                        /\ Interest.user_id e = None
                        /\ Interest.is_paid e = false
                        /\ Interest.added_date e = today
                        /\ Interest.interest_amount e
                           = calculate_interest (Loan.current_principal k)
                        /\ Interest.principal_at_time e = Loan.current_principal k
                        /\ date_ltb (Interest.due_date e) today = true) added.
Proof.
  revert st. induction ks as [|k ks IH]; intros st.
  - exists []. rewrite app_nil_r. now repeat split.
  - cbn [fold_left].
    destruct (accrue_loan_appends today st k) as (a1 & E1 & P1 & H1).
    destruct (IH (accrue_loan today st k)) as (a2 & E2 & P2 & H2).
    exists (a1 ++ a2). rewrite E2, E1, P2, P1, app_assoc.
    split; [reflexivity|]. split; [reflexivity|].
    apply Forall_app. split.
    + eapply Forall_impl; [|exact H1]. intros e He. exists k. split; [now left|exact He].
    + eapply Forall_impl; [|exact H2]. intros e (k' & Hk' & He).
      exists k'. split; [now right|exact He].
Qed.

Lemma Forall2_map_self {A : Type} (R : A -> A -> Prop) (f : A -> A) (xs : list A) :
  (forall x, R x (f x)) -> Forall2 R xs (map f xs).
Proof. intros H. induction xs; cbn; constructor; auto. Qed.

Lemma touch_columns today k r :
  Loan.id (touch today k r) = Loan.id r
  /\ Loan.user_id (touch today k r) = Loan.user_id r
  /\ Loan.client_id (touch today k r) = Loan.client_id r
  /\ Loan.loan_date (touch today k r) = Loan.loan_date r
  /\ Loan.original_due_date (touch today k r) = Loan.original_due_date r
  /\ Loan.original_principal (touch today k r) = Loan.original_principal r
  /\ Loan.current_principal (touch today k r) = Loan.current_principal r.
Proof.
  unfold touch. destruct (Loan.current_due_date k); [|now repeat split].
  destruct (Loan.id r =? Loan.id k); now repeat split.
Qed.

Lemma touches_columns today ks r :
  touches today ks r
  = Loan.mk (Loan.id r) (Loan.user_id r) (Loan.client_id r) (Loan.loan_date r)
            (Loan.original_due_date r) (Loan.current_due_date (touches today ks r))
            (Loan.original_principal r) (Loan.current_principal r)
            (Loan.status (touches today ks r)).
Proof.
  unfold touches. revert r. induction ks as [|k ks IH]; intros r; [now destruct r|].
  cbn [fold_left]. rewrite (IH (touch today k r)) at 1.
  destruct (touch_columns today k r) as (E1 & E2 & E3 & E4 & E5 & E6 & E7).
  now rewrite E1, E2, E3, E4, E5, E6, E7.
Qed.

(** X4: the accrual pass only appends to the interest table and writes
    nothing but due dates and statuses. Every stored interest row stays
    in place; each appended row is unpaid, carries no owner, is dated
    today, belongs to a stored loan that is not Paid, holds 40% of that
    loan's principal and is for a due date before today; payments are
    untouched and every loan row keeps all its other columns. *)
Theorem accrual_only_appends today st :
  exists added,
    loan_interest_history (check_and_add_overdue_interest today st)
    = loan_interest_history st ++ added
    /\ Forall (fun e => Interest.user_id e = None
                        /\ Interest.is_paid e = false
                        /\ Interest.added_date e = today
                        /\ date_ltb (Interest.due_date e) today = true
                        /\ exists l, In l (loans_new st)
                             /\ Loan.status l <> Paid
                             /\ Interest.loan_id e = Loan.id l
                             /\ Interest.interest_amount e
                                = calculate_interest (Loan.current_principal l)
                             /\ Interest.principal_at_time e = Loan.current_principal l)
              added
    /\ payments_new (check_and_add_overdue_interest today st) = payments_new st
    /\ Forall2 (fun l l' =>
                  l' = Loan.mk (Loan.id l) (Loan.user_id l) (Loan.client_id l)
                               (Loan.loan_date l) (Loan.original_due_date l)
                               (Loan.current_due_date l') (Loan.original_principal l)
                               (Loan.current_principal l) (Loan.status l'))
               (loans_new st) (loans_new (check_and_add_overdue_interest today st)).
Proof.
  unfold check_and_add_overdue_interest.
  set (ks := filter _ (loans_new st)).
  destruct (accrue_loans_appends today ks st) as (added & E & P & H).
  exists added. split; [exact E|]. split; [|split; [exact P|]].
  - eapply Forall_impl; [|exact H].
    intros e (k & Hk & H1 & H2 & H3 & H4 & H5 & H6 & H7).
    apply filter_In in Hk. destruct Hk as [Hk Hs].
    repeat split; try assumption. exists k. repeat split; try assumption.
    intros Ep. rewrite Ep in Hs. discriminate.
  - rewrite loans_new_accrue_loans. apply Forall2_map_self.
    intros r. apply (touches_columns today ks r).
Qed.

(** ** Keys of the interest table under accrual *)

Lemma fresh_id_not_in (ids : list Z) : ~ In (fresh_id ids) ids.
Proof.
  assert (B : forall x, In x ids -> x <= fold_right Z.max 0 ids).
  { induction ids as [|a ids IH]; intros x Hx; [contradiction|].
    cbn [fold_right]. destruct Hx as [->|Hx]; [lia|].
    specialize (IH x Hx). lia. }
  intros H. apply B in H. unfold fresh_id in H. lia.
Qed.

Lemma NoDup_snoc {A : Type} (xs : list A) (x : A) :
  NoDup xs -> ~ In x xs -> NoDup (xs ++ [x]).
Proof.
  intros ND Hx. apply NoDup_app; [exact ND|repeat constructor; auto|].
  intros y Hy [<-|[]]. contradiction.
Qed.

Lemma accrual_walk_ids fuel today loan_id principal d history :
  NoDup (map Interest.id history) ->
  NoDup (map Interest.id (snd (accrual_walk fuel today loan_id principal d history))).
Proof.
  revert d history. induction fuel as [|fuel IH]; intros d history ND; [exact ND|].
  cbn [accrual_walk]. destruct (date_ltb d today); [|exact ND].
  destruct (filter _ history); [|now apply IH].
  apply IH. rewrite map_app. cbn [map Interest.id].
  apply NoDup_snoc; [exact ND|apply fresh_id_not_in].
Qed.

Lemma accrual_walk_due_dates fuel today loan_id principal d history :
  one_entry_per_due_date history ->
  one_entry_per_due_date (snd (accrual_walk fuel today loan_id principal d history)).
Proof.
  unfold one_entry_per_due_date.
  revert d history. induction fuel as [|fuel IH]; intros d history ND; [exact ND|].
  cbn [accrual_walk]. destruct (date_ltb d today); [|exact ND].
  destruct (filter _ history) as [|x xs] eqn:F; [|now apply IH].
  apply IH. rewrite map_app. cbn [map Interest.loan_id Interest.due_date].
  apply NoDup_snoc; [exact ND|].
  intros Hin. apply in_map_iff in Hin. destruct Hin as (e & Ee & He).
  injection Ee as E1 E2.
  assert (Hf : In e (filter (fun e => (Interest.loan_id e =? loan_id)
                                      && date_eqb (Interest.due_date e) d) history)).
  { apply filter_In. split; [exact He|].
    rewrite E1, E2, Z.eqb_refl, date_eqb_refl. reflexivity. }
  rewrite F in Hf. contradiction.
Qed.

Lemma accrue_loans_invariant (P : list Interest.t -> Prop) today ks st :
  (forall fuel loan_id principal d history,
      P history -> P (snd (accrual_walk fuel today loan_id principal d history))) ->
  P (loan_interest_history st) ->
  P (loan_interest_history (fold_left (accrue_loan today) ks st)).
Proof.
  intros Hwalk. revert st. induction ks as [|k ks IH]; intros st H; [exact H|].
  cbn [fold_left]. apply IH. unfold accrue_loan.
  destruct (Loan.current_due_date k) as [start|]; [|exact H].
  pose proof (Hwalk (walk_fuel today start) (Loan.id k) (Loan.current_principal k) start
                    (loan_interest_history st) H) as H'.
  destruct (accrual_walk _ _ _ _ _ _) as [d h]. exact H'.
Qed.

(** X5: the accrual pass keeps the interest table free of duplicates: if
    no two entries share loan and due date before the pass, none do
    after it, since an entry is inserted only for a due date that has
    none. *)
Theorem accrual_keeps_one_entry_per_due_date today st :
  one_entry_per_due_date (loan_interest_history st) ->
  one_entry_per_due_date
    (loan_interest_history (check_and_add_overdue_interest today st)).
Proof.
  intros H. unfold check_and_add_overdue_interest.
  apply (accrue_loans_invariant one_entry_per_due_date); [|exact H].
  intros. now apply accrual_walk_due_dates.
Qed.

Lemma accrual_keeps_one_entry_per_due_date_witness :
  one_entry_per_due_date
    (loan_interest_history
       (check_and_add_overdue_interest (mkdate 2024 Apr 6) Sample.shared_ledger)).
Proof.
  apply (accrual_keeps_one_entry_per_due_date (mkdate 2024 Apr 6) Sample.shared_ledger).
  unfold one_entry_per_due_date. repeat constructor; simpl; intuition discriminate.
Defined.

(** ** Which due dates the accrual pass covers *)

Lemma date_ltb_advance (m : nat) (d today : date) :
  date_ltb (advance m d) today = true -> date_ltb d today = true.
Proof.
  destruct m as [|m]; [trivial|]. intros H.
  apply (date_ltb_trans d (advance (S m) d) today); [|exact H].
  apply month_index_lt_date_ltb. rewrite month_index_advance. lia.
Qed.

(** After the walk every date start, start + 1 month, ... that is before
    today has an entry of the loan. *)
Lemma accrual_walk_covers fuel today loan_id principal d history m :
  month_index today - month_index d + 1 <= Z.of_nat fuel ->
  date_ltb (advance m d) today = true ->
  exists e, In e (snd (accrual_walk fuel today loan_id principal d history))
            /\ Interest.loan_id e = loan_id
            /\ Interest.due_date e = advance m d.
Proof.
  revert d history m. induction fuel as [|fuel IH]; intros d history m Hfuel Hm.
  - apply date_ltb_advance in Hm. apply date_ltb_month_index in Hm.
    simpl in Hfuel. lia.
  - cbn [accrual_walk]. rewrite (date_ltb_advance m d today Hm).
    set (history' := match filter _ history with [] => _ | _ :: _ => history end).
    destruct m as [|m].
    + (* the entry of [d] itself *)
      assert (Hd : exists e, In e history' /\ Interest.loan_id e = loan_id
                             /\ Interest.due_date e = d).
      { unfold history'.
        destruct (filter _ history) as [|x xs] eqn:F.
        - eexists. split; [apply in_or_app; right; now left|]. now split.
        - assert (Hx : In x (filter (fun e => (Interest.loan_id e =? loan_id)
                                              && date_eqb (Interest.due_date e) d)
                                    history)) by (rewrite F; now left).
          apply filter_In in Hx. destruct Hx as [Hx Hp].
          apply andb_true_iff in Hp. destruct Hp as [H1 H2].
          apply Z.eqb_eq in H1. apply date_eqb_eq in H2. now exists x. }
      destruct Hd as (e & He & H1 & H2).
      destruct (accrual_walk_appends fuel today loan_id principal (add_one_month d)
                                     history') as (added & -> & _).
      exists e. split; [apply in_or_app; now left|]. now split.
    + cbn [advance] in Hm |- *. rewrite <- advance_add_one_month in Hm |- *.
      apply IH; [|exact Hm]. rewrite month_index_add_one_month. lia.
Qed.

(** X6: after the accrual pass a loan that is not Paid has an interest
    entry for each of its due dates start, start + 1 month, ... that is
    before today. *)
Theorem accrual_covers_missed_due_dates today st l start m :
  In l (loans_new st) -> Loan.status l <> Paid ->
  Loan.current_due_date l = Some start ->
  date_ltb (advance m start) today = true ->
  exists e,
    In e (loan_interest_history (check_and_add_overdue_interest today st))
    /\ Interest.loan_id e = Loan.id l
    /\ Interest.due_date e = advance m start.
Proof.
  intros Hl Hs Hd Hm. unfold check_and_add_overdue_interest.
  set (ks := filter _ (loans_new st)).
  assert (Hk : In l ks).
  { apply filter_In. split; [exact Hl|]. destruct (Loan.status l); try reflexivity.
    congruence. }
  apply in_split in Hk. destruct Hk as (before & after & ->).
  rewrite fold_left_app. cbn [fold_left].
  set (s := fold_left (accrue_loan today) before st).
  destruct (accrue_loans_appends today after (accrue_loan today s l))
    as (added & -> & _ & _).
  unfold accrue_loan at 1. rewrite Hd.
  destruct (accrual_walk_covers (walk_fuel today start) today (Loan.id l)
              (Loan.current_principal l) start (loan_interest_history s) m)
    as (e & He & H1 & H2); [unfold walk_fuel; lia|exact Hm|].
  destruct (accrual_walk _ _ _ _ _ _) as [d h]. cbn [snd] in He.
  cbn [loan_interest_history].
  exists e. split; [apply in_or_app; now left|]. now split.
Qed.

Lemma accrual_covers_missed_due_dates_witness :
  exists e,
    In e (loan_interest_history
            (check_and_add_overdue_interest (mkdate 2024 Apr 6) Sample.ledger1))
    /\ Interest.loan_id e = 1
    /\ Interest.due_date e = mkdate 2024 Apr 5.
Proof.
  apply (accrual_covers_missed_due_dates (mkdate 2024 Apr 6) Sample.ledger1 Sample.loan1
                                         (mkdate 2024 Feb 5) 2).
  - now left.
  - discriminate.
  - reflexivity.
  - reflexivity.
Defined.

(** X7: for a loan that is not Paid and has a due date, ids being
    distinct, the accrual pass stores as the new due date the first of
    start, start + 1 month, start + 2 months, ... that is not before
    today, and every date before it in that sequence is before today. *)
Theorem accrual_stores_first_due_date_not_past today st l start :
  NoDup (map Loan.id (loans_new st)) ->
  In l (loans_new st) -> Loan.status l <> Paid ->
  Loan.current_due_date l = Some start ->
  exists n,
    In (Loan.set_due_date_and_status (advance n start) Overdue l)
       (loans_new (check_and_add_overdue_interest today st))
    /\ date_ltb (advance n start) today = false
    /\ forall m, (m < n)%nat -> date_ltb (advance m start) today = true.
Proof.
  intros ND Hl Hs Hd.
  destruct (walked_due_date_advance today start) as (n & E & Hstop & Hbefore).
  exists n. rewrite <- E. split; [|split; [now rewrite E|exact Hbefore]].
  now apply accrual_persists_walked_due_date.
Qed.

Lemma accrual_stores_first_due_date_not_past_witness :
  exists n,
    In (Loan.set_due_date_and_status (advance n (mkdate 2024 Feb 5)) Overdue Sample.loan1)
       (loans_new (check_and_add_overdue_interest (mkdate 2024 Apr 6) Sample.ledger1))
    /\ date_ltb (advance n (mkdate 2024 Feb 5)) (mkdate 2024 Apr 6) = false
    /\ forall m, (m < n)%nat ->
                 date_ltb (advance m (mkdate 2024 Feb 5)) (mkdate 2024 Apr 6) = true.
Proof.
  apply (accrual_stores_first_due_date_not_past (mkdate 2024 Apr 6) Sample.ledger1
                                                Sample.loan1 (mkdate 2024 Feb 5)).
  - repeat constructor. simpl. tauto.
  - now left.
  - discriminate.
  - reflexivity.
Defined.

(** ** Which payments are taken *)

Lemma this_loan_iff (user_id : UserId) (loan_id : Z) (l : Loan.t) :
  (Loan.id l =? loan_id) && owned_by user_id (Loan.user_id l) = true
  <-> Loan.id l = loan_id /\ Loan.user_id l = Some user_id.
Proof.
  unfold owned_by. rewrite andb_true_iff, Z.eqb_eq.
  destruct (Loan.user_id l) as [o|].
  - rewrite String.eqb_eq. split; intros [H1 H2]; split; congruence.
  - split; intros [H1 H2]; discriminate.
Qed.

(** With the user id in hand, the body of [process_payment] takes a
    payment exactly when the id is there and a loan row of the given id
    carries it. *)
Lemma process_payment_outcomes session st loan_id payment_amount payment_date :
  (fst (process_payment session st loan_id payment_amount payment_date)
   = (true, "Payment processed successfully"%string)
   /\ exists user_id l, session = Some user_id /\ In l (loans_new st)
                        /\ Loan.id l = loan_id /\ Loan.user_id l = Some user_id)
  \/ (process_payment session st loan_id payment_amount payment_date
      = ((false, "User not authenticated"%string), st)
      /\ session = None)
  \/ (process_payment session st loan_id payment_amount payment_date
      = ((false, "Loan not found or access denied"%string), st)
      /\ exists user_id, session = Some user_id
           /\ forall l, In l (loans_new st) -> Loan.id l = loan_id ->
                        Loan.user_id l <> Some user_id).
Proof.
  unfold process_payment. destruct session as [user_id|]; [|right; left; now split].
  destruct (filter _ (loans_new st)) as [|loan rest] eqn:F.
  - right. right. split; [reflexivity|]. exists user_id. split; [reflexivity|].
    intros l Hl Hid Hu.
    assert (Hin : In l (filter (fun l => (Loan.id l =? loan_id)
                                         && owned_by user_id (Loan.user_id l))
                               (loans_new st))).
    { apply filter_In. split; [exact Hl|]. now apply this_loan_iff. }
    rewrite F in Hin. contradiction.
  - left. destruct (pay_interest _ _ _ _ _) as [[remaining applied] history].
    split; [reflexivity|].
    assert (Hin : In loan (filter (fun l => (Loan.id l =? loan_id)
                                            && owned_by user_id (Loan.user_id l))
                                  (loans_new st))) by (rewrite F; now left).
    apply filter_In in Hin. destruct Hin as [Hin Hm]. apply this_loan_iff in Hm.
    exists user_id, loan. tauto.
Qed.

(** X8: [process_payment] takes a payment exactly when the session holds
    a user and a loan row of that id is owned by that user. When the
    session key is absent (or the user id is empty) it answers "User not
    authenticated"; when the key holds [None] the call of
    [get_current_user_id] raises and the answer is "Error processing
    payment: " followed by the text of the exception; for a loan that is
    missing or owned by somebody else the answer is "Loan not found or
    access denied". In all three cases the store is left as it was. *)
Theorem process_payment_refusal state st loan_id payment_amount payment_date :
  (fst (process_payment_call state st loan_id payment_amount payment_date)
   = (true, "Payment processed successfully"%string)
   /\ exists user_id l, state = Session user_id /\ user_id <> EmptyString
                        /\ In l (loans_new st)
                        /\ Loan.id l = loan_id /\ Loan.user_id l = Some user_id)
  \/ (process_payment_call state st loan_id payment_amount payment_date
      = ((false, "User not authenticated"%string), st)
      /\ (state = KeyAbsent \/ state = Session EmptyString))
  \/ (state = NoSession
      /\ exists detail,
           process_payment_call state st loan_id payment_amount payment_date
           = ((false, ("Error processing payment: " ++ detail)%string), st)
           /\ get_current_user_id state = Raises detail)
  \/ (process_payment_call state st loan_id payment_amount payment_date
      = ((false, "Loan not found or access denied"%string), st)
      /\ exists user_id, state = Session user_id /\ user_id <> EmptyString
           /\ forall l, In l (loans_new st) -> Loan.id l = loan_id ->
                        Loan.user_id l <> Some user_id).
Proof.
  destruct state as [| |user].
  - right. left. split; [reflexivity|now left].
  - right. right. left. split; [reflexivity|]. eexists. split; reflexivity.
  - destruct user as [|c user].
    + right. left. split; [reflexivity|now right].
    + unfold process_payment_call. cbn [get_current_user_id authenticated].
      destruct (process_payment_outcomes (Some (String c user)) st loan_id payment_amount
                                         payment_date)
        as [[E (u & l & Eu & H)]|[[_ Eu]|[E (u & Eu & H)]]]; [|discriminate|].
      * left. split; [exact E|]. exists u, l.
        assert (u = String c user) as -> by congruence.
        repeat split; try tauto. discriminate.
      * right. right. right. split; [exact E|]. exists u.
        assert (u = String c user) as -> by congruence.
        repeat split; try tauto. discriminate.
Qed.

(** ** What a payment leaves alone *)

Lemma entry_settled_refl e : entry_settled e e.
Proof. unfold entry_settled. tauto. Qed.

Lemma entry_settled_trans a b c :
  entry_settled a b -> entry_settled b c -> entry_settled a c.
Proof.
  unfold entry_settled.
  intros (A1 & A2 & A3 & A4 & A5 & A6 & A7) (B1 & B2 & B3 & B4 & B5 & B6 & B7).
  repeat split; try congruence. auto.
Qed.

(** The loop rewrites interest rows of the caller only, and in them the
    amount and the paid flag only. *)
Lemma pay_interest_frame user_id entries remaining applied history :
  exists F,
    snd (pay_interest user_id entries remaining applied history) = map F history
    /\ forall e, entry_settled e (F e)
                 /\ (owned_by user_id (Interest.user_id e) = false -> F e = e).
Proof.
  revert remaining applied history.
  induction entries as [|entry rest IH]; intros remaining applied history.
  - exists (fun e => e). cbn. rewrite map_id. split; [reflexivity|].
    intros e. split; [apply entry_settled_refl|auto].
  - cbn [pay_interest].
    destruct (Qle_bool remaining 0).
    + exists (fun e => e). cbn. rewrite map_id. split; [reflexivity|].
      intros e. split; [apply entry_settled_refl|auto].
    + set (mine := fun e => (Interest.id e =? Interest.id entry)
                            && owned_by user_id (Interest.user_id e)).
      assert (Step : forall (g : Interest.t -> Interest.t) rem app,
                 (forall e, entry_settled e (g e)) ->
                 exists F,
                   snd (pay_interest user_id rest rem app (update_rows mine g history))
                   = map F history
                   /\ forall e, entry_settled e (F e)
                                /\ (owned_by user_id (Interest.user_id e) = false ->
                                    F e = e)).
      { intros g rem app Hg.
        destruct (IH rem app (update_rows mine g history)) as (F & EF & HF).
        exists (fun e => F (if mine e then g e else e)). split.
        - rewrite EF. unfold update_rows. now rewrite map_map.
        - intros e. split.
          + destruct (mine e).
            * apply (entry_settled_trans e (g e)); [apply Hg|apply HF].
            * apply HF.
          + intros Ho. unfold mine. rewrite Ho, andb_false_r. now apply HF. }
      destruct (Qle_bool (Interest.interest_amount entry) remaining).
      * apply Step. intros e. unfold entry_settled. cbn. tauto.
      * apply Step. intros e. unfold entry_settled. cbn. tauto.
Qed.

Lemma Forall2_refl {A : Type} (R : A -> A -> Prop) (xs : list A) :
  (forall x, R x x) -> Forall2 R xs xs.
Proof. intros H. induction xs; constructor; auto. Qed.

(** X9: a payment stays inside the caller's rows. Loan rows of another
    owner or of another id are left as they are and the others change
    in principal and status only; interest rows that do not carry the
    caller's id are left as they are and the others change in amount and
    paid flag only, a paid entry staying paid; stored payments are kept
    and at most one row, carrying the caller's id, is appended. *)
Theorem process_payment_frame session st loan_id payment_amount payment_date :
  Forall2 (fun l l' =>
             loan_rebalanced l l'
             /\ (Loan.user_id l <> session \/ Loan.id l <> loan_id -> l' = l))
          (loans_new st)
          (loans_new (snd (process_payment session st loan_id payment_amount payment_date)))
  /\ Forall2 (fun e e' =>
                entry_settled e e' /\ (Interest.user_id e <> session -> e' = e))
             (loan_interest_history st)
             (loan_interest_history
                (snd (process_payment session st loan_id payment_amount payment_date)))
  /\ (payments_new (snd (process_payment session st loan_id payment_amount payment_date))
      = payments_new st
      \/ exists p,
           payments_new (snd (process_payment session st loan_id payment_amount payment_date))
           = payments_new st ++ [p]
           /\ Payment.user_id p = session /\ Payment.loan_id p = loan_id
           /\ Payment.amount p = payment_amount
           /\ Payment.payment_date p = payment_date).
Proof.
  assert (ReflL : forall l, loan_rebalanced l l) by (intros l; unfold loan_rebalanced; tauto).
  assert (Same : Forall2 (fun l l' =>
             loan_rebalanced l l'
             /\ (Loan.user_id l <> session \/ Loan.id l <> loan_id -> l' = l))
          (loans_new st) (loans_new st)
       /\ Forall2 (fun e e' =>
                entry_settled e e' /\ (Interest.user_id e <> session -> e' = e))
             (loan_interest_history st) (loan_interest_history st)).
  { split; apply Forall2_refl; intros x; (split; [|auto]).
    - apply ReflL.
    - apply entry_settled_refl. }
  destruct Same as [SameL SameH].
  unfold process_payment. destruct session as [user_id|]; [|now repeat split; auto].
  set (this_loan := fun l => (Loan.id l =? loan_id) && owned_by user_id (Loan.user_id l)).
  destruct (filter this_loan (loans_new st)) as [|loan rest]; [now repeat split; auto|].
  destruct (pay_interest_frame user_id
              (order_by_due_date
                 (filter (fun e => (Interest.loan_id e =? loan_id)
                                   && owned_by user_id (Interest.user_id e)
                                   && negb (Interest.is_paid e)
                                   && Qlt_bool 0 (Interest.interest_amount e))
                         (loan_interest_history st)))
              (round2 payment_amount) 0%Q (loan_interest_history st)) as (F & EF & HF).
  destruct (pay_interest _ _ _ _ _) as [[remaining applied] history].
  cbn [snd] in EF. subst history. cbn [snd loans_new loan_interest_history payments_new].
  split; [|split].
  - assert (Hthat : forall l, this_loan l = true ->
                              ~ (Loan.user_id l <> Some user_id \/ Loan.id l <> loan_id)).
    { intros l Hl. apply this_loan_iff in Hl. tauto. }
    set (new_status := if Qle_bool _ 0 then Paid else Active).
    destruct (Qlt_bool 0 remaining).
    + unfold update_rows. rewrite map_map. apply Forall2_map_self. intros l.
      destruct (this_loan l) eqn:E.
      * change (this_loan (Loan.set_current_principal
                             (max_zero (round2 (Loan.current_principal loan - remaining))) l))
          with (this_loan l).
        rewrite E. split; [unfold loan_rebalanced; cbn; tauto|].
        intros H. now apply Hthat in E.
      * rewrite E. split; [apply ReflL|auto].
    + unfold update_rows. apply Forall2_map_self. intros l.
      destruct (this_loan l) eqn:E.
      * split; [unfold loan_rebalanced; cbn; tauto|]. intros H. now apply Hthat in E.
      * split; [apply ReflL|auto].
  - apply Forall2_map_self. intros e. destruct (HF e) as (H1 & H2).
    split; [exact H1|].
    intros Hu. apply H2. unfold owned_by.
    destruct (Interest.user_id e) as [o|]; [|reflexivity].
    apply String.eqb_neq. congruence.
  - right. eexists. split; [reflexivity|]. now repeat split.
Qed.

(** ** What a payment applies *)

Lemma round2_exact (x : Q) : is_cents x -> (round2 x == x)%Q.
Proof. intros (c & E). rewrite (round2_cents x c E). now symmetry. Qed.

Lemma is_cents_minus (x y : Q) : is_cents x -> is_cents y -> is_cents (x - y).
Proof.
  intros (a & Ea) (b & Eb). exists (a - b). rewrite Ea, Eb. apply cents_minus.
Qed.

Lemma is_cents_plus (x y : Q) : is_cents x -> is_cents y -> is_cents (x + y).
Proof.
  intros (a & Ea) (b & Eb). exists (a + b). rewrite Ea, Eb. apply cents_plus.
Qed.

Lemma is_cents_zero : is_cents 0.
Proof. exists 0. reflexivity. Qed.

Lemma insert_by_due_date_perm e sorted :
  Permutation (insert_by_due_date e sorted) (e :: sorted).
Proof.
  induction sorted as [|x xs IH]; [reflexivity|].
  cbn [insert_by_due_date]. destruct (date_ltb _ _); [reflexivity|].
  rewrite IH. apply perm_swap.
Qed.

(** The query returns the rows it selects, in another order. *)
Lemma order_by_due_date_perm rows : Permutation (order_by_due_date rows) rows.
Proof.
  unfold order_by_due_date.
  assert (G : forall acc, Permutation
                (fold_left (fun sorted e => insert_by_due_date e sorted) rows acc)
                (rows ++ acc)).
  { induction rows as [|r rows IH]; intros acc; [reflexivity|].
    cbn [fold_left]. rewrite IH, insert_by_due_date_perm.
    cbn [app]. symmetry. apply Permutation_middle. }
  rewrite G. now rewrite app_nil_r.
Qed.

(** The loop hands out what it is given: with amounts in whole cents,
    what is applied to interest and what remains add up to the payment,
    and nothing of the two is negative. *)
Lemma pay_interest_conserves user_id entries remaining applied history :
  Forall (fun e => is_cents (Interest.interest_amount e)
                   /\ (0 < Interest.interest_amount e)%Q) entries ->
  is_cents remaining -> (0 <= remaining)%Q ->
  let r := pay_interest user_id entries remaining applied history in
  (snd (fst r) + fst (fst r) == applied + remaining)%Q
  /\ (0 <= fst (fst r))%Q
  /\ (applied <= snd (fst r))%Q
  /\ is_cents (fst (fst r)).
Proof.
  revert remaining applied history.
  induction entries as [|entry rest IH]; intros remaining applied history Hall Hc Hpos.
  - cbn. repeat split; try assumption; lra.
  - apply Forall_cons_iff in Hall. destruct Hall as [[Hce Hpe] Hall].
    cbn [pay_interest]. destruct (Qle_bool remaining 0) eqn:T0.
    + cbn. repeat split; try assumption; lra.
    + apply Qle_bool_false_iff in T0.
      destruct (Qle_bool (Interest.interest_amount entry) remaining) eqn:T1.
      * apply Qle_bool_iff in T1.
        pose proof (round2_exact _ (is_cents_minus _ _ Hc Hce)) as Ex.
        destruct (IH (round2 (remaining - Interest.interest_amount entry))
                     (applied + Interest.interest_amount entry)%Q
                     (update_rows
                        (fun e => (Interest.id e =? Interest.id entry)
                                  && owned_by user_id (Interest.user_id e))
                        (Interest.set_is_paid true) history) Hall)
          as (H1 & H2 & H3 & H4); [apply round2_is_cents|lra|].
        cbv zeta. repeat split; try assumption; lra.
      * destruct (IH 0%Q (applied + remaining)%Q
                     (update_rows
                        (fun e => (Interest.id e =? Interest.id entry)
                                  && owned_by user_id (Interest.user_id e))
                        (Interest.set_interest_amount
                           (round2 (Interest.interest_amount entry - remaining)))
                        history) Hall)
          as (H1 & H2 & H3 & H4); [apply is_cents_zero|lra|].
        cbv zeta. repeat split; try assumption; lra.
Qed.

(** X10: for a payment that is not negative, interest amounts being
    stored in whole cents, the row recorded by a successful
    [process_payment] splits the rounded amount between interest and
    principal: applied_to_interest + applied_to_principal, rounded to
    two places, is round(amount, 2) (applied_to_interest is stored as
    the running sum it is, without a rounding of its own), both parts
    are at least 0, and remaining_amount repeats applied_to_principal. *)
Theorem process_payment_conserves session st loan_id payment_amount payment_date :
  fst (fst (process_payment session st loan_id payment_amount payment_date)) = true ->
  (0 <= payment_amount)%Q ->
  Forall (fun e => is_cents (Interest.interest_amount e)) (loan_interest_history st) ->
  exists p,
    payments_new (snd (process_payment session st loan_id payment_amount payment_date))
    = payments_new st ++ [p]
    /\ round2 (Payment.applied_to_interest p + Payment.applied_to_principal p)
       = round2 payment_amount
    /\ (0 <= Payment.applied_to_interest p)%Q
    /\ (0 <= Payment.applied_to_principal p)%Q
    /\ (Payment.remaining_amount p == Payment.applied_to_principal p)%Q.
Proof.
  unfold process_payment. destruct session as [user_id|]; [|discriminate].
  destruct (filter _ (loans_new st)) as [|loan rest]; [discriminate|].
  intros _ Hpos Hcents.
  set (entries := order_by_due_date _).
  assert (Hall : Forall (fun e => is_cents (Interest.interest_amount e)
                                  /\ (0 < Interest.interest_amount e)%Q) entries).
  { apply Forall_forall. intros e He.
    apply (Permutation_in _ (order_by_due_date_perm _)) in He.
    apply filter_In in He. destruct He as [He Hp].
    apply andb_true_iff in Hp. destruct Hp as [_ Hp]. apply Qlt_bool_iff in Hp.
    split; [|exact Hp]. rewrite Forall_forall in Hcents. now apply Hcents. }
  destruct (pay_interest_conserves user_id entries (round2 payment_amount) 0%Q
              (loan_interest_history st) Hall (round2_is_cents _)
              (round2_nonneg _ Hpos)) as (H1 & H2 & H3 & H4).
  destruct (pay_interest _ _ _ _ _) as [[remaining applied] history].
  cbn [fst snd] in H1, H2, H3, H4. cbn [snd payments_new].
  eexists. split; [reflexivity|].
  cbn [Payment.applied_to_interest Payment.applied_to_principal Payment.remaining_amount].
  assert (Eround : forall x, (x == round2 payment_amount)%Q ->
                             round2 x = round2 payment_amount).
  { intros x Ex. apply (round2_cents x (round_half_even (payment_amount * 100))).
    exact Ex. }
  destruct (Qlt_bool 0 remaining) eqn:T.
  - repeat split; try assumption; try lra. apply Eround. lra.
  - assert (remaining <= 0)%Q.
    { destruct (Qlt_le_dec 0 remaining) as [L|L]; [|exact L].
      apply Qlt_bool_iff in L. congruence. }
    repeat split; try assumption; try lra. apply Eround. lra.
Qed.

Lemma process_payment_conserves_witness :
  exists p,
    payments_new (snd (process_payment (Some Sample.alice) Sample.ledger2 1 (45050 # 100)
                                       (mkdate 2024 Mar 20))) = [p]
    /\ round2 (Payment.applied_to_interest p + Payment.applied_to_principal p)
       = round2 (45050 # 100).
Proof.
  destruct (process_payment_conserves (Some Sample.alice) Sample.ledger2 1 (45050 # 100)
                                      (mkdate 2024 Mar 20))
    as (p & E & H & _).
  - reflexivity.
  - unfold Qle. simpl. lia.
  - repeat constructor; exists 20000; reflexivity.
  - exists p. split; [exact E|exact H].
Defined.

Lemma round2_nonpos (x : Q) : (x <= 0)%Q -> (round2 x <= 0)%Q.
Proof.
  intros H. destruct (round2_near x) as [H1 _].
  destruct (round2_is_cents x) as (c & E). rewrite E in *.
  assert (c <= 0); [|unfold Qle; cbn [Qnum Qden]; lia].
  assert (L : (c # 100 <= 1 # 200)%Q) by lra.
  unfold Qle in L. cbn [Qnum Qden] in L. lia.
Qed.

(** X11: [process_payment] does not turn away an amount that is zero or
    negative: for the caller's loan it succeeds, applies nothing (the
    interest table and every principal stay as they are), and still
    records a payment row, with 0 applied to interest and to principal,
    and rewrites the status of the loan. *)
Theorem process_payment_of_nothing session st loan_id payment_amount payment_date :
  fst (fst (process_payment session st loan_id payment_amount payment_date)) = true ->
  (payment_amount <= 0)%Q ->
  loan_interest_history (snd (process_payment session st loan_id payment_amount payment_date))
  = loan_interest_history st
  /\ map Loan.current_principal
         (loans_new (snd (process_payment session st loan_id payment_amount payment_date)))
     = map Loan.current_principal (loans_new st)
  /\ exists p,
       payments_new (snd (process_payment session st loan_id payment_amount payment_date))
       = payments_new st ++ [p]
       /\ Payment.amount p = payment_amount
       /\ Payment.applied_to_interest p = 0%Q
       /\ Payment.applied_to_principal p = 0%Q
       /\ Payment.remaining_amount p = round2 payment_amount.
Proof.
  unfold process_payment. destruct session as [user_id|]; [|discriminate].
  destruct (filter _ (loans_new st)) as [|loan rest]; [discriminate|].
  intros _ Hneg. apply round2_nonpos in Hneg.
  assert (E : forall entries,
             pay_interest user_id entries (round2 payment_amount) 0%Q
                          (loan_interest_history st)
             = (round2 payment_amount, 0%Q, loan_interest_history st)).
  { intros [|e es]; [reflexivity|]. cbn [pay_interest].
    apply Qle_bool_iff in Hneg. now rewrite Hneg. }
  rewrite E.
  assert (T : Qlt_bool 0 (round2 payment_amount) = false).
  { unfold Qlt_bool. apply negb_false_iff. now apply Qle_bool_iff. }
  rewrite T. cbn [snd loan_interest_history loans_new payments_new].
  split; [reflexivity|]. split.
  - unfold update_rows. rewrite map_map. apply map_ext. intros l.
    now destruct (_ && _).
  - eexists. split; [reflexivity|]. now repeat split.
Qed.

Lemma process_payment_of_nothing_witness :
  loan_interest_history
    (snd (process_payment (Some Sample.alice) Sample.ledger1 1 (- (5)) (mkdate 2024 Feb 1)))
  = [Sample.entry1].
Proof.
  destruct (process_payment_of_nothing (Some Sample.alice) Sample.ledger1 1 (- (5))
                                       (mkdate 2024 Feb 1)) as (H & _).
  - reflexivity.
  - unfold Qle. simpl. lia.
  - exact H.
Defined.

(** ** Paying everything that is owed *)

Lemma fold_left_Qplus_start (xs : list Q) (a : Q) :
  (fold_left Qplus xs a == a + fold_left Qplus xs 0)%Q.
Proof.
  revert a. induction xs as [|x xs IH]; intros a; cbn [fold_left]; [lra|].
  rewrite (IH (a + x)%Q), (IH (0 + x)%Q). lra.
Qed.

Lemma sum_amounts_cons (x : Q) (xs : list Q) :
  (sum_amounts (x :: xs) == x + sum_amounts xs)%Q.
Proof.
  unfold sum_amounts. cbn [fold_left]. rewrite fold_left_Qplus_start. lra.
Qed.

Lemma sum_amounts_perm (xs ys : list Q) :
  Permutation xs ys -> (sum_amounts xs == sum_amounts ys)%Q.
Proof.
  induction 1 as [|x xs ys _ IH|x y xs|xs ys zs _ IH1 _ IH2].
  - reflexivity.
  - rewrite !sum_amounts_cons, IH. reflexivity.
  - rewrite !sum_amounts_cons. lra.
  - now rewrite IH1.
Qed.

Lemma sum_amounts_cents (xs : list Q) :
  Forall is_cents xs -> is_cents (sum_amounts xs).
Proof.
  induction 1 as [|x xs Hx _ IH]; [apply is_cents_zero|].
  destruct (is_cents_plus _ _ Hx IH) as (c & E). exists c.
  now rewrite sum_amounts_cons.
Qed.

Lemma sum_amounts_nonneg (xs : list Q) :
  Forall (fun x => 0 < x)%Q xs -> (0 <= sum_amounts xs)%Q.
Proof.
  induction 1 as [|x xs Hx _ IH]; [unfold sum_amounts; cbn; lra|].
  rewrite sum_amounts_cons. lra.
Qed.

(** A payment that covers all the fetched entries settles each of them:
    what remains is the payment less their sum, and every row of the
    caller that has the id of a fetched entry ends up paid, amounts
    being left as they are. *)
Lemma pay_interest_settles user_id entries remaining applied history :
  Forall (fun e => is_cents (Interest.interest_amount e)
                   /\ (0 < Interest.interest_amount e)%Q) entries ->
  is_cents remaining ->
  (sum_amounts (map Interest.interest_amount entries) <= remaining)%Q ->
  exists F,
    snd (pay_interest user_id entries remaining applied history) = map F history
    /\ (fst (fst (pay_interest user_id entries remaining applied history))
        == remaining - sum_amounts (map Interest.interest_amount entries))%Q
    /\ forall x,
         entry_settled x (F x)
         /\ Interest.interest_amount (F x) = Interest.interest_amount x
         /\ ((exists e, In e entries /\ Interest.id e = Interest.id x) ->
             owned_by user_id (Interest.user_id x) = true ->
             Interest.is_paid (F x) = true).
Proof.
  revert remaining applied history.
  induction entries as [|entry rest IH]; intros remaining applied history Hall Hc Hsum.
  - exists (fun x => x). cbn [pay_interest snd fst map]. rewrite map_id.
    split; [reflexivity|]. split; [unfold sum_amounts; cbn; lra|].
    intros x. split; [apply entry_settled_refl|]. split; [reflexivity|].
    intros (e & [] & _).
  - apply Forall_cons_iff in Hall. destruct Hall as [[Hce Hpe] Hall].
    cbn [map] in Hsum. rewrite sum_amounts_cons in Hsum.
    assert (Hrest : (0 <= sum_amounts (map Interest.interest_amount rest))%Q).
    { apply sum_amounts_nonneg. apply Forall_map.
      eapply Forall_impl; [|exact Hall]. now intros e [_ H]. }
    cbn [pay_interest].
    assert (T0 : Qle_bool remaining 0 = false) by (apply Qle_bool_false_iff; lra).
    assert (T1 : Qle_bool (Interest.interest_amount entry) remaining = true)
      by (apply Qle_bool_iff; lra).
    rewrite T0, T1.
    pose proof (round2_exact _ (is_cents_minus _ _ Hc Hce)) as Ex.
    set (mine := fun e => (Interest.id e =? Interest.id entry)
                          && owned_by user_id (Interest.user_id e)).
    destruct (IH (round2 (remaining - Interest.interest_amount entry))
                 (applied + Interest.interest_amount entry)%Q
                 (update_rows mine (Interest.set_is_paid true) history) Hall)
      as (F & EF & Erem & HF); [apply round2_is_cents|lra|].
    exists (fun x => F (if mine x then Interest.set_is_paid true x else x)).
    split; [rewrite EF; unfold update_rows; now rewrite map_map|].
    split; [cbn [map]; rewrite sum_amounts_cons; lra|].
    intros x.
    assert (G : entry_settled x (if mine x then Interest.set_is_paid true x else x)
                /\ Interest.interest_amount (if mine x then Interest.set_is_paid true x else x)
                   = Interest.interest_amount x).
    { destruct (mine x); (split; [|reflexivity]).
      - unfold entry_settled. cbn. tauto.
      - apply entry_settled_refl. }
    destruct G as [G1 G2].
    destruct (HF (if mine x then Interest.set_is_paid true x else x)) as (H1 & H2 & H3).
    split; [exact (entry_settled_trans _ _ _ G1 H1)|]. split; [congruence|].
    intros (e & [<-|He] & Hid) Ho.
    + destruct H1 as (_ & _ & _ & _ & _ & _ & Hpaid). apply Hpaid.
      unfold mine. rewrite Ho. replace (Interest.id x =? Interest.id entry) with true
        by (symmetry; apply Z.eqb_eq; congruence).
      reflexivity.
    + destruct G1 as (Gid & Gu & _). apply H3.
      * exists e. split; [exact He|]. congruence.
      * now rewrite Gu.
Qed.

Lemma filter_map_none {A B : Type} (P : B -> bool) (f : A -> B) (xs : list A) :
  (forall x, In x xs -> P (f x) = false) -> filter P (map f xs) = [].
Proof.
  induction xs as [|x xs IH]; intros H; [reflexivity|].
  cbn [map filter]. rewrite (H x (or_introl eq_refl)). apply IH.
  intros y Hy. apply H. now right.
Qed.

Lemma filter_filter_and {A : Type} (P Q : A -> bool) (xs : list A) :
  filter P (filter Q xs) = filter (fun x => Q x && P x) xs.
Proof.
  induction xs as [|x xs IH]; [reflexivity|].
  cbn [filter]. destruct (Q x); cbn [andb filter]; [|exact IH].
  destruct (P x); now rewrite IH.
Qed.

(** X12: a payment of at least the total owed settles the loan. When
    every unpaid interest entry of the loan carries the caller's id and
    stored amounts are whole cents, a payment in whole cents that is not
    below the total [calculate_total_owed] reports leaves the loan with
    no unpaid interest, a principal of 0, a total owed of 0 and the
    status Paid. *)
Theorem process_payment_settles user_id st loan_id payment_amount payment_date :
  fst (fst (process_payment (Some user_id) st loan_id payment_amount payment_date)) = true ->
  Forall (fun e => is_cents (Interest.interest_amount e)) (loan_interest_history st) ->
  Forall (fun l => is_cents (Loan.current_principal l)
                   /\ (0 <= Loan.current_principal l)%Q) (loans_new st) ->
  (forall e, In e (loan_interest_history st) -> Interest.loan_id e = loan_id ->
             Interest.is_paid e = false -> Interest.user_id e = Some user_id) ->
  is_cents payment_amount ->
  (total_owed_of (calculate_total_owed online (Some user_id) st loan_id)
   <= payment_amount)%Q ->
  let st' := snd (process_payment (Some user_id) st loan_id payment_amount payment_date) in
  exists current_principal,
    calculate_total_owed online (Some user_id) st' loan_id
    = (round2 (current_principal + 0), current_principal, 0%Q)
    /\ (current_principal == 0)%Q
    /\ unpaid_interest_of st' loan_id = 0%Q
    /\ forall l, In l (loans_new st') -> Loan.id l = loan_id ->
                 Loan.user_id l = Some user_id -> Loan.status l = Paid.
Proof.
  intros Hok Hcents Hloans Hown Hpay Hcover.
  set (this_loan := fun l => (Loan.id l =? loan_id) && owned_by user_id (Loan.user_id l)).
  assert (Fswap : forall ls,
             filter (fun l => owned_by user_id (Loan.user_id l) && (Loan.id l =? loan_id)) ls
             = filter this_loan ls).
  { intros ls. apply filter_ext. intros l. apply andb_comm. }
  destruct (filter this_loan (loans_new st)) as [|loan rest] eqn:F.
  { unfold process_payment in Hok. fold this_loan in Hok. rewrite F in Hok. discriminate. }
  clear Hok.
  assert (Hloan : In loan (loans_new st)).
  { assert (H : In loan (filter this_loan (loans_new st))) by (rewrite F; now left).
    apply filter_In in H. tauto. }
  rewrite Forall_forall in Hloans. destruct (Hloans loan Hloan) as [Pc Ppos].
  (* the total owed before the payment *)
  rewrite (calculate_total_owed_read user_id st loan_id loan rest) in Hcover
    by (now rewrite Fswap).
  cbn [total_owed_of fst] in Hcover.
  set (fetched := filter (fun e => (Interest.loan_id e =? loan_id)
                                   && owned_by user_id (Interest.user_id e)
                                   && negb (Interest.is_paid e)
                                   && Qlt_bool 0 (Interest.interest_amount e))
                         (loan_interest_history st)).
  assert (Efetched : filter (fun e => Qlt_bool 0 (Interest.interest_amount e))
                       (filter (fun e => (Interest.loan_id e =? loan_id)
                                         && negb (Interest.is_paid e))
                               (loan_interest_history st))
                     = fetched).
  { rewrite filter_filter_and. unfold fetched. apply filter_ext_in. intros e He.
    destruct (Interest.loan_id e =? loan_id) eqn:E1; [|reflexivity].
    destruct (Interest.is_paid e) eqn:E2;
      [now destruct (owned_by user_id (Interest.user_id e))|].
    apply Z.eqb_eq in E1. rewrite (Hown e He E1 E2). cbn [owned_by].
    now rewrite String.eqb_refl. }
  unfold unpaid_interest_of in Hcover. rewrite Efetched in Hcover.
  assert (Hall : Forall (fun e => is_cents (Interest.interest_amount e)
                                  /\ (0 < Interest.interest_amount e)%Q)
                        (order_by_due_date fetched)).
  { apply Forall_forall. intros e He.
    apply (Permutation_in _ (order_by_due_date_perm _)) in He.
    apply filter_In in He. destruct He as [He Hp].
    apply andb_true_iff in Hp. destruct Hp as [_ Hp]. apply Qlt_bool_iff in Hp.
    split; [|exact Hp]. rewrite Forall_forall in Hcents. now apply Hcents. }
  assert (Esum : (sum_amounts (map Interest.interest_amount (order_by_due_date fetched))
                  == sum_amounts (map Interest.interest_amount fetched))%Q).
  { apply sum_amounts_perm. apply Permutation_map. apply order_by_due_date_perm. }
  assert (Ucents : is_cents (sum_amounts (map Interest.interest_amount fetched))).
  { apply sum_amounts_cents. apply Forall_map. apply Forall_forall. intros e He.
    apply filter_In in He. rewrite Forall_forall in Hcents. now apply Hcents. }
  pose proof (round2_exact _ (is_cents_plus _ _ Pc Ucents)) as Etotal.
  pose proof (round2_exact _ Hpay) as Epay.
  destruct (pay_interest_settles user_id (order_by_due_date fetched)
              (round2 payment_amount) 0%Q (loan_interest_history st) Hall
              (round2_is_cents _)) as (G & EG & Erem & HG); [lra|].
  (* the run of the payment *)
  cbv zeta. unfold process_payment. fold this_loan. rewrite F. fold fetched.
  destruct (pay_interest _ _ _ _ _) as [[remaining applied] history].
  cbn [fst snd] in EG, Erem. subst history.
  set (loans := if Qlt_bool 0 remaining then _ else loans_new st).
  set (payments := payments_new st ++ _).
  set (st1 := {| loans_new := loans; loan_interest_history := map G (loan_interest_history st);
                 payments_new := payments |}).
  set (new_status := if Qle_bool _ 0 then Paid else Active).
  cbn [snd].
  (* no unpaid interest is left *)
  assert (Enone : forall s, loan_interest_history s = map G (loan_interest_history st) ->
                            unpaid_interest_of s loan_id = 0%Q).
  { intros s Es. unfold unpaid_interest_of. rewrite Es, filter_filter_and.
    rewrite filter_map_none; [reflexivity|].
    intros x Hx. destruct (HG x) as (Hs & Ha & Hp).
    destruct Hs as (Hid & Hu & Hl & _ & _ & _ & Hmono).
    rewrite Hl, Ha.
    destruct (Interest.loan_id x =? loan_id) eqn:E1; [|reflexivity].
    destruct (Qlt_bool 0 (Interest.interest_amount x)) eqn:E3; [|now rewrite andb_false_r].
    destruct (Interest.is_paid x) eqn:E2.
    - now rewrite (Hmono eq_refl).
    - apply Z.eqb_eq in E1. pose proof (Hown x Hx E1 E2) as Hu'.
      assert (Ho : owned_by user_id (Interest.user_id x) = true).
      { rewrite Hu'. cbn [owned_by]. apply String.eqb_refl. }
      rewrite Hp; [reflexivity| |exact Ho].
      exists x. split; [|reflexivity].
      apply (Permutation_in _ (Permutation_sym (order_by_due_date_perm _))).
      apply filter_In. split; [exact Hx|].
      apply Z.eqb_eq in E1. now rewrite E1, Ho, E2, E3. }
  (* the first row of the loan, after the payment reached the principal *)
  assert (Hfirst : exists loan' rest',
             filter this_loan loans = loan' :: rest'
             /\ (Loan.current_principal loan' == 0)%Q).
  { unfold loans. destruct (Qlt_bool 0 remaining) eqn:T.
    - exists (Loan.set_current_principal
                (max_zero (round2 (Loan.current_principal loan - remaining))) loan),
             (map (Loan.set_current_principal
                     (max_zero (round2 (Loan.current_principal loan - remaining)))) rest).
      split.
      + unfold update_rows.
        transitivity (map (Loan.set_current_principal
                             (max_zero (round2 (Loan.current_principal loan - remaining))))
                          (filter this_loan (loans_new st))); [|now rewrite F].
        clear. induction (loans_new st) as [|l ls IH]; [reflexivity|].
        cbn [map filter]. destruct (this_loan l) eqn:E.
        * change (this_loan (Loan.set_current_principal
                               (max_zero (round2 (Loan.current_principal loan - remaining))) l))
            with (this_loan l).
          rewrite E. cbn [map]. now rewrite IH.
        * rewrite E. exact IH.
      + cbn [Loan.current_principal Loan.set_current_principal].
        pose proof (max_zero_nonneg (round2 (Loan.current_principal loan - remaining))) as Hge.
        assert (Hle : (round2 (Loan.current_principal loan - remaining) <= 0)%Q)
          by (apply round2_nonpos; lra).
        unfold max_zero in *. destruct (Qlt_bool _ 0); [reflexivity|lra].
    - exists loan, rest. split; [exact F|].
      assert (remaining <= 0)%Q.
      { destruct (Qlt_le_dec 0 remaining) as [L|L]; [|exact L].
        apply Qlt_bool_iff in L. congruence. }
      lra. }
  destruct Hfirst as (loan' & rest' & F' & Pzero).
  assert (Etot1 : calculate_total_owed online (Some user_id) st1 loan_id
                  = (round2 (Loan.current_principal loan' + 0),
                     Loan.current_principal loan', 0%Q)).
  { rewrite (calculate_total_owed_read user_id st1 loan_id loan' rest')
      by (now rewrite Fswap).
    now rewrite (Enone st1 eq_refl). }
  assert (Hpaid : new_status = Paid).
  { unfold new_status. fold st1. rewrite Etot1. cbn [total_owed_of fst].
    rewrite (round2_comp _ 0) by lra. reflexivity. }
  exists (Loan.current_principal loan').
  split; [|split; [exact Pzero|split]].
  - rewrite <- Etot1. apply calculate_total_owed_status_blind; [|reflexivity].
    cbn [loans_new]. apply update_status_blind.
  - now apply Enone.
  - cbn [loans_new]. intros l Hl Hid Hu. apply in_update_rows in Hl.
    destruct Hl as (r & Hr & ->).
    assert (Hm : this_loan r = true).
    { destruct (this_loan r) eqn:Er; [reflexivity|]. rewrite <- Er.
      apply this_loan_iff. now split. }
    rewrite Hm. exact Hpaid.
Qed.

Lemma process_payment_settles_witness :
  unpaid_interest_of
    (snd (process_payment (Some Sample.alice) Sample.ledger2 1 1000 (mkdate 2024 Mar 20))) 1
  = 0%Q.
Proof.
  destruct (process_payment_settles Sample.alice Sample.ledger2 1 1000 (mkdate 2024 Mar 20))
    as (cp & _ & _ & H & _).
  - reflexivity.
  - repeat constructor; exists 20000; reflexivity.
  - repeat constructor. exists 50000. reflexivity. unfold Qle. simpl. lia.
  - intros e [<-|[<-|[]]]; reflexivity.
  - exists 100000. reflexivity.
  - vm_compute. discriminate.
  - exact H.
Defined.

(** ** Statuses after a refresh *)

Lemma retags_id today session st1 ks r :
  Loan.id (fold_left (retag today session st1) ks r) = Loan.id r.
Proof.
  revert r. induction ks as [|a ks IH]; intros r; [reflexivity|].
  cbn [fold_left]. now rewrite IH, retag_id.
Qed.

(** A row the passes over the fetched loans [ks] reach carries a status
    computed for one of them. *)
Lemma retags_status (P : Status -> Prop) today session st1 ks r :
  (forall k, In k ks ->
             P (resolve_status today
                  (total_owed_of (calculate_total_owed online session st1 (Loan.id k))) k)) ->
  (exists k, In k ks /\ Loan.id k = Loan.id r) ->
  P (Loan.status (fold_left (retag today session st1) ks r)).
Proof.
  induction ks as [|k ks IH] using rev_ind; intros HP (k0 & Hin & Hid).
  - contradiction.
  - rewrite fold_left_app. cbn [fold_left]. unfold retag at 1. rewrite retags_id.
    destruct (Z.eqb_spec (Loan.id r) (Loan.id k)) as [E|N].
    + cbn [Loan.status Loan.set_status]. apply HP. apply in_or_app. right. now left.
    + apply IH.
      * intros k' Hk'. apply HP. apply in_or_app. now left.
      * apply in_app_or in Hin. destruct Hin as [Hin|[<-|[]]]; [now exists k0|].
        exfalso. apply N. now symmetry.
Qed.

Lemma update_loan_statuses_status (P : Status -> Prop) today session st :
  (forall total_owed k, P (resolve_status today total_owed k)) ->
  forall l, In l (loans_new (update_loan_statuses today session st)) ->
            P (Loan.status l).
Proof.
  intros HP l Hl. unfold update_loan_statuses in Hl.
  set (st1 := check_and_add_overdue_interest today st) in *.
  rewrite (refresh_loans today session st1 (loans_new st1) st1 eq_refl eq_refl) in Hl.
  apply in_map_iff in Hl. destruct Hl as (r & <- & Hr).
  apply retags_status; [intros k _; apply HP|]. now exists r.
Qed.

(** X13: a refresh leaves no loan Active: after [update_loan_statuses]
    every stored loan is Paid, Partial or Overdue, whatever its status
    was, so the Active written by a payment lasts until the next refresh
    only. *)
Theorem update_loan_statuses_three_states today session st :
  Forall (fun l => Loan.status l = Paid \/ Loan.status l = Partial
                   \/ Loan.status l = Overdue)
         (loans_new (update_loan_statuses today session st)).
Proof.
  apply Forall_forall.
  apply (update_loan_statuses_status
           (fun s => s = Paid \/ s = Partial \/ s = Overdue)).
  intros total_owed k. unfold resolve_status.
  destruct (Qle_bool total_owed 0); [now left|].
  destruct (Loan.current_due_date k) as [d|]; [|now right; left].
  destruct (date_ltb d today); [now right; right|now right; left].
Qed.

(** X14: a refresh without a session marks every stored loan Paid,
    whatever it owes: no loan row is read for the total, which is then 0
    for each of them. *)
Theorem update_loan_statuses_without_session today st :
  Forall (fun l => Loan.status l = Paid)
         (loans_new (update_loan_statuses today None st)).
Proof.
  apply Forall_forall. intros l Hl. unfold update_loan_statuses in Hl.
  set (st1 := check_and_add_overdue_interest today st) in *.
  rewrite (refresh_loans today None st1 (loans_new st1) st1 eq_refl eq_refl) in Hl.
  apply in_map_iff in Hl. destruct Hl as (r & <- & Hr).
  apply (retags_status (fun s => s = Paid)); [|now exists r].
  intros k _. reflexivity.
Qed.

(** X15: a refresh never shows a loan it has walked as Overdue. A loan
    that is not Paid and has a due date, ids being distinct, comes out
    of [update_loan_statuses] with the due date the walk ended on, which
    is not before today, and with the status Paid or Partial, also when
    due dates were missed. *)
Theorem update_loan_statuses_never_overdue today session st l start :
  NoDup (map Loan.id (loans_new st)) ->
  In l (loans_new st) -> Loan.status l <> Paid ->
  Loan.current_due_date l = Some start ->
  exists n status,
    In (Loan.set_due_date_and_status (advance n start) status l)
       (loans_new (update_loan_statuses today session st))
    /\ date_ltb (advance n start) today = false
    /\ (forall m, (m < n)%nat -> date_ltb (advance m start) today = true)
    /\ (status = Paid \/ status = Partial).
Proof.
  intros ND Hl Hs Hd.
  destruct (walked_due_date_advance today start) as (n & E & Hstop & Hbefore).
  pose proof (accrual_persists_walked_due_date today st l start ND Hl Hs Hd) as Hin.
  rewrite E in Hin.
  change (update_loan_statuses today session st)
    with (refresh_all today session (check_and_add_overdue_interest today st)).
  set (st1 := check_and_add_overdue_interest today st) in *.
  rewrite refresh_all_resolved by (unfold st1; now rewrite accrual_keeps_ids).
  cbn [loans_new].
  set (l1 := Loan.set_due_date_and_status (advance n start) Overdue l) in *.
  exists n, (Loan.status (resolved today session st1 l1)).
  split; [|split; [exact Hstop|split; [exact Hbefore|]]].
  - apply in_map_iff. exists l1. split; [|exact Hin]. reflexivity.
  - unfold resolved. cbn [Loan.status Loan.set_status]. unfold resolve_status.
    destruct (Qle_bool _ 0); [now left|]. right.
    unfold l1. cbn [Loan.current_due_date Loan.set_due_date_and_status].
    now rewrite Hstop.
Qed.

Lemma update_loan_statuses_never_overdue_witness :
  exists n status,
    In (Loan.set_due_date_and_status (advance n (mkdate 2024 Feb 5)) status Sample.loan1)
       (loans_new (update_loan_statuses (mkdate 2024 Apr 6) (Some Sample.alice)
                                        Sample.ledger1))
    /\ date_ltb (advance n (mkdate 2024 Feb 5)) (mkdate 2024 Apr 6) = false
    /\ (forall m, (m < n)%nat ->
                  date_ltb (advance m (mkdate 2024 Feb 5)) (mkdate 2024 Apr 6) = true)
    /\ (status = Paid \/ status = Partial).
Proof.
  apply (update_loan_statuses_never_overdue (mkdate 2024 Apr 6) (Some Sample.alice)
                                            Sample.ledger1 Sample.loan1 (mkdate 2024 Feb 5)).
  - repeat constructor. simpl. tauto.
  - now left.
  - discriminate.
  - reflexivity.
Defined.

(** X16: a second refresh on the same day changes nothing when the first
    left no loan Overdue, ids being distinct: interest entries, due dates
    and statuses are those of the first refresh. *)
Theorem update_loan_statuses_twice today session st :
  NoDup (map Loan.id (loans_new st)) ->
  Forall (fun l => Loan.status l <> Overdue)
         (loans_new (update_loan_statuses today session st)) ->
  update_loan_statuses today session (update_loan_statuses today session st)
  = update_loan_statuses today session st.
Proof.
  intros ND Hno. apply update_loan_statuses_idempotent; [exact ND|].
  now apply Forall_forall.
Qed.

Lemma update_loan_statuses_twice_witness :
  update_loan_statuses (mkdate 2024 Apr 6) (Some Sample.alice)
    (update_loan_statuses (mkdate 2024 Apr 6) (Some Sample.alice) Sample.shared_ledger)
  = update_loan_statuses (mkdate 2024 Apr 6) (Some Sample.alice) Sample.shared_ledger.
Proof.
  apply (update_loan_statuses_twice (mkdate 2024 Apr 6) (Some Sample.alice)
                                    Sample.shared_ledger).
  - repeat constructor; simpl; intuition discriminate.
  - repeat constructor; discriminate.
Defined.

(** ** The total owed *)

Lemma unpaid_interest_of_nonneg st loan_id : (0 <= unpaid_interest_of st loan_id)%Q.
Proof.
  unfold unpaid_interest_of. apply sum_amounts_nonneg. apply Forall_map.
  apply Forall_forall. intros e He. apply filter_In in He. destruct He as [_ He].
  now apply Qlt_bool_iff.
Qed.

(** X17: the figures [calculate_total_owed] returns are never negative
    when no stored principal is: entries with an amount of 0 or less are
    left out of the unpaid interest, and the total is a whole number of
    cents within half a cent of principal plus unpaid interest. *)
Theorem calculate_total_owed_nonneg up session st loan_id :
  Forall (fun l => 0 <= Loan.current_principal l)%Q (loans_new st) ->
  exists total_owed current_principal unpaid_interest,
    calculate_total_owed up session st loan_id
    = (total_owed, current_principal, unpaid_interest)
    /\ (0 <= total_owed)%Q /\ (0 <= current_principal)%Q /\ (0 <= unpaid_interest)%Q
    /\ is_cents total_owed
    /\ (total_owed - (current_principal + unpaid_interest) <= 1 # 200)%Q
    /\ ((current_principal + unpaid_interest) - total_owed <= 1 # 200)%Q.
Proof.
  intros Hpos.
  assert (Zero : exists total_owed current_principal unpaid_interest,
             (0, 0, 0)%Q = (total_owed, current_principal, unpaid_interest)
             /\ (0 <= total_owed)%Q /\ (0 <= current_principal)%Q
             /\ (0 <= unpaid_interest)%Q /\ is_cents total_owed
             /\ (total_owed - (current_principal + unpaid_interest) <= 1 # 200)%Q
             /\ ((current_principal + unpaid_interest) - total_owed <= 1 # 200)%Q).
  { exists 0%Q, 0%Q, 0%Q. repeat split; try lra. apply is_cents_zero. }
  unfold calculate_total_owed.
  destruct (get_table_data_loans up session st loan_id) as [|loan rest] eqn:G;
    [exact Zero|].
  destruct (up T_loan_interest_history); [|exact Zero].
  assert (Hloan : (0 <= Loan.current_principal loan)%Q).
  { rewrite Forall_forall in Hpos. apply Hpos.
    assert (H : In loan (get_table_data_loans up session st loan_id))
      by (rewrite G; now left).
    unfold get_table_data_loans in H. destruct session; [|contradiction].
    destruct (up T_loans_new); [|contradiction].
    apply filter_In in H. tauto. }
  pose proof (unpaid_interest_of_nonneg st loan_id) as Hu.
  destruct (round2_near (Loan.current_principal loan + unpaid_interest_of st loan_id))
    as [N1 N2].
  eexists _, _, _. split; [reflexivity|].
  repeat split; try assumption.
  - apply round2_nonneg. lra.
  - apply round2_is_cents.
Qed.

Lemma calculate_total_owed_nonneg_witness :
  exists total_owed current_principal unpaid_interest,
    calculate_total_owed online (Some Sample.alice) Sample.ledger2 1
    = (total_owed, current_principal, unpaid_interest)
    /\ (0 <= total_owed)%Q.
Proof.
  destruct (calculate_total_owed_nonneg online (Some Sample.alice) Sample.ledger2 1)
    as (t & cp & u & E & H & _).
  - repeat constructor. unfold Qle. simpl. lia.
  - now exists t, cp, u.
Defined.

(** ** Deleting a loan *)

Lemma filter_twice {A : Type} (P : A -> bool) (xs : list A) :
  filter P (filter P xs) = filter P xs.
Proof.
  rewrite filter_filter_and. apply filter_ext. intros x. now destruct (P x).
Qed.

Lemma filter_after_delete {A : Type} (P Q : A -> bool) (xs : list A) :
  (forall x, P x = true -> Q x = true) ->
  filter P (filter Q xs) = filter P xs.
Proof.
  intros H. rewrite filter_filter_and. apply filter_ext. intros x.
  destruct (P x) eqn:E; [now rewrite (H x E)|now rewrite andb_false_r].
Qed.

(** X18: [delete_loan_with_related_data] removes the loan with its
    interest entries and payments and nothing else: the rows of each of
    the three tables afterwards are exactly the rows stored before that
    do not refer to the loan, so no row refers to it and every row of
    another loan is kept as it was; its total owed reads as the default
    zeros, the figures of every other loan are what they were, and
    deleting it again changes nothing. *)
Theorem delete_loan_cascade st loan_id :
  fst (delete_loan_with_related_data st loan_id)
  = (true, "Loan and all related data deleted successfully"%string)
  /\ (forall l, In l (loans_new (snd (delete_loan_with_related_data st loan_id)))
                <-> In l (loans_new st) /\ Loan.id l <> loan_id)
  /\ (forall e, In e (loan_interest_history (snd (delete_loan_with_related_data st loan_id)))
                <-> In e (loan_interest_history st) /\ Interest.loan_id e <> loan_id)
  /\ (forall p, In p (payments_new (snd (delete_loan_with_related_data st loan_id)))
                <-> In p (payments_new st) /\ Payment.loan_id p <> loan_id)
  /\ (forall up session,
        calculate_total_owed up session (snd (delete_loan_with_related_data st loan_id))
                             loan_id = (0, 0, 0)%Q)
  /\ (forall up session other,
        other <> loan_id ->
        calculate_total_owed up session (snd (delete_loan_with_related_data st loan_id))
                             other
        = calculate_total_owed up session st other)
  /\ snd (delete_loan_with_related_data
            (snd (delete_loan_with_related_data st loan_id)) loan_id)
     = snd (delete_loan_with_related_data st loan_id).
Proof.
  unfold delete_loan_with_related_data. cbn [fst snd loans_new loan_interest_history
                                              payments_new].
  split; [reflexivity|].
  assert (Kept : forall (A : Type) (key : A -> Z) (xs : list A) (x : A),
             In x (filter (fun x => negb (key x =? loan_id)) xs)
             <-> In x xs /\ key x <> loan_id).
  { intros A key xs x. now rewrite filter_In, negb_true_iff, Z.eqb_neq. }
  split; [intros l; apply Kept|]. split; [intros e; apply Kept|].
  split; [intros p; apply Kept|].
  split; [|split].
  - intros up session. unfold calculate_total_owed, get_table_data_loans.
    cbn [loans_new]. destruct session as [user_id|]; [|reflexivity].
    destruct (up T_loans_new); [|reflexivity].
    rewrite filter_filter_and.
    rewrite <- (filter_ext (fun _ => false)); [now rewrite filter_false|].
    intros l. destruct (Z.eqb_spec (Loan.id l) loan_id) as [E|N]; cbn [negb andb].
    + reflexivity.
    + now rewrite andb_false_r.
  - intros up session other Hother.
    unfold calculate_total_owed, get_table_data_loans, unpaid_interest_of.
    cbn [loans_new loan_interest_history].
    assert (EL : forall user_id,
               filter (fun l => owned_by user_id (Loan.user_id l) && (Loan.id l =? other))
                      (filter (fun l => negb (Loan.id l =? loan_id)) (loans_new st))
               = filter (fun l => owned_by user_id (Loan.user_id l) && (Loan.id l =? other))
                        (loans_new st)).
    { intros user_id. apply filter_after_delete. intros l Hl.
      apply andb_true_iff in Hl. destruct Hl as [_ Hl]. apply Z.eqb_eq in Hl.
      apply negb_true_iff. apply Z.eqb_neq. congruence. }
    assert (EH : filter (fun e => (Interest.loan_id e =? other) && negb (Interest.is_paid e))
                        (filter (fun e => negb (Interest.loan_id e =? loan_id))
                                (loan_interest_history st))
                 = filter (fun e => (Interest.loan_id e =? other)
                                    && negb (Interest.is_paid e))
                          (loan_interest_history st)).
    { apply filter_after_delete. intros e He.
      apply andb_true_iff in He. destruct He as [He _]. apply Z.eqb_eq in He.
      apply negb_true_iff. apply Z.eqb_neq. congruence. }
    rewrite EH. destruct session as [user_id|]; [|reflexivity].
    destruct (up T_loans_new); [|reflexivity]. now rewrite EL.
  - now rewrite !filter_twice.
Qed.

Lemma accrual_only_appends_rows today st :
  exists added,
    loan_interest_history (check_and_add_overdue_interest today st)
    = loan_interest_history st ++ added
    /\ payments_new (check_and_add_overdue_interest today st) = payments_new st.
Proof.
  unfold check_and_add_overdue_interest.
  destruct (accrue_loans_appends today
              (filter (fun l => negb (status_eqb (Loan.status l) Paid)) (loans_new st)) st)
    as (added & E & P & _).
  now exists added.
Qed.

(** ** Editing a loan *)

Lemma loan_rescheduled_refl l : loan_rescheduled l l.
Proof. unfold loan_rescheduled. tauto. Qed.

Lemma loan_rescheduled_trans a b c :
  loan_rescheduled a b -> loan_rescheduled b c -> loan_rescheduled a c.
Proof.
  unfold loan_rescheduled.
  intros (A1 & A2 & A3 & A4 & A5 & A6 & A7) (B1 & B2 & B3 & B4 & B5 & B6 & B7).
  repeat split; congruence.
Qed.

Lemma touches_rescheduled today ks r : loan_rescheduled r (touches today ks r).
Proof.
  unfold touches. revert r. induction ks as [|k ks IH]; intros r;
    [apply loan_rescheduled_refl|].
  cbn [fold_left]. apply (loan_rescheduled_trans r (touch today k r)); [|apply IH].
  destruct (touch_columns today k r) as (E1 & E2 & E3 & E4 & E5 & E6 & E7).
  unfold loan_rescheduled. tauto.
Qed.

Lemma retags_rescheduled today session st1 ks r :
  loan_rescheduled r (fold_left (retag today session st1) ks r)
  /\ Loan.current_due_date (fold_left (retag today session st1) ks r)
     = Loan.current_due_date r.
Proof.
  revert r. induction ks as [|k ks IH]; intros r;
    [split; [apply loan_rescheduled_refl|reflexivity]|].
  cbn [fold_left]. destruct (IH (retag today session st1 r k)) as [H1 H2].
  assert (G : loan_rescheduled r (retag today session st1 r k)
              /\ Loan.current_due_date (retag today session st1 r k)
                 = Loan.current_due_date r).
  { unfold retag. destruct (Loan.id r =? Loan.id k);
      (split; [unfold loan_rescheduled; cbn; tauto|reflexivity]). }
  destruct G as [G1 G2]. split; [|congruence].
  exact (loan_rescheduled_trans _ _ _ G1 H1).
Qed.

(** A refresh rewrites due dates and statuses of loans and appends
    interest entries; it does nothing else. *)
Lemma update_loan_statuses_shape today session st :
  exists H added,
    loans_new (update_loan_statuses today session st) = map H (loans_new st)
    /\ (forall r, loan_rescheduled r (H r))
    /\ loan_interest_history (update_loan_statuses today session st)
       = loan_interest_history st ++ added
    /\ payments_new (update_loan_statuses today session st) = payments_new st.
Proof.
  unfold update_loan_statuses.
  set (st1 := check_and_add_overdue_interest today st).
  destruct (refresh_loans_tables today session (loans_new st1) st1) as [EH EP].
  destruct (accrual_only_appends_rows today st) as (added & Ea & Ep).
  fold st1 in Ea, Ep.
  exists (fun r => fold_left (retag today session st1) (loans_new st1)
                     (touches today
                        (filter (fun l => negb (status_eqb (Loan.status l) Paid))
                                (loans_new st)) r)),
         added.
  split; [|split; [|split]].
  - rewrite (refresh_loans today session st1 (loans_new st1) st1 eq_refl eq_refl).
    assert (E1 : loans_new st1
                 = map (touches today
                          (filter (fun l => negb (status_eqb (Loan.status l) Paid))
                                  (loans_new st))) (loans_new st)).
    { unfold st1, check_and_add_overdue_interest. now rewrite loans_new_accrue_loans. }
    generalize (fold_left (retag today session st1) (loans_new st1)). intros f.
    now rewrite E1, map_map.
  - intros r. eapply loan_rescheduled_trans; [apply touches_rescheduled|].
    apply retags_rescheduled.
  - now rewrite EH.
  - now rewrite EP.
Qed.

(** X19: [update_loan] refuses an id that no loan row has, leaving the
    store as it was, and otherwise resets every row of that id, whoever
    owns it: original and current principal become round(new_principal, 2)
    and the original due date the new date, while every other row keeps
    these columns, and all rows keep id and owner. *)
Theorem update_loan_resets today session st loan_id new_principal new_due_date :
  (update_loan today session st loan_id new_principal new_due_date
   = ((false, "Loan not found"%string), st)
   /\ Forall (fun l => Loan.id l <> loan_id) (loans_new st))
  \/ (fst (update_loan today session st loan_id new_principal new_due_date)
      = (true, "Loan updated successfully"%string)
      /\ (exists l, In l (loans_new st) /\ Loan.id l = loan_id)
      /\ Forall2 (fun l l' =>
                    Loan.id l' = Loan.id l /\ Loan.user_id l' = Loan.user_id l
                    /\ if Loan.id l =? loan_id
                       then Loan.original_principal l' = round2 new_principal
                            /\ Loan.current_principal l' = round2 new_principal
                            /\ Loan.original_due_date l' = Some new_due_date
                       else Loan.original_principal l' = Loan.original_principal l
                            /\ Loan.current_principal l' = Loan.current_principal l
                            /\ Loan.original_due_date l' = Loan.original_due_date l)
                 (loans_new st)
                 (loans_new (snd (update_loan today session st loan_id new_principal
                                              new_due_date)))).
Proof.
  unfold update_loan.
  destruct (filter (fun l => Loan.id l =? loan_id) (loans_new st)) as [|l0 rest] eqn:F.
  - left. split; [reflexivity|]. apply Forall_forall. intros l Hl E.
    assert (Hin : In l (filter (fun l => Loan.id l =? loan_id) (loans_new st))).
    { apply filter_In. split; [exact Hl|]. now apply Z.eqb_eq. }
    rewrite F in Hin. contradiction.
  - right. cbn [fst snd]. split; [reflexivity|]. split.
    + assert (Hin : In l0 (filter (fun l => Loan.id l =? loan_id) (loans_new st)))
        by (rewrite F; now left).
      apply filter_In in Hin. destruct Hin as [Hin E]. apply Z.eqb_eq in E.
      now exists l0.
    + set (st1 := mkStore _ _ _).
      destruct (update_loan_statuses_shape today session st1) as (H & added & EL & HH & _).
      rewrite EL. unfold st1. cbn [loans_new]. unfold update_rows. rewrite map_map.
      apply Forall2_map_self. intros l.
      destruct (Loan.id l =? loan_id).
      * destruct (HH (reset_loan (round2 new_principal) new_due_date l))
          as (H1 & H2 & _ & _ & H5 & H6 & H7).
        cbn in H1, H2, H5, H6, H7. now repeat split.
      * destruct (HH l) as (H1 & H2 & _ & _ & H5 & H6 & H7). now repeat split.
Qed.

(** X20: [update_loan] deletes no interest entry and reopens none. With
    distinct entry ids, for a loan that exists, every stored entry is
    still stored afterwards, unchanged, except the first one of the loan
    for the new due date, which keeps its paid flag and gets the new
    interest and principal; and there is then an entry of the loan for
    the new due date holding calculate_interest of the rounded new
    principal. *)
Theorem update_loan_keeps_entries today session st loan_id new_principal new_due_date :
  NoDup (map Interest.id (loan_interest_history st)) ->
  (exists l, In l (loans_new st) /\ Loan.id l = loan_id) ->
  let history' :=
    loan_interest_history
      (snd (update_loan today session st loan_id new_principal new_due_date)) in
  Forall (fun e =>
            In e history'
            \/ (Interest.loan_id e = loan_id /\ Interest.due_date e = new_due_date
                /\ In (reprice_entry (calculate_interest (round2 new_principal))
                                     (round2 new_principal) e) history'))
         (loan_interest_history st)
  /\ exists e', In e' history'
                /\ Interest.loan_id e' = loan_id
                /\ Interest.due_date e' = new_due_date
                /\ Interest.interest_amount e' = calculate_interest (round2 new_principal)
                /\ Interest.principal_at_time e' = round2 new_principal.
Proof.
  intros ND (l & Hl & Hid). cbv zeta. unfold update_loan.
  destruct (filter (fun l => Loan.id l =? loan_id) (loans_new st)) as [|l0 rest] eqn:F.
  { exfalso.
    assert (Hin : In l (filter (fun l => Loan.id l =? loan_id) (loans_new st))).
    { apply filter_In. split; [exact Hl|]. now apply Z.eqb_eq. }
    rewrite F in Hin. contradiction. }
  cbn [snd]. set (st1 := mkStore _ _ _).
  destruct (update_loan_statuses_shape today session st1) as (H & added & _ & _ & EH & _).
  rewrite EH. unfold st1. cbn [loan_interest_history]. clear EH st1.
  destruct (filter (fun e => (Interest.loan_id e =? loan_id)
                             && date_eqb (Interest.due_date e) new_due_date)
                   (loan_interest_history st)) as [|first others] eqn:Fe.
  - split.
    + apply Forall_forall. intros e He. left.
      apply in_or_app. left. apply in_or_app. now left.
    + eexists. split; [apply in_or_app; left; apply in_or_app; right; now left|].
      now repeat split.
  - assert (Hfirst : In first (loan_interest_history st)
                     /\ Interest.loan_id first = loan_id
                     /\ Interest.due_date first = new_due_date).
    { assert (Hin : In first (filter (fun e => (Interest.loan_id e =? loan_id)
                                               && date_eqb (Interest.due_date e)
                                                           new_due_date)
                                     (loan_interest_history st)))
        by (rewrite Fe; now left).
      apply filter_In in Hin. destruct Hin as [Hin Hp].
      apply andb_true_iff in Hp. destruct Hp as [H1 H2].
      apply Z.eqb_eq in H1. apply date_eqb_eq in H2. tauto. }
    destruct Hfirst as (Hin1 & Hl1 & Hd1).
    assert (Hrep : In (reprice_entry (calculate_interest (round2 new_principal))
                                     (round2 new_principal) first)
                      (update_rows (fun e => Interest.id e =? Interest.id first)
                                   (reprice_entry (calculate_interest (round2 new_principal))
                                                  (round2 new_principal))
                                   (loan_interest_history st))).
    { unfold update_rows. apply in_map_iff. exists first.
      now rewrite Z.eqb_refl. }
    split.
    + apply Forall_forall. intros e He.
      destruct (Z.eq_dec (Interest.id e) (Interest.id first)) as [E|N].
      * assert (e = first) as -> by (now apply (NoDup_id_inj (loan_interest_history st))).
        right. split; [exact Hl1|]. split; [exact Hd1|].
        apply in_or_app. now left.
      * left. apply in_or_app. left. unfold update_rows. apply in_map_iff.
        exists e. split; [|exact He].
        now replace (Interest.id e =? Interest.id first) with false
          by (symmetry; now apply Z.eqb_neq).
    + eexists. split; [apply in_or_app; left; exact Hrep|].
      cbn. now repeat split.
Qed.

Lemma update_loan_keeps_entries_witness :
  exists e',
    In e' (loan_interest_history
             (snd (update_loan (mkdate 2024 Feb 1) (Some Sample.alice) Sample.ledger2 1 600
                               (mkdate 2024 Mar 5))))
    /\ Interest.due_date e' = mkdate 2024 Mar 5
    /\ Interest.interest_amount e' = calculate_interest (round2 600).
Proof.
  destruct (update_loan_keeps_entries (mkdate 2024 Feb 1) (Some Sample.alice)
                                      Sample.ledger2 1 600 (mkdate 2024 Mar 5))
    as (_ & e' & H1 & _ & H3 & H4 & _).
  - repeat constructor; simpl; intuition discriminate.
  - exists Sample.loan1. split; [now left|reflexivity].
  - now exists e'.
Defined.

(** ** Creating a loan *)

Lemma cents_at_least_one (x : Q) : is_cents x -> (0 < x)%Q -> (1 # 100 <= x)%Q.
Proof.
  intros (c & E) H. rewrite E in H |- *. clear E.
  apply (proj1 (cents_pos c)) in H. apply cents_le. lia.
Qed.

Lemma round2_pos (x : Q) : (1 # 100 <= x)%Q -> (0 < round2 x)%Q.
Proof. intros H. destruct (round2_near x) as [_ N]. lra. Qed.

(** X21: the form [add_loan] stores a new loan for the session's user: for
    a positive principal in whole cents, a client that was found and
    distinct loan ids, the loan gets an unused id, the principal as
    given, the due date as original due date, and one interest entry of
    calculate_interest of the principal for that date. After the refresh that ends the
    handler its current due date is the first of due date, due date + 1
    month, ... not before today and its status is Partial, also when the
    loan was entered with a due date already past. *)
Theorem add_loan_creates today user_id st client_id others principal loan_date due_date :
  NoDup (map Loan.id (loans_new st)) ->
  is_cents principal -> (0 < principal)%Q ->
  let st' := add_loan today (Some user_id) st (client_id :: others) principal
                      loan_date due_date in
  let loan_id := fresh_id (map Loan.id (loans_new st)) in
  ~ In loan_id (map Loan.id (loans_new st))
  /\ (exists n,
        In (Loan.mk loan_id (Some user_id) client_id loan_date (Some due_date)
                    (Some (advance n due_date)) (round2 principal) (round2 principal)
                    Partial)
           (loans_new st')
        /\ date_ltb (advance n due_date) today = false
        /\ forall m, (m < n)%nat -> date_ltb (advance m due_date) today = true)
  /\ (round2 principal == principal)%Q
  /\ In (Interest.mk (fresh_id (map Interest.id (loan_interest_history st)))
                     (Some user_id) loan_id due_date
                     (calculate_interest (round2 principal)) (round2 principal)
                     today false)
        (loan_interest_history st').
Proof.
  intros ND Hc Hpos. cbv zeta.
  split; [apply fresh_id_not_in|].
  unfold add_loan.
  assert (T : Qle_bool principal 0 = false) by (now apply Qle_bool_false_iff).
  rewrite T.
  set (loan_id := fresh_id (map Loan.id (loans_new st))).
  set (loan := Loan.mk loan_id (Some user_id) client_id loan_date (Some due_date)
                       (Some due_date) (round2 principal) (round2 principal) Partial).
  set (entry := Interest.mk _ (Some user_id) loan_id due_date _ _ today false).
  set (st0 := mkStore (loans_new st ++ [loan]) (loan_interest_history st ++ [entry])
                      (payments_new st)).
  assert (ND0 : NoDup (map Loan.id (loans_new st0))).
  { unfold st0. cbn [loans_new]. rewrite map_app. cbn [map].
    apply NoDup_snoc; [exact ND|apply fresh_id_not_in]. }
  split; [|split; [now apply round2_exact|]].
  - destruct (walked_due_date_advance today due_date) as (n & E & Hstop & Hbefore).
    exists n. split; [|split; [exact Hstop|exact Hbefore]].
    assert (Hin : In (Loan.set_due_date_and_status (walked_due_date today due_date)
                                                   Overdue loan)
                     (loans_new (check_and_add_overdue_interest today st0))).
    { apply accrual_persists_walked_due_date; try easy.
      unfold st0. cbn [loans_new]. apply in_or_app. right. now left. }
    rewrite E in Hin.
    change (update_loan_statuses today (Some user_id) st0)
      with (refresh_all today (Some user_id) (check_and_add_overdue_interest today st0)).
    set (st1 := check_and_add_overdue_interest today st0) in *.
    assert (ND1 : NoDup (map Loan.id (loans_new st1)))
      by (unfold st1; now rewrite accrual_keeps_ids).
    rewrite refresh_all_resolved by exact ND1. cbn [loans_new].
    set (l1 := Loan.set_due_date_and_status (advance n due_date) Overdue loan) in *.
    apply in_map_iff. exists l1. split; [|exact Hin].
    unfold resolved.
    rewrite (calculate_total_owed_read user_id st1 (Loan.id l1) l1 []).
    + cbn [total_owed_of fst]. unfold resolve_status.
      assert (P : (0 < round2 (Loan.current_principal l1
                               + unpaid_interest_of st1 (Loan.id l1)))%Q).
      { apply round2_pos. cbn [Loan.current_principal l1 loan
                               Loan.set_due_date_and_status].
        pose proof (unpaid_interest_of_nonneg st1 loan_id).
        pose proof (round2_exact _ Hc). pose proof (cents_at_least_one _ Hc Hpos).
        change (Loan.id l1) with loan_id. lra. }
      apply Qle_bool_false_iff in P. rewrite P.
      cbn [Loan.current_due_date l1 Loan.set_due_date_and_status].
      rewrite Hstop. reflexivity.
    + apply filter_unique_id; try assumption.
      * cbn. now rewrite String.eqb_refl, Z.eqb_refl.
      * intros x Hx. apply andb_true_iff in Hx. destruct Hx as [_ Hx].
        now apply Z.eqb_eq.
  - destruct (update_loan_statuses_shape today (Some user_id) st0)
      as (H & added & _ & _ & EH & _).
    rewrite EH. unfold st0. cbn [loan_interest_history].
    apply in_or_app. left. apply in_or_app. right. now left.
Qed.

Lemma add_loan_creates_witness :
  exists n,
    In (Loan.mk 2 (Some Sample.alice) 7 (mkdate 2024 Jan 2) (Some (mkdate 2024 Jan 31))
                (Some (advance n (mkdate 2024 Jan 31))) (round2 1000) (round2 1000) Partial)
       (loans_new (add_loan (mkdate 2024 Apr 6) (Some Sample.alice) Sample.ledger1 [7] 1000
                            (mkdate 2024 Jan 2) (mkdate 2024 Jan 31)))
    /\ date_ltb (advance n (mkdate 2024 Jan 31)) (mkdate 2024 Apr 6) = false.
Proof.
  destruct (add_loan_creates (mkdate 2024 Apr 6) Sample.alice Sample.ledger1 7 [] 1000
                             (mkdate 2024 Jan 2) (mkdate 2024 Jan 31))
    as (_ & (n & H1 & H2 & _) & _).
  - repeat constructor. simpl. tauto.
  - exists 100000. reflexivity.
  - reflexivity.
  - exists n. split; [exact H1|exact H2].
Defined.

(** ** Interest a payment cannot reach *)

Lemma sum_amounts_member (xs : list Q) (x : Q) :
  Forall (fun y => 0 < y)%Q xs -> In x xs -> (x <= sum_amounts xs)%Q.
Proof.
  induction 1 as [|y ys Hy Hys IH]; intros Hin; [contradiction|].
  rewrite sum_amounts_cons. pose proof (sum_amounts_nonneg ys Hys).
  destruct Hin as [->|Hin]; [lra|]. specialize (IH Hin). lra.
Qed.

(** X22: a payment never settles an interest entry that does not carry
    the caller's id, as the entries inserted by the accrual pass do not.
    While a loan has such an unpaid entry of a positive whole-cent
    amount and no stored principal is negative, a successful
    [process_payment] of any amount leaves the entry as it is and writes
    the status Active, never Paid. *)
Theorem process_payment_skips_foreign_interest
    user_id st loan_id payment_amount payment_date e :
  fst (fst (process_payment (Some user_id) st loan_id payment_amount payment_date)) = true ->
  Forall (fun l => 0 <= Loan.current_principal l)%Q (loans_new st) ->
  In e (loan_interest_history st) ->
  Interest.loan_id e = loan_id -> Interest.is_paid e = false ->
  Interest.user_id e <> Some user_id ->
  is_cents (Interest.interest_amount e) -> (0 < Interest.interest_amount e)%Q ->
  let st' := snd (process_payment (Some user_id) st loan_id payment_amount payment_date) in
  In e (loan_interest_history st')
  /\ (Interest.interest_amount e <= unpaid_interest_of st' loan_id)%Q
  /\ forall l, In l (loans_new st') -> Loan.id l = loan_id ->
               Loan.user_id l = Some user_id -> Loan.status l = Active.
Proof.
  intros Hok Hprin He Hl Hp Hu Hc Hpos. cbv zeta.
  assert (Hforeign : owned_by user_id (Interest.user_id e) = false).
  { unfold owned_by. destruct (Interest.user_id e) as [o|]; [|reflexivity].
    apply String.eqb_neq. congruence. }
  pose proof (process_payment_principal_floor (Some user_id) st loan_id payment_amount
                                              payment_date) as Hfloor.
  unfold process_payment in *.
  set (this_loan := fun l => (Loan.id l =? loan_id) && owned_by user_id (Loan.user_id l))
    in *.
  destruct (filter this_loan (loans_new st)) as [|loan rest] eqn:F; [discriminate|].
  destruct (pay_interest_frame user_id
              (order_by_due_date
                 (filter (fun e => (Interest.loan_id e =? loan_id)
                                   && owned_by user_id (Interest.user_id e)
                                   && negb (Interest.is_paid e)
                                   && Qlt_bool 0 (Interest.interest_amount e))
                         (loan_interest_history st)))
              (round2 payment_amount) 0%Q (loan_interest_history st)) as (G & EG & HG).
  destruct (pay_interest _ _ _ _ _) as [[remaining applied] history].
  cbn [snd] in EG. subst history.
  cbn [snd loans_new loan_interest_history payments_new] in *.
  set (loans := if Qlt_bool 0 remaining then _ else loans_new st) in *.
  set (payments := payments_new st ++ _) in *.
  set (st1 := {| loans_new := loans; loan_interest_history := map G (loan_interest_history st);
                 payments_new := payments |}) in *.
  set (new_status := if Qle_bool _ 0 then Paid else Active) in *.
  assert (Hkept : In e (map G (loan_interest_history st))).
  { apply in_map_iff. exists e. split; [|exact He]. now apply HG. }
  assert (Hunpaid : forall s, loan_interest_history s = map G (loan_interest_history st) ->
                              (Interest.interest_amount e <= unpaid_interest_of s loan_id)%Q).
  { intros s Es. unfold unpaid_interest_of. rewrite Es.
    apply sum_amounts_member.
    - apply Forall_map. apply Forall_forall. intros x Hx. apply filter_In in Hx.
      destruct Hx as [_ Hx]. now apply Qlt_bool_iff.
    - apply in_map. apply filter_In. split; [|now apply Qlt_bool_iff].
      apply filter_In. split; [exact Hkept|].
      rewrite Hl, Z.eqb_refl, Hp. reflexivity. }
  split; [exact Hkept|]. split; [now apply Hunpaid|].
  (* the total that decides the status *)
  assert (Hactive : new_status = Active).
  { unfold new_status. fold st1.
    assert (Hrow : exists loan' rest', filter this_loan loans = loan' :: rest').
    { assert (M : exists x, In x (filter this_loan loans)).
      { assert (Hin : In loan (filter this_loan (loans_new st))) by (rewrite F; now left).
        apply filter_In in Hin. destruct Hin as [Hin Hm].
        unfold loans. destruct (Qlt_bool 0 remaining).
        - exists (Loan.set_current_principal
                    (max_zero (round2 (Loan.current_principal loan - remaining))) loan).
          apply filter_In. split; [|exact Hm].
          unfold update_rows. apply in_map_iff. exists loan. now rewrite Hm.
        - exists loan. now apply filter_In. }
      destruct M as (x & Hx). destruct (filter this_loan loans) as [|a b];
        [contradiction|now exists a, b]. }
    destruct Hrow as (loan' & rest' & F').
    rewrite (calculate_total_owed_read user_id st1 loan_id loan' rest').
    2:{ rewrite <- F'. apply filter_ext. intros l. apply andb_comm. }
    cbn [total_owed_of fst].
    assert (Hp' : (0 <= Loan.current_principal loan')%Q).
    { assert (Hin : In loan' (filter this_loan loans)) by (rewrite F'; now left).
      apply filter_In in Hin. destruct Hin as [Hin _].
      destruct (Hfloor (Loan.set_status new_status loan')) as [H|(r & Hr & _ & E)].
      - unfold update_rows. apply in_map_iff. exists loan'. split; [|exact Hin].
        assert (Hm : this_loan loan' = true).
        { assert (Hin' : In loan' (filter this_loan loans)) by (rewrite F'; now left).
          apply filter_In in Hin'. tauto. }
        now rewrite Hm.
      - exact H.
      - cbn in E. rewrite E. rewrite Forall_forall in Hprin. now apply Hprin. }
    pose proof (Hunpaid st1 eq_refl) as Hge.
    pose proof (cents_at_least_one _ Hc Hpos) as H1.
    assert (P : (0 < round2 (Loan.current_principal loan' + unpaid_interest_of st1 loan_id))%Q)
      by (apply round2_pos; lra).
    apply Qle_bool_false_iff in P. now rewrite P. }
  intros l Hin Hid Hown. apply in_update_rows in Hin. destruct Hin as (r & Hr & ->).
  assert (Hm : this_loan r = true).
  { destruct (this_loan r) eqn:Er; [reflexivity|]. rewrite <- Er.
    apply this_loan_iff. now split. }
  rewrite Hm. exact Hactive.
Qed.

Lemma process_payment_skips_foreign_interest_witness :
  Forall (fun l => Loan.status l = Active)
         (loans_new (snd (process_payment (Some Sample.alice) Demo.walked_ledger 1 100000
                                          (mkdate 2024 Apr 7)))).
Proof.
  apply Forall_forall. intros l Hl.
  destruct (process_payment_skips_foreign_interest Sample.alice Demo.walked_ledger 1 100000
              (mkdate 2024 Apr 7)
              (Interest.mk 2 None 1 (mkdate 2024 Mar 5) (round2 (500 * INTEREST_RATE)) 500
                           (mkdate 2024 Apr 6) false))
    as (_ & _ & H).
  - reflexivity.
  - repeat constructor. unfold Qle. simpl. lia.
  - right. left. reflexivity.
  - reflexivity.
  - reflexivity.
  - discriminate.
  - exists 20000. reflexivity.
  - reflexivity.
  - vm_compute in Hl. destruct Hl as [<-|[]]. apply H.
    + left. reflexivity.
    + reflexivity.
    + reflexivity.
Defined.

(** ** Primary keys *)

Lemma NoDup_map_filter {A : Type} (key : A -> Z) (P : A -> bool) (xs : list A) :
  NoDup (map key xs) -> NoDup (map key (filter P xs)).
Proof.
  induction xs as [|x xs IH]; intros ND; [exact ND|].
  cbn [map] in ND. apply NoDup_cons_iff in ND. destruct ND as [Hx ND].
  cbn [filter]. destruct (P x); [|now apply IH].
  cbn [map]. apply NoDup_cons; [|now apply IH].
  intros Hin. apply Hx. apply in_map_iff in Hin. destruct Hin as (y & E & Hy).
  rewrite <- E. apply in_map. apply filter_In in Hy. tauto.
Qed.

Lemma map_key_update_rows {A : Type} (key : A -> Z) (P : A -> bool) (f : A -> A)
    (xs : list A) :
  (forall x, key (f x) = key x) -> map key (update_rows P f xs) = map key xs.
Proof.
  intros H. unfold update_rows. rewrite map_map. apply map_ext. intros x.
  now destruct (P x).
Qed.

Lemma distinct_ids_accrual today st :
  distinct_ids st -> distinct_ids (check_and_add_overdue_interest today st).
Proof.
  intros (HL & HI & HP). unfold distinct_ids.
  rewrite accrual_keeps_ids.
  destruct (accrual_only_appends_rows today st) as (added & _ & EP). rewrite EP.
  split; [exact HL|]. split; [|exact HP].
  unfold check_and_add_overdue_interest.
  apply (accrue_loans_invariant (fun h => NoDup (map Interest.id h))); [|exact HI].
  intros. now apply accrual_walk_ids.
Qed.

Lemma distinct_ids_refresh today session st :
  distinct_ids st -> distinct_ids (update_loan_statuses today session st).
Proof.
  intros H. apply (distinct_ids_accrual today) in H. destruct H as (HL & HI & HP).
  unfold update_loan_statuses.
  set (st1 := check_and_add_overdue_interest today st) in *.
  destruct (refresh_loans_tables today session (loans_new st1) st1) as [EH EP].
  unfold distinct_ids. rewrite EH, EP.
  rewrite (refresh_loans today session st1 (loans_new st1) st1 eq_refl eq_refl).
  split; [|now split].
  rewrite map_map.
  replace (map (fun r => Loan.id (fold_left (retag today session st1) (loans_new st1) r))
               (loans_new st1))
    with (map Loan.id (loans_new st1)); [exact HL|].
  apply map_ext. intros r. now rewrite retags_id.
Qed.

Lemma distinct_ids_payment session st loan_id payment_amount payment_date :
  distinct_ids st ->
  distinct_ids (snd (process_payment session st loan_id payment_amount payment_date)).
Proof.
  intros (HL & HI & HP). unfold process_payment.
  destruct session as [user_id|]; [|now repeat split].
  destruct (filter _ (loans_new st)) as [|loan rest]; [now repeat split|].
  destruct (pay_interest_frame user_id
              (order_by_due_date
                 (filter (fun e => (Interest.loan_id e =? loan_id)
                                   && owned_by user_id (Interest.user_id e)
                                   && negb (Interest.is_paid e)
                                   && Qlt_bool 0 (Interest.interest_amount e))
                         (loan_interest_history st)))
              (round2 payment_amount) 0%Q (loan_interest_history st)) as (G & EG & HG).
  destruct (pay_interest _ _ _ _ _) as [[remaining applied] history].
  cbn [snd] in EG. subst history.
  unfold distinct_ids. cbn [snd loans_new loan_interest_history payments_new].
  split; [|split].
  - rewrite map_key_update_rows by reflexivity.
    destruct (Qlt_bool 0 remaining); [|exact HL].
    now rewrite map_key_update_rows by reflexivity.
  - rewrite map_map.
    replace (map (fun e => Interest.id (G e)) (loan_interest_history st))
      with (map Interest.id (loan_interest_history st)); [exact HI|].
    apply map_ext. intros e. destruct (HG e) as [(E & _) _]. now rewrite E.
  - rewrite map_app. cbn [map Payment.id].
    apply NoDup_snoc; [exact HP|apply fresh_id_not_in].
Qed.

(** X23: ids stay distinct. If the ids of the loans, of the interest
    entries and of the payments are distinct, they still are after an
    accrual pass, a status refresh, a payment, an edit of a loan, the
    deletion of a loan and the creation of a loan: rows are rewritten in
    place, deleted, or appended under an id that is not in use. *)
Theorem distinct_ids_kept st :
  distinct_ids st ->
  (forall today, distinct_ids (check_and_add_overdue_interest today st))
  /\ (forall today session, distinct_ids (update_loan_statuses today session st))
  /\ (forall session loan_id payment_amount payment_date,
        distinct_ids (snd (process_payment session st loan_id payment_amount payment_date)))
  /\ (forall today session loan_id new_principal new_due_date,
        distinct_ids (snd (update_loan today session st loan_id new_principal
                                       new_due_date)))
  /\ (forall loan_id, distinct_ids (snd (delete_loan_with_related_data st loan_id)))
  /\ (forall today session client_result principal loan_date due_date,
        distinct_ids (add_loan today session st client_result principal loan_date
                               due_date)).
Proof.
  intros H. pose proof H as (HL & HI & HP).
  split; [intros; now apply distinct_ids_accrual|].
  split; [intros; now apply distinct_ids_refresh|].
  split; [intros; now apply distinct_ids_payment|].
  split; [|split].
  - intros today session loan_id new_principal new_due_date. unfold update_loan.
    destruct (filter _ (loans_new st)) as [|l0 rest]; [exact H|].
    cbn [snd]. apply distinct_ids_refresh. unfold distinct_ids.
    cbn [loans_new loan_interest_history payments_new].
    split; [now rewrite map_key_update_rows by reflexivity|]. split; [|exact HP].
    destruct (filter _ (loan_interest_history st)) as [|first others].
    + rewrite map_app. cbn [map Interest.id].
      apply NoDup_snoc; [exact HI|apply fresh_id_not_in].
    + now rewrite map_key_update_rows by reflexivity.
  - intros loan_id. unfold delete_loan_with_related_data, distinct_ids.
    cbn [snd loans_new loan_interest_history payments_new].
    repeat split; now apply NoDup_map_filter.
  - intros today session client_result principal loan_date due_date. unfold add_loan.
    destruct (Qle_bool principal 0); [exact H|].
    destruct client_result as [|client_id others]; [exact H|].
    destruct session as [user_id|]; [|exact H].
    apply distinct_ids_refresh. unfold distinct_ids.
    cbn [loans_new loan_interest_history payments_new].
    split; [|split; [|exact HP]]; rewrite map_app; cbn [map Loan.id Interest.id];
      (apply NoDup_snoc; [assumption|apply fresh_id_not_in]).
Qed.

Lemma distinct_ids_kept_witness :
  distinct_ids (update_loan_statuses (mkdate 2024 Apr 6) (Some Sample.alice)
                                     Sample.shared_ledger).
Proof.
  destruct (distinct_ids_kept Sample.shared_ledger) as (_ & H & _).
  - unfold distinct_ids. repeat split; repeat constructor; simpl; intuition discriminate.
  - apply H.
Defined.

(** ** The loans view *)

Lemma sum_amounts_positive_entries (es : list Interest.t) :
  Forall (fun e => 0 <= Interest.interest_amount e)%Q es ->
  (sum_amounts (map Interest.interest_amount
                    (filter (fun e => Qlt_bool 0 (Interest.interest_amount e)) es))
   == sum_amounts (map Interest.interest_amount es))%Q.
Proof.
  induction 1 as [|e es He _ IH]; [reflexivity|].
  cbn [filter map]. destruct (Qlt_bool 0 (Interest.interest_amount e)) eqn:E.
  - cbn [map]. rewrite !sum_amounts_cons. lra.
  - rewrite sum_amounts_cons.
    assert (Hle : ~ (0 < Interest.interest_amount e)%Q).
    { intros Hlt. apply Qlt_bool_iff in Hlt. congruence. }
    lra.
Qed.

(** X24: On the loans page, for a loan whose id is unique in the table and
    whose unpaid interest entries are none of them negative, the row of
    [get_loans_simple_view] repeats the loan's id, principal and status,
    its total is principal plus interest, and that total rounded to two
    places is the total owed that [calculate_total_owed] reports to the
    loan's owner. *)
Theorem get_loans_simple_view_total dir st user l :
  NoDup (map Loan.id (loans_new st)) ->
  In l (loans_new st) ->
  Loan.user_id l = Some user ->
  Forall (fun e => Interest.loan_id e = Loan.id l -> Interest.is_paid e = false ->
                   (0 <= Interest.interest_amount e)%Q)
         (loan_interest_history st) ->
  exists v, In v (get_loans_simple_view dir st) /\
    LoanView.id v = Loan.id l /\
    LoanView.principal v = Loan.current_principal l /\
    LoanView.status v = Loan.status l /\
    LoanView.total v = (LoanView.principal v + LoanView.interest v)%Q /\
    round2 (LoanView.total v)
    = total_owed_of (calculate_total_owed online (Some user) st (Loan.id l)).
Proof.
  intros ND Hin Hu Hpos.
  unfold get_loans_simple_view.
  eexists. split; [apply in_map_iff; exists l; split; [reflexivity|exact Hin]|].
  cbn [LoanView.id LoanView.principal LoanView.status LoanView.total LoanView.interest].
  repeat (split; [reflexivity|]).
  assert (F : filter (fun x => owned_by user (Loan.user_id x) && (Loan.id x =? Loan.id l))
                     (loans_new st) = [l]).
  { apply filter_unique_id; [exact ND|exact Hin| |].
    - rewrite Hu. cbn [owned_by]. rewrite String.eqb_refl, Z.eqb_refl. reflexivity.
    - intros x Hx. apply andb_true_iff in Hx. destruct Hx as [_ Hx].
      now apply Z.eqb_eq in Hx. }
  rewrite (calculate_total_owed_read user st (Loan.id l) l [] F).
  cbn [total_owed_of fst]. apply round2_comp.
  unfold unpaid_interest_of.
  rewrite sum_amounts_positive_entries; [reflexivity|].
  apply Forall_forall. intros e He.
  apply filter_In in He. destruct He as [He Hc].
  apply andb_true_iff in Hc. destruct Hc as [Hid Hpaid].
  apply Z.eqb_eq in Hid. apply negb_true_iff in Hpaid.
  rewrite Forall_forall in Hpos. now apply Hpos.
Qed.

Lemma get_loans_simple_view_total_witness :
  exists v, In v (get_loans_simple_view Demo.directory Sample.shared_ledger) /\
    LoanView.id v = 2 /\
    LoanView.principal v = 800%Q /\
    LoanView.status v = Partial /\
    LoanView.total v = (LoanView.principal v + LoanView.interest v)%Q /\
    round2 (LoanView.total v)
    = total_owed_of (calculate_total_owed online (Some Sample.bob) Sample.shared_ledger 2).
Proof.
  apply (get_loans_simple_view_total Demo.directory Sample.shared_ledger
           Sample.bob Sample.loan2).
  - repeat constructor; simpl; intuition discriminate.
  - right. left. reflexivity.
  - reflexivity.
  - repeat constructor; simpl; intros; discriminate.
Defined.

(** ** Deleting clients and groups *)

Lemma delete_related_loans loans_data st :
  loans_new (delete_related loans_data st) = loans_new st.
Proof.
  unfold delete_related. revert st.
  induction loans_data as [|a ls IH]; intros st; [reflexivity|].
  cbn [fold_left]. now rewrite IH.
Qed.

Lemma delete_related_history loans_data st e :
  In e (loan_interest_history (delete_related loans_data st)) <->
  In e (loan_interest_history st) /\
  forall l, In l loans_data -> Interest.loan_id e <> Loan.id l.
Proof.
  unfold delete_related. revert st.
  induction loans_data as [|a ls IH]; intros st; cbn [fold_left].
  - split; [intros H; split; [exact H|intros l []]|now intros [H _]].
  - rewrite IH. cbn [loan_interest_history]. rewrite filter_In, negb_true_iff, Z.eqb_neq.
    split.
    + intros [[H1 H2] H3]. split; [exact H1|].
      intros l [<-|Hl]; [exact H2|now apply H3].
    + intros [H1 H2]. repeat split; [exact H1|apply H2; now left|].
      intros l Hl. apply H2. now right.
Qed.

Lemma delete_related_payments loans_data st p :
  In p (payments_new (delete_related loans_data st)) <->
  In p (payments_new st) /\
  forall l, In l loans_data -> Payment.loan_id p <> Loan.id l.
Proof.
  unfold delete_related. revert st.
  induction loans_data as [|a ls IH]; intros st; cbn [fold_left].
  - split; [intros H; split; [exact H|intros l []]|now intros [H _]].
  - rewrite IH. cbn [payments_new]. rewrite filter_In, negb_true_iff, Z.eqb_neq.
    split.
    + intros [[H1 H2] H3]. split; [exact H1|].
      intros l [<-|Hl]; [exact H2|now apply H3].
    + intros [H1 H2]. repeat split; [exact H1|apply H2; now left|].
      intros l Hl. apply H2. now right.
Qed.

Lemma length_filter_zero {A} (P : A -> bool) (xs : list A) :
  Nat.eqb (List.length (filter P xs)) 0 = true <-> filter P xs = [].
Proof.
  destruct (filter P xs); cbn; split; congruence.
Qed.

Lemma filter_negb_all {A} (P : A -> bool) (xs : list A) :
  filter P xs = [] -> filter (fun x => negb (P x)) xs = xs.
Proof.
  induction xs as [|a xs IH]; [reflexivity|].
  cbn [filter]. destruct (P a); [discriminate|].
  intros H. cbn [negb]. f_equal. now apply IH.
Qed.

Lemma filter_of_filter_negb {A} (P : A -> bool) (xs : list A) :
  filter P (filter (fun x => negb (P x)) xs) = [].
Proof.
  induction xs as [|a xs IH]; [reflexivity|].
  cbn [filter]. destruct (P a) eqn:E; cbn [negb filter]; [exact IH|].
  now rewrite E.
Qed.

(** X25: [delete_client_with_related_data] always reports success. After
    it no loan refers to the client ([can_delete_client] holds), the
    client's row is gone, every interest entry and payment that points at
    one of the client's loans is gone, and the loans of other clients and
    the entries and payments that point at none of the client's loans are
    all kept. When [can_delete_client] held before the call, as the
    clients page requires, the three ledger tables are left as they
    were. *)
Theorem delete_client_cascade dir st client_id :
  let '(r, (dir', st')) := delete_client_with_related_data dir st client_id in
  fst r = true /\
  can_delete_client st' client_id = true /\
  Forall (fun c => Client.id c <> client_id) (clients dir') /\
  groups dir' = groups dir /\
  (forall l, In l (loans_new st') <->
             In l (loans_new st) /\ Loan.client_id l <> client_id) /\
  (forall e, In e (loan_interest_history st') <->
             In e (loan_interest_history st) /\
             forall l, In l (loans_new st) -> Loan.client_id l = client_id ->
                       Interest.loan_id e <> Loan.id l) /\
  (forall p, In p (payments_new st') <->
             In p (payments_new st) /\
             forall l, In l (loans_new st) -> Loan.client_id l = client_id ->
                       Payment.loan_id p <> Loan.id l) /\
  (can_delete_client st client_id = true -> st' = st).
Proof.
  unfold delete_client_with_related_data. cbv zeta.
  set (loans_data := filter (fun l => Loan.client_id l =? client_id) (loans_new st)).
  cbn [fst clients groups].
  split; [reflexivity|].
  split.
  { unfold can_delete_client. cbn [loans_new]. apply length_filter_zero.
    apply filter_of_filter_negb. }
  split.
  { apply Forall_forall. intros c Hc. apply filter_In in Hc.
    destruct Hc as [_ Hc]. apply negb_true_iff in Hc. now apply Z.eqb_neq in Hc. }
  split; [reflexivity|].
  split.
  { intros l. cbn [loans_new]. rewrite delete_related_loans.
    now rewrite filter_In, negb_true_iff, Z.eqb_neq. }
  split.
  { intros e. cbn [loan_interest_history]. rewrite delete_related_history.
    split; intros [H1 H2]; (split; [exact H1|]).
    - intros l Hl Hc. apply H2. apply filter_In. split; [exact Hl|now apply Z.eqb_eq].
    - intros l Hl. apply filter_In in Hl. destruct Hl as [Hl Hc].
      apply Z.eqb_eq in Hc. now apply H2. }
  split.
  { intros p. cbn [payments_new]. rewrite delete_related_payments.
    split; intros [H1 H2]; (split; [exact H1|]).
    - intros l Hl Hc. apply H2. apply filter_In. split; [exact Hl|now apply Z.eqb_eq].
    - intros l Hl. apply filter_In in Hl. destruct Hl as [Hl Hc].
      apply Z.eqb_eq in Hc. now apply H2. }
  intros Hcan. unfold can_delete_client in Hcan. apply length_filter_zero in Hcan.
  fold loans_data in Hcan. rewrite Hcan. cbn [delete_related fold_left].
  unfold loans_data in Hcan. rewrite (filter_negb_all _ _ Hcan).
  now destruct st.
Qed.

Lemma filter_nil_iff {A} (P : A -> bool) (xs : list A) :
  filter P xs = [] <-> forall x, In x xs -> P x = false.
Proof.
  induction xs as [|a xs IH]; cbn [filter].
  - split; [intros _ x []|reflexivity].
  - destruct (P a) eqn:E.
    + split; [discriminate|]. intros H. specialize (H a (or_introl eq_refl)). congruence.
    + rewrite IH. split.
      * intros H x [<-|Hx]; [exact E|now apply H].
      * intros H x Hx. apply H. now right.
Qed.

(** The loop over the clients of a group never fails; it removes the
    listed clients and the loans that refer to them. *)
Lemma delete_clients_spec cs : forall dir st,
  exists msg dir' st',
    delete_clients cs dir st = ((true, msg), (dir', st')) /\
    groups dir' = groups dir /\
    (forall c', In c' (clients dir') <->
                In c' (clients dir) /\ forall c, In c cs -> Client.id c' <> Client.id c) /\
    (forall l, In l (loans_new st') <->
               In l (loans_new st) /\ forall c, In c cs -> Loan.client_id l <> Client.id c) /\
    (cs = [] -> dir' = dir /\ st' = st).
Proof.
  induction cs as [|a cs IH]; intros dir st.
  - exists EmptyString, dir, st. cbn [delete_clients].
    split; [reflexivity|]. split; [reflexivity|].
    split; [intros c'; split; [intros H; split; [exact H|intros c []]|now intros [H _]]|].
    split; [intros l; split; [intros H; split; [exact H|intros c []]|now intros [H _]]|].
    intros _. now split.
  - cbn [delete_clients]. unfold delete_client_with_related_data. cbv zeta.
    cbn iota beta.
    match goal with
    | |- context [delete_clients cs ?d ?s] =>
        destruct (IH d s) as (msg & dir' & st' & E & Eg & Hc & Hl & _);
        exists msg, dir', st'
    end.
    split; [exact E|]. split; [exact Eg|].
    split.
    + intros c'. rewrite Hc. cbn [clients].
      rewrite filter_In, negb_true_iff, Z.eqb_neq. split.
      * intros [[H1 H2] H3]. split; [exact H1|].
        intros c [<-|Hin]; [exact H2|now apply H3].
      * intros [H1 H2]. repeat split; [exact H1|apply H2; now left|].
        intros c Hin. apply H2. now right.
    + split; [|discriminate].
      intros l. rewrite Hl. cbn [loans_new]. rewrite delete_related_loans.
      rewrite filter_In, negb_true_iff, Z.eqb_neq. split.
      * intros [[H1 H2] H3]. split; [exact H1|].
        intros c [<-|Hin]; [exact H2|now apply H3].
      * intros [H1 H2]. repeat split; [exact H1|apply H2; now left|].
        intros c Hin. apply H2. now right.
Qed.

(** X26: [delete_group_with_related_data] always reports success. After
    it the group's row is gone, no client refers to the group
    ([can_delete_group] holds), no loan refers to a client that was in the
    group, and every client that remains was stored before. When
    [can_delete_group] held before the call, as the groups page requires,
    the clients and the three ledger tables are left as they were. *)
Theorem delete_group_cascade dir st group_id :
  let '(r, (dir', st')) := delete_group_with_related_data dir st group_id in
  fst r = true /\
  can_delete_group dir' group_id = true /\
  Forall (fun g => Group.id g <> group_id) (groups dir') /\
  (forall c, In c (clients dir) -> Client.group_id c = group_id ->
             can_delete_client st' (Client.id c) = true) /\
  (forall c, In c (clients dir') -> In c (clients dir)) /\
  (can_delete_group dir group_id = true -> clients dir' = clients dir /\ st' = st).
Proof.
  unfold delete_group_with_related_data. cbv zeta.
  set (cs := filter (fun c => Client.group_id c =? group_id) (clients dir)).
  destruct (delete_clients_spec cs dir st) as (msg & dir' & st' & E & Eg & Hc & Hl & Hnil).
  rewrite E. cbn [fst clients groups].
  split; [reflexivity|].
  split.
  { unfold can_delete_group. cbn [clients]. apply length_filter_zero.
    apply filter_nil_iff. intros c Hin. apply Hc in Hin. destruct Hin as [Hin Hne].
    apply Z.eqb_neq. intros Hg. apply (Hne c); [|reflexivity].
    apply filter_In. split; [exact Hin|now apply Z.eqb_eq]. }
  split.
  { apply Forall_forall. intros g Hg. apply filter_In in Hg.
    destruct Hg as [_ Hg]. apply negb_true_iff in Hg. now apply Z.eqb_neq in Hg. }
  split.
  { intros c Hin Hg. unfold can_delete_client. apply length_filter_zero.
    apply filter_nil_iff. intros l Hlin. apply Hl in Hlin. destruct Hlin as [_ Hne].
    apply Z.eqb_neq. apply Hne. apply filter_In. split; [exact Hin|now apply Z.eqb_eq]. }
  split.
  { intros c Hin. now apply Hc in Hin. }
  intros Hcan. unfold can_delete_group in Hcan. apply length_filter_zero in Hcan.
  destruct (Hnil Hcan) as [-> ->]. now split.
Qed.

(** ** The status of a loan of the caller *)

(** X28: the status of a loan of the session's user. In the table the
    status pass reads (the one accrual leaves), for a loan [l] of the
    calling owner, ids being distinct, with a principal in whole cents
    and unpaid interest entries in whole cents, none negative, let
    total_owed be the current principal plus the sum of the
    interest_amount of the unpaid entries of the loan. The refresh
    rewrites [l] to exactly one row that differs from [l] in its status
    only, and that status is Paid when total_owed <= 0, Overdue when
    total_owed > 0 and today is after the due date, Partial when
    total_owed > 0 and today is on or before the due date or the loan has
    none. *)
Theorem update_loan_statuses_resolves today user st l :
  NoDup (map Loan.id (loans_new st)) ->
  In l (loans_new (check_and_add_overdue_interest today st)) ->
  Loan.user_id l = Some user ->
  is_cents (Loan.current_principal l) ->
  Forall (fun e => Interest.loan_id e = Loan.id l -> Interest.is_paid e = false ->
                   is_cents (Interest.interest_amount e)
                   /\ (0 <= Interest.interest_amount e)%Q)
         (loan_interest_history (check_and_add_overdue_interest today st)) ->
  exists l',
    In l' (loans_new (update_loan_statuses today (Some user) st))
    /\ l' = Loan.set_status (Loan.status l') l
    /\ (forall l2, In l2 (loans_new (update_loan_statuses today (Some user) st)) ->
                   Loan.id l2 = Loan.id l -> l2 = l')
    /\ let total_owed :=
         (Loan.current_principal l
          + sum_amounts
              (map Interest.interest_amount
                   (filter (fun e => (Interest.loan_id e =? Loan.id l)
                                     && negb (Interest.is_paid e))
                           (loan_interest_history
                              (check_and_add_overdue_interest today st)))))%Q in
       ((total_owed <= 0)%Q -> Loan.status l' = Paid)
       /\ (forall due, (0 < total_owed)%Q -> Loan.current_due_date l = Some due ->
                       date_ltb due today = true -> Loan.status l' = Overdue)
       /\ (forall due, (0 < total_owed)%Q -> Loan.current_due_date l = Some due ->
                       date_ltb due today = false -> Loan.status l' = Partial)
       /\ ((0 < total_owed)%Q -> Loan.current_due_date l = None ->
           Loan.status l' = Partial).
Proof.
  intros ND Hin Hown Hprin Hent.
  set (st1 := check_and_add_overdue_interest today st) in *.
  assert (ND1 : NoDup (map Loan.id (loans_new st1)))
    by (unfold st1; now rewrite accrual_keeps_ids).
  assert (EL : loans_new (update_loan_statuses today (Some user) st)
               = map (resolved today (Some user) st1) (loans_new st1)).
  { change (update_loan_statuses today (Some user) st)
      with (refresh_all today (Some user) st1).
    now rewrite refresh_all_resolved. }
  set (unpaid := filter (fun e => (Interest.loan_id e =? Loan.id l)
                                  && negb (Interest.is_paid e))
                        (loan_interest_history st1)).
  assert (Hunpaid : Forall (fun e => is_cents (Interest.interest_amount e)
                                     /\ (0 <= Interest.interest_amount e)%Q) unpaid).
  { apply Forall_forall. intros e He. apply filter_In in He. destruct He as [He Hc].
    apply andb_true_iff in Hc. destruct Hc as [Hid Hp].
    apply Z.eqb_eq in Hid. apply negb_true_iff in Hp.
    rewrite Forall_forall in Hent. now apply Hent. }
  assert (EU : (unpaid_interest_of st1 (Loan.id l)
                == sum_amounts (map Interest.interest_amount unpaid))%Q).
  { unfold unpaid_interest_of. fold unpaid. apply sum_amounts_positive_entries.
    eapply Forall_impl; [|exact Hunpaid]. now intros e [_ H]. }
  assert (Hsum : is_cents (Loan.current_principal l
                           + sum_amounts (map Interest.interest_amount unpaid))).
  { apply is_cents_plus; [exact Hprin|]. apply sum_amounts_cents. apply Forall_map.
    eapply Forall_impl; [|exact Hunpaid]. now intros e [H _]. }
  assert (ET : (total_owed_of (calculate_total_owed online (Some user) st1 (Loan.id l))
                == Loan.current_principal l
                   + sum_amounts (map Interest.interest_amount unpaid))%Q).
  { rewrite (calculate_total_owed_read user st1 (Loan.id l) l []).
    - cbn [total_owed_of fst].
      rewrite (round2_comp _ (Loan.current_principal l
                              + sum_amounts (map Interest.interest_amount unpaid))).
      + now apply round2_exact.
      + rewrite EU. reflexivity.
    - apply filter_unique_id; try assumption.
      + rewrite Hown. cbn [owned_by]. now rewrite String.eqb_refl, Z.eqb_refl.
      + intros x Hx. apply andb_true_iff in Hx. destruct Hx as [_ Hx].
        now apply Z.eqb_eq. }
  exists (resolved today (Some user) st1 l).
  split; [|split; [|split]].
  - rewrite EL. now apply in_map.
  - reflexivity.
  - intros l2 H2 Hid. rewrite EL in H2. apply in_map_iff in H2.
    destruct H2 as (r & <- & Hr). cbn in Hid.
    now rewrite (NoDup_loan_id_inj (loans_new st1) r l ND1 Hr Hin Hid).
  - cbv zeta. unfold resolved. cbn [Loan.status Loan.set_status]. unfold resolve_status.
    set (code_total := total_owed_of (calculate_total_owed online (Some user) st1
                                                          (Loan.id l))) in *.
    split; [|split; [|split]].
    + intros H. replace (Qle_bool code_total 0) with true; [reflexivity|].
      symmetry. apply Qle_bool_iff. lra.
    + intros due H Hd Hlt.
      replace (Qle_bool code_total 0) with false
        by (symmetry; apply Qle_bool_false_iff; lra).
      now rewrite Hd, Hlt.
    + intros due H Hd Hlt.
      replace (Qle_bool code_total 0) with false
        by (symmetry; apply Qle_bool_false_iff; lra).
      now rewrite Hd, Hlt.
    + intros H Hd.
      replace (Qle_bool code_total 0) with false
        by (symmetry; apply Qle_bool_false_iff; lra).
      now rewrite Hd.
Qed.

Lemma update_loan_statuses_resolves_witness :
  (exists l',
      In l' (loans_new (update_loan_statuses (mkdate 2024 Apr 6) (Some Sample.alice)
                                             Demo.settled_ledger))
      /\ Loan.status l' = Paid)
  /\ (exists l',
         In l' (loans_new (update_loan_statuses (mkdate 2024 Apr 6) (Some Sample.alice)
                                                Sample.stale_ledger))
         /\ Loan.current_due_date l' = Some (mkdate 2024 Feb 5)
         /\ Loan.status l' = Overdue)
  /\ (exists l',
         In l' (loans_new (update_loan_statuses (mkdate 2024 Apr 6) (Some Sample.alice)
                                                Sample.ledger1))
         /\ Loan.current_due_date l' = Some (mkdate 2024 May 5)
         /\ Loan.status l' = Partial).
Proof.
  split; [|split].
  - destruct (update_loan_statuses_resolves (mkdate 2024 Apr 6) Sample.alice
                Demo.settled_ledger
                (Loan.set_status Paid (Loan.set_current_principal (0 # 100) Sample.loan1)))
      as (l' & Hin & _ & _ & Hpaid & _).
    + repeat constructor. simpl. tauto.
    + left. reflexivity.
    + reflexivity.
    + exists 0. reflexivity.
    + repeat constructor; simpl; intros; discriminate.
    + exists l'. split; [exact Hin|]. apply Hpaid. vm_compute. discriminate.
  - destruct (update_loan_statuses_resolves (mkdate 2024 Apr 6) Sample.alice
                Sample.stale_ledger (Loan.set_status Paid Sample.loan1))
      as (l' & Hin & Hl' & _ & _ & Hoverdue & _).
    + repeat constructor. simpl. tauto.
    + left. reflexivity.
    + reflexivity.
    + exists 50000. reflexivity.
    + repeat constructor; simpl; intros; [exists 20000; reflexivity|discriminate].
    + exists l'. split; [exact Hin|]. split; [now rewrite Hl'|].
      apply (Hoverdue (mkdate 2024 Feb 5)); reflexivity.
  - destruct (update_loan_statuses_resolves (mkdate 2024 Apr 6) Sample.alice Sample.ledger1
                (Loan.set_due_date_and_status (mkdate 2024 May 5) Overdue Sample.loan1))
      as (l' & Hin & Hl' & _ & _ & _ & Hpartial & _).
    + repeat constructor. simpl. tauto.
    + left. reflexivity.
    + reflexivity.
    + exists 50000. reflexivity.
    + repeat constructor; simpl; intros;
        first [exists 20000; reflexivity | discriminate].
    + exists l'. split; [exact Hin|]. split; [now rewrite Hl'|].
      apply (Hpartial (mkdate 2024 May 5)); reflexivity.
Defined.

(** ** Two refreshes on the same day *)



